(** * Matsya flood detector: the two forecasting stages

    A shallow embedding of [flood_detector/predict_river_level.py] (stage 1,
    river level) and [flood_detector/predict_flood.py] (stage 2, flood
    probability and risk class), with the part of [flood_detector/combine.py]
    that chains them.  Around the stages: the column names their loaders
    accept, the step runners [flood_detector/combine.py] and [run_model.py],
    the fetchers [forecast_rainfall.py] and [forecast_gfs_upstream.py] that
    write the forecast tables, the part of [final_flood_dashboard.py] that
    reads the output, and the feature lists of the two trainers.

    Modelling conventions.
    - A Python float is an exact rational ([Q]); rounding, NaN and infinities
      are not represented.  Comparisons and the shape of every arithmetic
      expression follow the source.  The exception is [binary64], which
      repeats the heuristic loop of stage 1 on IEEE 754 doubles, for the
      property of that loop that rounding decides.
    - A date is a day number ([Z]); the order on dates is the order on [Z].
    - A CSV table is the list of its rows after the column renaming done by
      the loaders; a table that is present on disk has a number in every rain
      cell.  The river level of a history row may be missing, which the source
      tests with [pd.isna].
    - The files of the working directory are the fields of [World]; a stage
      maps a world to either the world after its single final write, or the
      exception that stopped it.
    - A trained predictor is the function from the frame it is given to the
      number it answers.  In the source [model.predict] and
      [clf.predict_proba] can also raise (an estimator fitted on other
      columns than the persisted feature list names); that is not
      represented: with a loaded predictor, the [Ok] result of a stage
      describes the run in which every call of the predictor returns. *)

From Stdlib Require Import QArith Qabs Qround Qminmax Lqa ZArith Lia.
From Stdlib Require PrimFloat.
From stdpp Require Import gmap strings pretty list sorting.

Local Open Scope string_scope.

(** ** Exceptions and results *)

Inductive exn : Type :=
  | FileNotFoundError (path : string)
  | UnpicklingError (path : string)
  | OSError (path : string)
  | ReadCsvError (path : string).

Inductive result (A : Type) : Type :=
  | Ok (a : A)
  | Raise (e : exn).
Arguments Ok {A} a.
Arguments Raise {A} e.

#[global] Instance result_ret : MRet result := λ A a, Ok a.
#[global] Instance result_bind : MBind result := λ A B f m,
  match m with
  | Ok a => f a
  | Raise e => Raise e
  end.

(** ** Files *)

(** A persisted artifact: not on disk, on disk but not loadable
    ([pickle.load] or [open] raises), or on disk with its content. *)
Inductive File (A : Type) : Type :=
  | Missing
  | Unreadable
  | Holds (content : A).
Arguments Missing {A}.
Arguments Unreadable {A}.
Arguments Holds {A} content.

(** [os.path.exists] on an artifact. *)
Definition exists_file {A} (f : File A) : bool :=
  match f with
  | Missing => false
  | Unreadable | Holds _ => true
  end.

(** [pickle.load(open(path, "rb"))] *)
Definition pickle_load {A} (path : string) (f : File A) : result A :=
  match f with
  | Missing => Raise (FileNotFoundError path)
  | Unreadable => Raise (UnpicklingError path)
  | Holds a => Ok a
  end.

(** [[l.strip() for l in open(path) if l.strip()]]: the non-blank lines. *)
Definition read_lines (path : string) (f : File (list string)) : result (list string) :=
  match f with
  | Missing => Raise (FileNotFoundError path)
  | Unreadable => Raise (OSError path)
  | Holds lines => Ok lines
  end.

(** ** Tables *)

(** A row of cleaned_data.csv as data_prep.py writes it. *)
Record HistRow : Type := {
  h_date : Z;
  h_upstream_rain : Q;
  h_gurd_rain : Q;
  h_river_level : option Q
}.

(** A row of a rainfall forecast (forecast_rainfall.csv with column
    local_rain, upstream_forecast_gfs.csv with column upstream_rain). *)
Record FcRow : Type := {
  fc_date : Z;
  fc_rain : Q
}.

(** A row of predicted_river_level.csv. *)
Record PredRow : Type := {
  p_date : Z;
  pred_river_level : Q
}.

(** A row of flood_forecast.csv. *)
Record ForecastRow : Type := {
  date : Z;
  local_rain : Q;
  upstream_rain : Q;
  out_pred_river_level : Q;
  flood_probability : Q;
  flood_probability_pct : string;
  risk_class : string
}.

(** A trained predictor takes the one-row frame it is given, as the list of
    its named columns, and answers a number: [float(model.predict(Xf)[0])]
    and [float(clf.predict_proba(X)[0,1])] for a call that returns. *)
Definition Frame : Type := list (string * Q).
Definition RiverModel : Type := Frame → Q.
Definition FloodModel : Type := Frame → Q.

Record World : Type := {
  cleaned_data : option (list HistRow);
  forecast_rainfall : option (list FcRow);
  upstream_forecast_gfs : option (list FcRow);
  river_model : File RiverModel;
  river_feature_order : File (list string);
  flood_model : File FloodModel;
  flood_feature_order : File (list string);
  predicted_river_level : option (list PredRow);
  flood_forecast : option (list ForecastRow);
  utc_today : Z
}.

(** [out.to_csv("predicted_river_level.csv")], after removing an old file. *)
Definition write_predicted_river_level (w : World) (rows : list PredRow) : World :=
  {| cleaned_data := cleaned_data w;
     forecast_rainfall := forecast_rainfall w;
     upstream_forecast_gfs := upstream_forecast_gfs w;
     river_model := river_model w;
     river_feature_order := river_feature_order w;
     flood_model := flood_model w;
     flood_feature_order := flood_feature_order w;
     predicted_river_level := Some rows;
     flood_forecast := flood_forecast w;
     utc_today := utc_today w |}.

(** [out_df.to_csv("flood_forecast.csv")], after removing an old file. *)
Definition write_flood_forecast (w : World) (rows : list ForecastRow) : World :=
  {| cleaned_data := cleaned_data w;
     forecast_rainfall := forecast_rainfall w;
     upstream_forecast_gfs := upstream_forecast_gfs w;
     river_model := river_model w;
     river_feature_order := river_feature_order w;
     flood_model := flood_model w;
     flood_feature_order := flood_feature_order w;
     predicted_river_level := predicted_river_level w;
     flood_forecast := Some rows;
     utc_today := utc_today w |}.

(** Library functions the stages call and this development does not define:
    numpy's least-squares fit of [y] on [x] (slope, intercept), the calendar
    fields of a pandas timestamp, and Python's [round(prob*100, 1)] printed
    with a percent sign. *)
Class Externals : Type := {
  np_linalg_lstsq : list (Q * Q) → Q * Q;
  Timestamp_month : Z → Z;
  Timestamp_dayofyear : Z → Z;
  format_pct : Q → string
}.

(** ** Numbers and lists as Python has them *)

#[global] Instance Q_inhabited : Inhabited Q := populate 0%Q.

(** [max(a, b)]: [b] when [b > a], else [a]. *)
Definition py_max (a b : Q) : Q :=
  if Qlt_le_dec a b then b else a.

(** [np.clip(x, lo, hi)] is [minimum(maximum(x, lo), hi)]. *)
Definition np_clip (x lo hi : Q) : Q :=
  let y := if Qlt_le_dec x lo then lo else x in
  if Qlt_le_dec hi y then hi else y.

(** [series.clip(lower=lo)]. *)
Definition clip_lower (x lo : Q) : Q :=
  if Qlt_le_dec x lo then lo else x.

(** [sum(l)]: left to right from 0. *)
Definition py_sum (l : list Q) : Q :=
  foldl Qplus 0%Q l.

(** [hist.iloc[-i]] for [i >= 1], under the guard [len(hist) >= i]. *)
Definition iloc_neg {A} (l : list A) (i : nat) : option A :=
  if decide (i ≤ length l)%nat then l !! (length l - i)%nat else None.

(** [sort_values("date")]: rows in ascending order of their date. *)
Definition by_date {A} (key : A → Z) : relation A :=
  λ r1 r2, (key r1 ≤ key r2)%Z.

#[global] Instance by_date_dec {A} (key : A → Z) (r1 r2 : A) :
  Decision (by_date key r1 r2) := Z.le_dec (key r1) (key r2).

Definition sort_values {A} (key : A → Z) (df : list A) : list A :=
  merge_sort (by_date key) df.

(** The keys of [{c: ... for c in l}]: each name once, at its first place. *)
Definition dict_keys (l : list string) : list string :=
  foldl (λ acc c, if decide (c ∈ acc) then acc else (acc ++ [c])%list) [] l.

(** ** LagBufferEngine: the lag lists shared by both stages *)

(** [lags = [v] + lags[:-1]] *)
Definition push (v : Q) (lags : list Q) : list Q :=
  v :: removelast lags.

(** [sum(lags[:k])] *)
Definition rollingSum (lags : list Q) (k : nat) : Q :=
  py_sum (take k lags).

(** [feat[f"{name}_lag_{j}"] = lags[j-1]] for [j] in 1..7.  A lag list always
    has 7 entries (see [lag_buffer_lengths]), so the index is in range. *)
Definition feat_lags (name : string) (lags : list Q) (feat : gmap string Q)
  : gmap string Q :=
  foldl (λ m j, <[name +:+ "_lag_" +:+ pretty j := lags !!! (j - 1)%nat]> m)
        feat (seq 1 7).

(** [feat.get(c, 0.0)] *)
Definition feat_get (feat : gmap string Q) (c : string) : Q :=
  default 0%Q (feat !! c).

(** The historical table in memory: the sorted rows of cleaned_data.csv, or
    the empty frame [pd.DataFrame()] when the file does not exist. *)
Definition read_hist (w : World) : list HistRow :=
  match cleaned_data w with
  | Some df => sort_values h_date df
  | None => []
  end.

(** [float(hist.iloc[-1]["river_level"])] when the table has a row whose
    river level is not missing, else [0.0]. *)
Definition last_river (hist : list HistRow) : Q :=
  match last hist with
  | Some r => default 0%Q (h_river_level r)
  | None => 0%Q
  end.

(** [model is not None and feat_order is not None], keeping the pair. *)
Definition use_model {M} (loaded : option M * option (list string))
  : option (M * list string) :=
  match loaded with
  | (Some model, Some feat_order) => Some (model, feat_order)
  | _ => None
  end.

(** ** Stage 1: predict_river_level.py *)

Module predict_river_level.

Definition MODEL_FILE : string := "river_model.pkl".
Definition FEATURE_FILE : string := "river_feature_order.txt".
Definition HORIZON : nat := 5.

Record LoopState : Type := {
  up_lags : list Q;
  river_prev : Q;
  preds : list PredRow
}.

Section stage.
Context {ext : Externals}.

Definition load_upstream_forecast (w : World) : list FcRow :=
  match upstream_forecast_gfs w with
  | Some df => sort_values fc_date df
  | None =>
    match forecast_rainfall w with
    | Some df_local =>
      (* proxy from the local forecast, scaled by the historical overlap *)
      let '(a, b) :=
        match cleaned_data w with
        | Some hist =>
          let overlap := sort_values h_date hist in
          if decide (10 ≤ length overlap)%nat
          then np_linalg_lstsq
                 (map (λ r, (h_gurd_rain r, h_upstream_rain r)) overlap)
          else (1, 0)%Q
        | None => (1, 0)%Q
        end in
      map (λ r, {| fc_date := fc_date r;
                   fc_rain := clip_lower (a * fc_rain r + b) 0 |})
          (take HORIZON df_local)
    | None =>
      (* last fallback: zeros from today on *)
      map (λ i, {| fc_date := utc_today w + Z.of_nat i; fc_rain := 0 |})
          (seq 0 HORIZON)
    end
  end.

Definition load_model_and_feats (w : World)
  : result (option RiverModel * option (list string)) :=
  if exists_file (river_model w) && exists_file (river_feature_order w) then
    model ← pickle_load MODEL_FILE (river_model w);
    feat_order ← read_lines FEATURE_FILE (river_feature_order w);
    Ok (Some model, Some feat_order)
  else Ok (None, None).

(** The feature dict of one horizon day. *)
Definition features (up_lags : list Q) (roll3 roll5 roll7 river_prev : Q)
    (fdate : Z) : gmap string Q :=
  let feat := feat_lags "up" up_lags ∅ in
  let feat := <["up_roll_3" := roll3]> feat in
  let feat := <["up_roll_5" := roll5]> feat in
  let feat := <["up_roll_7" := roll7]> feat in
  let feat := <["river_lag_1" := river_prev]> feat in
  let feat := <["month" := inject_Z (Timestamp_month fdate)]> feat in
  <["doy" := inject_Z (Timestamp_dayofyear fdate)]> feat.

(** The [else] branch of the loop body: the heuristic level. *)
Definition heuristic_level (river_prev roll3 upstream_today : Q) : Q :=
  let base := if Qeq_dec river_prev 0 then 349.5%Q else river_prev in
  let pred := (base + 0.12 * roll3 + 0.02 * upstream_today)%Q in
  (0.6 * pred + 0.4 * river_prev)%Q.

(** One iteration of [for i, row in up_fc.iterrows()]. *)
Definition step (um : option (RiverModel * list string)) (st : LoopState)
    (row : FcRow) : LoopState :=
  let fdate := fc_date row in
  let upstream_today := fc_rain row in
  let up_lags := push upstream_today (up_lags st) in
  let roll3 := rollingSum up_lags 3 in
  let roll5 := rollingSum up_lags 5 in
  let roll7 := rollingSum up_lags 7 in
  let pred :=
    match um with
    | Some (model, feat_order) =>
      let feat := features up_lags roll3 roll5 roll7 (river_prev st) fdate in
      let Xf := map (λ c, (c, feat_get feat c)) (dict_keys feat_order) in
      model Xf
    | None => heuristic_level (river_prev st) roll3 upstream_today
    end in
  {| up_lags := up_lags;
     river_prev := pred;
     preds := (preds st ++ [{| p_date := fdate; pred_river_level := pred |}])%list |}.

(** [up_fc]: the sorted upstream forecast, cut to the horizon. *)
Definition horizon_rows (w : World) : list FcRow :=
  take HORIZON (sort_values fc_date (load_upstream_forecast w)).

(** The seeds: [up_lags = [last_up]*7], [river_prev = last_river]. *)
Definition initial_state (w : World) : LoopState :=
  let hist := read_hist w in
  let last_up :=
    match last hist with
    | Some r => h_upstream_rain r
    | None => 0%Q
    end in
  {| up_lags := replicate 7 last_up;
     river_prev := last_river hist;
     preds := [] |}.

(** The loop over the first [k] horizon rows. *)
Definition run_loop (um : option (RiverModel * list string)) (w : World)
    (k : nat) : LoopState :=
  foldl (step um) (initial_state w) (take k (horizon_rows w)).

Definition main (w : World) : result World :=
  let up_fc := horizon_rows w in
  loaded ← load_model_and_feats w;
  let st := run_loop (use_model loaded) w (length up_fc) in
  Ok (write_predicted_river_level w (preds st)).

End stage.
End predict_river_level.

(** ** The heuristic loop of stage 1 on IEEE 754 doubles

    The loop of [main] in predict_river_level.py (lines 127-166) once more,
    for [use_model] false, with Python's floats as the binary64 numbers of
    the kernel: every [+] and [*] rounds to nearest, ties to even, and a
    decimal constant stands for the nearest binary64 number, as in CPython. *)

Module binary64.
Import PrimFloat.

(** [sum(l)]: left to right from 0.  (CPython 3.12 and later add floats with
    a compensated sum; on three lags that are zeros and one value taken once
    or twice, as in every run considered here, both give the same.) *)
Definition py_sum (l : list float) : float :=
  foldl add 0%float l.

(** [lags = [v] + lags[:-1]] *)
Definition push (v : float) (lags : list float) : list float :=
  v :: removelast lags.

(** The [else] branch of the loop body: the heuristic level. *)
#[warning="-inexact-float"]
Definition heuristic_level (river_prev roll3 upstream_today : float) : float :=
  let base := if negb (river_prev =? 0)%float then river_prev else 349.5%float in
  let pred := (base + 0.12 * roll3 + 0.02 * upstream_today)%float in
  (0.6 * pred + 0.4 * river_prev)%float.

Record LoopState : Type := {
  up_lags : list float;
  river_prev : float;
  preds : list float
}.

(** One iteration of the loop, on the [upstream_rain] of the row. *)
Definition step (st : LoopState) (upstream_today : float) : LoopState :=
  let up_lags := push upstream_today (up_lags st) in
  let roll3 := py_sum (take 3 up_lags) in
  let pred := heuristic_level (river_prev st) roll3 upstream_today in
  {| up_lags := up_lags;
     river_prev := pred;
     preds := (preds st ++ [pred])%list |}.

(** The levels of [preds] after the loop over the upstream rains [up_fc],
    from the seeds [up_lags = [last_up]*7] and [river_prev = last_river]. *)
Definition run (last_up last_river : float) (up_fc : list float) : list float :=
  preds (foldl step {| up_lags := replicate 7 last_up;
                       river_prev := last_river;
                       preds := [] |} up_fc).

(** The distance of a level to the baseline, [abs(level - 349.5)]. *)
Definition deviation (level : float) : float :=
  abs (level - 349.5)%float.

(** No entry of the list is greater than the entry before it. *)
Fixpoint non_increasing (l : list float) : bool :=
  match l with
  | a :: (b :: _) as rest => (b <=? a)%float && non_increasing rest
  | _ => true
  end.

(** The third, fourth and fifth of five levels are equal. *)
Definition settled (out : list float) : bool :=
  match out with
  | [_; _; o2; o3; o4] => (o3 =? o2)%float && (o4 =? o3)%float
  | _ => false
  end.

(** The binary64 number of a whole number below 2^53. *)
Fixpoint of_pos (p : positive) : float :=
  match p with
  | xH => 1
  | xO p => 2 * of_pos p
  | xI p => 2 * of_pos p + 1
  end%float.

(** The binary64 number nearest to [n/100], as [float] reads a decimal with
    two places. *)
Definition hundredths (n : N) : float :=
  match n with
  | N0 => 0%float
  | Npos p => (of_pos p / 100)%float
  end.

(** [test] holds of every number below [bound]. *)
Definition all_below (bound : N) (test : N → bool) : bool :=
  N.recursion true (λ n acc, test n && acc) bound.

End binary64.

(** ** Stage 2: predict_flood.py *)

Module predict_flood.

Definition MODEL_FILE : string := "flood_model.pkl".
Definition FEAT_FILE : string := "flood_feature_order.txt".
Definition RIVER_PRED : string := "predicted_river_level.csv".
Definition LOCAL_FC : string := "forecast_rainfall.csv".

Definition classify_prob (p : Q) : string :=
  if Qlt_le_dec p 0.10 then "No"
  else if Qlt_le_dec p 0.30 then "Low"
  else if Qlt_le_dec p 0.60 then "Moderate"
  else "High".

Definition load_local_forecast (w : World) : result (list FcRow) :=
  match forecast_rainfall w with
  | None => Raise (FileNotFoundError LOCAL_FC)
  | Some df => Ok (sort_values fc_date df)
  end.

Definition load_upstream_forecast (w : World) : result (list FcRow) :=
  match upstream_forecast_gfs w with
  | Some df => Ok (sort_values fc_date df)
  | None =>
    (* build zeros for same horizon as local *)
    local ← load_local_forecast w;
    Ok (map (λ r, {| fc_date := fc_date r; fc_rain := 0 |}) local)
  end.

(** A frame without rows is written by stage 1 as a file without a [date]
    column, which [read_csv(..., parse_dates=["date"])] rejects.  (A file
    with the header and no row, which stage 1 never writes, is not
    represented.) *)
Definition load_river_preds (w : World) : result (list PredRow) :=
  match predicted_river_level w with
  | None => Raise (FileNotFoundError RIVER_PRED)
  | Some [] => Raise (ReadCsvError RIVER_PRED)
  | Some df => Ok (sort_values p_date df)
  end.

Definition load_model_and_feats (w : World)
  : result (option FloodModel * option (list string)) :=
  if exists_file (flood_model w) && exists_file (flood_feature_order w) then
    clf ← pickle_load MODEL_FILE (flood_model w);
    feat_order ← read_lines FEAT_FILE (flood_feature_order w);
    Ok (Some clf, Some feat_order)
  else Ok (None, None).

(** [baseline] defaults to 349.5 in the source; [main] passes no fourth
    argument. *)
Definition heuristic_probability (local_rain upstream_rain pred_river_level
    baseline : Q) : Q :=
  let p := (0.08 * local_rain + 0.06 * upstream_rain
            + 0.003 * py_max 0 (pred_river_level - baseline))%Q in
  np_clip p 0 1.

(** [pd.merge(left, right, on="date", how="left")]: every left row in order,
    once per right row of the same date, or once with a missing value. *)
Definition merge_left {A} (key : A → Z) (left : list A) (right : list FcRow)
  : list (A * option Q) :=
  left ≫= (λ l,
    match filter (λ r, fc_date r = key l) right with
    | [] => [(l, None)]
    | matches => map (λ r, (l, Some (fc_rain r))) matches
    end).

(** A row of the merged frame after both [fillna(0.0)]. *)
Record MergedRow : Type := {
  m_date : Z;
  m_pred_river_level : Q;
  m_local_rain : Q;
  m_upstream_rain : Q
}.

Definition merged (df_river : list PredRow) (df_local df_up : list FcRow)
  : list MergedRow :=
  let df := merge_left p_date df_river df_local in
  let df := merge_left (λ x, p_date x.1) df df_up in
  map (λ x, {| m_date := p_date x.1.1;
               m_pred_river_level := pred_river_level x.1.1;
               m_local_rain := default 0%Q x.1.2;
               m_upstream_rain := default 0%Q x.2 |}) df.

(** [dict(zip(df_river["date"], df_river["pred_river_level"]))]: a later row
    replaces an earlier one of the same date. *)
Definition pred_river_map (df_river : list PredRow) : gmap Z Q :=
  foldl (λ m r, <[p_date r := pred_river_level r]> m) ∅ df_river.

(** The river lag of a day: the prediction of the latest earlier date in the
    map, else the last historical level. *)
Definition river_lag_1 (pred_river_map : gmap Z Q) (last_river : Q)
    (fdate : Z) : Q :=
  let prev_dates :=
    merge_sort Z.le (filter (λ d, (d < fdate)%Z) (elements (dom pred_river_map))) in
  match last prev_dates with
  | Some d => pred_river_map !!! d
  | None => last_river
  end.

Record LoopState : Type := {
  up_lags : list Q;
  local_lags : list Q;
  out_rows : list ForecastRow
}.

Section stage.
Context {ext : Externals}.

(** The feature dict of one horizon day. *)
Definition features (up_lags local_lags : list Q) (river_lag_1 : Q)
    (fdate : Z) : gmap string Q :=
  let feat := feat_lags "up" up_lags ∅ in
  let feat := feat_lags "local" local_lags feat in
  let feat := <["up_roll_3" := rollingSum up_lags 3]> feat in
  let feat := <["up_roll_5" := rollingSum up_lags 5]> feat in
  let feat := <["up_roll_7" := rollingSum up_lags 7]> feat in
  let feat := <["local_roll_3" := rollingSum local_lags 3]> feat in
  let feat := <["local_roll_5" := rollingSum local_lags 5]> feat in
  let feat := <["local_roll_7" := rollingSum local_lags 7]> feat in
  let feat := <["river_lag_1" := river_lag_1]> feat in
  let feat := <["river_present" := if Qlt_le_dec 0 river_lag_1 then 1%Q else 0%Q]> feat in
  let feat := <["month" := inject_Z (Timestamp_month fdate)]> feat in
  <["doy" := inject_Z (Timestamp_dayofyear fdate)]> feat.

(** One iteration of [for idx, row in df.iterrows()]. *)
Definition step (um : option (FloodModel * list string))
    (pred_river_map : gmap Z Q) (last_river : Q) (st : LoopState)
    (row : MergedRow) : LoopState :=
  let fdate := m_date row in
  let up_today := m_upstream_rain row in
  let local_today := m_local_rain row in
  let up_lags := push up_today (up_lags st) in
  let local_lags := push local_today (local_lags st) in
  let river_lag_1 := river_lag_1 pred_river_map last_river fdate in
  let feat := features up_lags local_lags river_lag_1 fdate in
  let prob :=
    match um with
    | Some (clf, feat_order) =>
      let X := map (λ c, (c, feat_get feat c)) feat_order in
      clf X
    | None =>
      heuristic_probability local_today up_today (m_pred_river_level row) 349.5
    end in
  {| up_lags := up_lags;
     local_lags := local_lags;
     out_rows := (out_rows st ++
       [{| date := fdate;
           local_rain := local_today;
           upstream_rain := up_today;
           out_pred_river_level := m_pred_river_level row;
           flood_probability := prob;
           flood_probability_pct := format_pct prob;
           risk_class := classify_prob prob |}])%list |}.

(** The seeds: the last 7 historical values of each rain, newest first,
    [0.0] where the table is too short. *)
Definition initial_state (hist : list HistRow) : LoopState :=
  {| up_lags :=
       map (λ i, match iloc_neg hist i with
                 | Some r => h_upstream_rain r
                 | None => 0%Q
                 end) (seq 1 7);
     local_lags :=
       map (λ i, match iloc_neg hist i with
                 | Some r => h_gurd_rain r
                 | None => 0%Q
                 end) (seq 1 7);
     out_rows := [] |}.

Definition main (w : World) : result World :=
  df_local ← load_local_forecast w;
  df_up ← load_upstream_forecast w;
  df_river ← load_river_preds w;
  let df := merged df_river df_local df_up in
  let hist := read_hist w in
  loaded ← load_model_and_feats w;
  let st := foldl (step (use_model loaded) (pred_river_map df_river)
                        (last_river hist))
                  (initial_state hist) df in
  Ok (write_flood_forecast w (out_rows st)).

End stage.
End predict_flood.

(** ** combine.py: the two prediction steps, stopping at the first failure *)

Section pipeline.
Context {ext : Externals}.

(** The world a run leaves behind, and the exception that stopped it. *)
Definition run_stages (w : World) : World * option exn :=
  match predict_river_level.main w with
  | Raise e => (w, Some e)
  | Ok w1 =>
    match predict_flood.main w1 with
    | Raise e => (w1, Some e)
    | Ok w2 => (w2, None)
    end
  end.

End pipeline.

(** ** Vocabulary of the properties *)

(** The four risk classes. *)
Definition RiskClasses : list string := ["No"; "Low"; "Moderate"; "High"].

(** A lag buffer after pushing the values [vs], first to last. *)
Definition push_all (vs : list Q) (buffer : list Q) : list Q :=
  foldl (λ b v, push v b) buffer vs.

(** The heuristic river level as the specification words it: the baseline
    is the base only on the first step of a run without river-level history,
    otherwise the base is the last predicted level. *)
Definition spec_heuristic_level (has_history : bool) (k : nat)
    (lastPredictedLevel roll_3 today_rain : Q) : Q :=
  let base := if (k =? 0)%nat && negb has_history
              then 349.5%Q else lastPredictedLevel in
  (0.6 * (base + 0.12 * roll_3 + 0.02 * today_rain) + 0.4 * lastPredictedLevel)%Q.

(** The last known historical river level, as the specification words the
    fallback of the river lag: the level of the latest row that has one. *)
Definition spec_last_known_level (hist : list HistRow) : option Q :=
  last (omap h_river_level hist).

(** The history has a last row with a river level. *)
Definition has_river_history (w : World) : bool :=
  match last (read_hist w) ≫= h_river_level with
  | Some _ => true
  | None => false
  end.

(** The row the flood heuristic is specified to emit for a day of the merged
    frame: the clipped weighted sum of the day's rains and of the excess of
    the day's predicted level over 349.5. *)
Definition heuristic_row {ext : Externals} (m : predict_flood.MergedRow) : ForecastRow :=
  let prob :=
    np_clip (0.08 * predict_flood.m_local_rain m
             + 0.06 * predict_flood.m_upstream_rain m
             + 0.003 * py_max 0 (predict_flood.m_pred_river_level m - 349.5))%Q
            0 1 in
  {| date := predict_flood.m_date m;
     local_rain := predict_flood.m_local_rain m;
     upstream_rain := predict_flood.m_upstream_rain m;
     out_pred_river_level := predict_flood.m_pred_river_level m;
     flood_probability := prob;
     flood_probability_pct := format_pct prob;
     risk_class := predict_flood.classify_prob prob |}.

(** ** An executable instance of the library functions

    Used to run the stages on the sample inputs below; every property is
    proved for all instances. *)

(** Slope and intercept of the least-squares line through the points; the
    minimum-norm solution when all abscissas coincide. *)
Definition lstsq_line (pts : list (Q * Q)) : Q * Q :=
  let n := inject_Z (Z.of_nat (length pts)) in
  let sx := py_sum (map fst pts) in
  let sy := py_sum (map snd pts) in
  let sxx := py_sum (map (λ p, p.1 * p.1)%Q pts) in
  let sxy := py_sum (map (λ p, p.1 * p.2)%Q pts) in
  let den := (n * sxx - sx * sx)%Q in
  if Qeq_dec n 0 then (0, 0)%Q
  else if Qeq_dec den 0 then
    let c := (sx / n)%Q in
    let ybar := (sy / n)%Q in
    (c * ybar / (c * c + 1), ybar / (c * c + 1))%Q
  else ((n * sxy - sx * sy) / den, (sy * sxx - sx * sxy) / den)%Q.

(** Month and day of the year of a day number counted from 1970-01-01, in
    the proleptic Gregorian calendar. *)
Definition civil (day : Z) : Z * Z :=
  let z := (day + 719468)%Z in
  let era := (z / 146097)%Z in
  let doe := (z mod 146097)%Z in
  let yoe := ((doe - doe / 1460 + doe / 36524 - doe / 146096) / 365)%Z in
  let doy_mar := (doe - (365 * yoe + yoe / 4 - yoe / 100))%Z in
  let mp := ((5 * doy_mar + 2) / 153)%Z in
  let m := (if mp <? 10 then mp + 3 else mp - 9)%Z in
  let y := (yoe + era * 400 + (if m <=? 2 then 1 else 0))%Z in
  let leap := ((y mod 4 =? 0) && (negb (y mod 100 =? 0) || (y mod 400 =? 0)))%Z in
  let doy := (if 3 <=? m then doy_mar + 60 + (if leap then 1 else 0)
              else doy_mar - 305)%Z in
  (m, doy).

(** One decimal of the percentage, rounded to nearest, with a percent sign. *)
Definition percent_text (prob : Q) : string :=
  let tenths := Qfloor (prob * 1000 + (1 # 2))%Q in
  (if (tenths <? 0)%Z then "-" else "")
  +:+ pretty (Z.abs tenths / 10)%Z +:+ "." +:+ pretty (Z.abs tenths mod 10)%Z +:+ "%".

Definition reference_externals : Externals :=
  {| np_linalg_lstsq := lstsq_line;
     Timestamp_month := λ d, (civil d).1;
     Timestamp_dayofyear := λ d, (civil d).2;
     format_pct := percent_text |}.

(** ** Sample inputs *)

(** A working directory without model artifacts and without outputs. *)
Definition heuristic_world (hist : option (list HistRow))
    (local up : option (list FcRow)) : World :=
  {| cleaned_data := hist;
     forecast_rainfall := local;
     upstream_forecast_gfs := up;
     river_model := Missing;
     river_feature_order := Missing;
     flood_model := Missing;
     flood_feature_order := Missing;
     predicted_river_level := None;
     flood_forecast := None;
     utc_today := 20000 |}.

(** Forecast rows of the given rains on consecutive days from [start]. *)
Definition daily (start : Z) (rains : list Q) : list FcRow :=
  imap (λ i r, {| fc_date := start + Z.of_nat i; fc_rain := r |}) rains.

(** A history whose gauge reads 0.0 on its last day. *)
Definition zero_gauge_world : World :=
  heuristic_world
    (Some [{| h_date := 19999; h_upstream_rain := 0; h_gurd_rain := 0;
              h_river_level := Some 0%Q |}])
    (Some (daily 20000 [0; 0; 0; 0; 0]%Q))
    (Some (daily 20000 [0; 0; 0; 0; 0]%Q)).

(** A history ending at level 350.0 with upstream rain 2.0, five dry days
    forecast. *)
Definition dry_spell_world : World :=
  heuristic_world
    (Some [{| h_date := 19999; h_upstream_rain := 2; h_gurd_rain := 1;
              h_river_level := Some 350%Q |}])
    (Some (daily 20000 [0; 0; 0; 0; 0]%Q))
    (Some (daily 20000 [0; 0; 0; 0; 0]%Q)).

(** A gauge below its datum: the first heuristic step lands on level 0. *)
Definition negative_gauge_world : World :=
  heuristic_world
    (Some [{| h_date := 19999; h_upstream_rain := 0; h_gurd_rain := 0;
              h_river_level := Some (-0.84)%Q |}])
    (Some (daily 20000 [0; 0; 0; 0; 0]%Q))
    (Some (daily 20000 [10; 0; 0; 0; 0]%Q)).

(** A history ending at the baseline level 349.5 with upstream rain 2.0,
    five dry days forecast. *)
Definition baseline_world : World :=
  heuristic_world
    (Some [{| h_date := 19999; h_upstream_rain := 2; h_gurd_rain := 1;
              h_river_level := Some 349.5%Q |}])
    (Some (daily 20000 [0; 0; 0; 0; 0]%Q))
    (Some (daily 20000 [0; 0; 0; 0; 0]%Q)).

(** The dry spell after stage 1 has written its levels. *)
Definition dry_spell_after_stage1 : World :=
  match predict_river_level.main (ext := reference_externals) dry_spell_world with
  | Ok w1 => w1
  | Raise _ => dry_spell_world
  end.





(** A gauge that read 350.0 two days ago and nothing on the last day. *)
Definition gauge_gap_world : World :=
  heuristic_world
    (Some [{| h_date := 19998; h_upstream_rain := 2; h_gurd_rain := 1;
              h_river_level := Some 350%Q |};
           {| h_date := 19999; h_upstream_rain := 0; h_gurd_rain := 0;
              h_river_level := None |}])
    (Some (daily 20000 [0; 0; 0; 0; 0]%Q))
    (Some (daily 20000 [0; 0; 0; 0; 0]%Q)).

(** The gauge gap after stage 1 has written its levels. *)
Definition gauge_gap_after_stage1 : World :=
  match predict_river_level.main (ext := reference_externals) gauge_gap_world with
  | Ok w1 => w1
  | Raise _ => gauge_gap_world
  end.

(** Both forecasts on disk, no historical table. *)
Definition no_history_world : World :=
  heuristic_world None
    (Some (daily 20000 [1; 0; 0; 2; 0]%Q))
    (Some (daily 20000 [3; 0; 1; 0; 0]%Q)).

(** History and upstream forecast on disk, no local forecast. *)
Definition no_local_forecast_world : World :=
  heuristic_world (cleaned_data dry_spell_world) None
    (Some (daily 20000 [3; 0; 1; 0; 0]%Q)).



(** ** Further vocabulary *)

(** The place of a risk class on the scale No < Low < Moderate < High. *)
Definition class_rank (c : string) : nat :=
  if decide (c = "No") then 0
  else if decide (c = "Low") then 1
  else if decide (c = "Moderate") then 2
  else 3.

(** The names stage 1 puts in its feature dict. *)
Definition river_feature_names : list string :=
  ["up_lag_1"; "up_lag_2"; "up_lag_3"; "up_lag_4"; "up_lag_5"; "up_lag_6";
   "up_lag_7"; "up_roll_3"; "up_roll_5"; "up_roll_7"; "river_lag_1"; "month";
   "doy"].

(** The names stage 2 puts in its feature dict. *)
Definition flood_feature_names : list string :=
  ["up_lag_1"; "up_lag_2"; "up_lag_3"; "up_lag_4"; "up_lag_5"; "up_lag_6";
   "up_lag_7"; "local_lag_1"; "local_lag_2"; "local_lag_3"; "local_lag_4";
   "local_lag_5"; "local_lag_6"; "local_lag_7"; "up_roll_3"; "up_roll_5";
   "up_roll_7"; "local_roll_3"; "local_roll_5"; "local_roll_7"; "river_lag_1";
   "river_present"; "month"; "doy"].

(** ** flood_detector/combine.py: the step runner *)

Module combine.

Definition STEPS : list string :=
  ["python data_prep.py";
   "python train_river_model.py";
   "python train_flood_model.py";
   "python forecast_rainfall.py";
   "python forecast_gfs_upstream.py";
   "python predict_river_level.py";
   "python predict_flood.py";
   "python final_flood_dashboard.py"].

Section runner.
(** The machine a run changes, and [subprocess.run(cmd, shell=True)] on it:
    the machine after the command and the command's return code. *)
Context {S : Type} (subprocess_run : string → S → S * Z).

(** The process while it runs: the machine, the lines printed so far, and
    the argument of [sys.exit] once it has been called. *)
Record Process : Type := {
  machine : S;
  stdout : list string;
  exited : option Z
}.

Definition run (cmd : string) (p : Process) : Process :=
  let out := (stdout p ++ [""; "--- Running: " +:+ cmd])%list in
  let '(s, returncode) := subprocess_run cmd (machine p) in
  if decide (returncode ≠ 0%Z) then
    {| machine := s;
       stdout := (out ++ ["--- Step failed: " +:+ cmd])%list;
       exited := Some returncode |}
  else
    {| machine := s;
       stdout := (out ++ ["--- Finished: " +:+ cmd])%list;
       exited := None |}.

(** [for cmd in cmds: run(cmd)]: nothing runs once [sys.exit] was called. *)
Fixpoint run_each (cmds : list string) (p : Process) : Process :=
  match cmds with
  | [] => p
  | cmd :: rest =>
    let p' := run cmd p in
    match exited p' with
    | Some _ => p'
    | None => run_each rest p'
    end
  end.

Definition main (s : S) : Process :=
  let p := run_each STEPS {| machine := s; stdout := []; exited := None |} in
  match exited p with
  | Some _ => p
  | None =>
    {| machine := machine p;
       stdout := (stdout p ++ [""; "All steps completed successfully."])%list;
       exited := None |}
  end.

End runner.

(** A stage script as a command: an uncaught exception ends the interpreter
    with status 1 before the stage has written anything. *)
Definition stage_process (stage : World → result World) (w : World) : World * Z :=
  match stage w with
  | Ok w' => (w', 0%Z)
  | Raise _ => (w, 1%Z)
  end.

End combine.

(** The machine after the commands [cmds] ran one after the other. *)
Definition machine_after {S} (subprocess_run : string → S → S * Z) (s : S)
    (cmds : list string) : S :=
  foldl (λ s cmd, (subprocess_run cmd s).1) s cmds.

(** Every command of [cmds], run in turn from [s], returns code 0. *)
Definition all_succeed {S} (subprocess_run : string → S → S * Z) (s : S)
    (cmds : list string) : Prop :=
  ∀ i cmd, cmds !! i = Some cmd →
    (subprocess_run cmd (machine_after subprocess_run s (take i cmds))).2 = 0%Z.

(** The lines [combine.run] prints around a command that succeeds. *)
Definition banner (cmd : string) : list string :=
  [""; "--- Running: " +:+ cmd; "--- Finished: " +:+ cmd].

(** ** run_model.py: the orchestrator of the three pipelines *)

Module run_model.

(** [l.index(x)]: the first place of [x], or [None] for [ValueError]. *)
Fixpoint py_index (x : string) (l : list string) : option nat :=
  match l with
  | [] => None
  | y :: l => if decide (x = y) then Some 0%nat else S <$> py_index x l
  end.

(** The parsed command line.  [--steps] and [--skip] take one or more names
    and [--start-at] one name, all among the keys of [pipeline_steps]. *)
Record Args : Type := {
  steps : option (list string);
  skip : option (list string);
  start_at : option string;
  list_steps : bool
}.

(** How [subprocess.run(..., check=True)] ends: normally, or with one of the
    exceptions [run_step] catches. *)
Inductive Outcome : Type :=
  | Completed
  | FileNotFound
  | CalledProcessError (returncode : Z) (stderr : string)
  | OtherException (message : string).

Inductive Level : Type := INFO | ERROR.

(** The line feed after the words Error output. *)
Definition newline : string := String (Ascii.ascii_of_nat 10) "".

Section orchestrator.
(** The three working directories, and [subprocess.run] of a script in a
    directory. *)
Context (CSV_GENERATOR_PATH FLOOD_DETECTOR_PATH FLOOD_MAPPER_PATH : string).
Context {S : Type} (subprocess_run : string → string → S → S * Outcome).

(** The dict [pipeline_steps], in insertion order. *)
Definition pipeline_steps : list (string * (string * string * string)) :=
  [("csv_generator", ("generator.py", CSV_GENERATOR_PATH, "CSV Generator"));
   ("flood_detector", ("combine.py", FLOOD_DETECTOR_PATH, "Flood Detector Model Suite"));
   ("flood_mapper", ("run_analysis.py", FLOOD_MAPPER_PATH, "Flood Mapper Analysis"))].

Definition keys : list string := map fst pipeline_steps.

(** The steps [main] will run.  A step of the list is always a key, so the
    [index] call on it inside the comprehension cannot raise. *)
Definition steps_to_run (args : Args) : list string :=
  let selected := keys in
  let selected :=
    match steps args with
    | Some (s :: sel) => filter (λ step, step ∈ s :: sel) selected
    | _ => selected
    end in
  let selected :=
    match skip args with
    | Some (s :: sk) => filter (λ step, step ∉ s :: sk) selected
    | _ => selected
    end in
  match start_at args with
  | Some name =>
    if decide (name = "") then selected
    else
      match py_index name keys with
      | Some start_index =>
        filter (λ step, (start_index ≤ default 0 (py_index step keys))%nat) selected
      | None => selected (* ValueError: ignored *)
      end
  | None => selected
  end.

Record Process : Type := {
  machine : S;
  log : list (Level * string);
  stdout : list string;
  exited : option Z
}.

Definition logging (level : Level) (message : string) (p : Process) : Process :=
  {| machine := machine p;
     log := (log p ++ [(level, message)])%list;
     stdout := stdout p;
     exited := exited p |}.

Definition sys_exit (code : Z) (p : Process) : Process :=
  {| machine := machine p; log := log p; stdout := stdout p; exited := Some code |}.

Definition run_step (script_name working_dir step_description : string)
    (p : Process) : Process :=
  let p := logging INFO ("--- Running Step: " +:+ step_description +:+ " ---") p in
  let '(s, outcome) := subprocess_run script_name working_dir (machine p) in
  let p := {| machine := s; log := log p; stdout := stdout p; exited := exited p |} in
  match outcome with
  | Completed => logging INFO ("Successfully completed: " +:+ step_description) p
  | FileNotFound =>
    sys_exit 1 (logging ERROR ("Script '" +:+ script_name +:+ "' not found in '"
                               +:+ working_dir +:+ "'. Aborting.") p)
  | CalledProcessError returncode stderr =>
    sys_exit 1
      (logging ERROR ("Error output:" +:+ newline +:+ stderr)
         (logging ERROR ("Step '" +:+ step_description +:+ "' failed with exit code "
                         +:+ pretty returncode +:+ ".") p))
  | OtherException message =>
    sys_exit 1 (logging ERROR ("An unexpected error occurred during '"
                               +:+ step_description +:+ "': " +:+ message) p)
  end.

(** The loop of [main] over the selected steps: each step's script, path and
    description are looked up in [pipeline_steps] and given to [run_step]. *)
Fixpoint run_steps (names : list string) (p : Process) : Process :=
  match names with
  | [] => p
  | step_name :: rest =>
    match (λ found, found.2.2) <$> list_find (λ kv, kv.1 = step_name) pipeline_steps with
    | Some (script, path, description) =>
      let p' := run_step script path description p in
      match exited p' with
      | Some _ => p'
      | None => run_steps rest p'
      end
    | None => sys_exit 1 p (* KeyError, uncaught *)
    end
  end.

Definition main (args : Args) (s : S) : Process :=
  let p := {| machine := s; log := []; stdout := []; exited := None |} in
  if list_steps args then
    sys_exit 0
      {| machine := s; log := [];
         stdout := "Available pipeline steps:"
                   :: map (λ kv, "  - " +:+ kv.1 +:+ ": " +:+ kv.2.2) pipeline_steps;
         exited := None |}
  else
    let p := logging INFO ">>> Starting Full Model Pipeline Execution <<<" p in
    let p := run_steps (steps_to_run args) p in
    match exited p with
    | Some _ => p
    | None => logging INFO ">>> All pipeline steps completed successfully! <<<" p
    end.

End orchestrator.
End run_model.

(** Vocabulary for the runs of [run_model.main]. *)
Section run_model_vocabulary.
Context (P1 P2 P3 : string).
Context {S : Type} (subprocess_run : string → string → S → S * run_model.Outcome).

(** The entry of [pipeline_steps] under a key. *)
Definition step_entry (name : string) : option (string * string * string) :=
  (λ found, found.2.2)
    <$> list_find (λ kv, kv.1 = name) (run_model.pipeline_steps P1 P2 P3).

(** The subprocess of a step, started on the machine [s]. *)
Definition step_run (name : string) (s : S) : option (S * run_model.Outcome) :=
  (λ '(script, path, _), subprocess_run script path s) <$> step_entry name.

(** The machine after the subprocesses of [names] ran one after the other. *)
Definition machine_after_steps (s : S) (names : list string) : option S :=
  foldl (λ machine name, machine ≫= λ s, fst <$> step_run name s) (Some s) names.

(** Every step of [names], run in turn from [s], completes. *)
Definition steps_complete (s : S) (names : list string) : Prop :=
  ∀ i name, names !! i = Some name →
    ∃ s0 s1, machine_after_steps s (take i names) = Some s0 ∧
             step_run name s0 = Some (s1, run_model.Completed).

(** The two records [run_step] logs around a step that completes. *)
Definition step_log (name : string) : list (run_model.Level * string) :=
  match step_entry name with
  | Some (_, _, step_description) =>
    [(run_model.INFO, "--- Running Step: " +:+ step_description +:+ " ---");
     (run_model.INFO, "Successfully completed: " +:+ step_description)]
  | None => []
  end.

End run_model_vocabulary.

(** ** The two forecast fetchers *)

(** The object under the key daily of an Open-Meteo answer, as far as the
    fetchers look at it: the lists under time and precipitation_sum, either
    of which may be absent.  The entries of time are dates and those of
    precipitation_sum are numbers. *)
Record Daily : Type := {
  time : option (list Z);
  precipitation_sum : option (list Q)
}.

(** [requests.get], [raise_for_status] and [json]: the exception raised on
    the way, or the parsed answer with its entry under daily, if any. *)
Inductive Response : Type :=
  | RequestException (message : string)
  | Json (daily : option Daily).

(** [pd.DataFrame({..: times, ..: prec})]: [None] for the [ValueError] raised
    when the two arrays differ in length. *)
Definition DataFrame (times : list Z) (prec : list Q) : option (list FcRow) :=
  if decide (length times = length prec)
  then Some (zip_with (λ d r, {| fc_date := d; fc_rain := r |}) times prec)
  else None.

(** *** forecast_rainfall.py *)

Module forecast_rainfall.

Definition FORECAST_DAYS : nat := 5.

(** [json_resp.get("daily", {})], then [get] with default [[]] on it. *)
Definition build_local_df_from_api (json_resp : option Daily) : option (list FcRow) :=
  let times := default [] (json_resp ≫= time) in
  let prec := default [] (json_resp ≫= precipitation_sum) in
  DataFrame times prec.

Definition fallback_zero_forecast (w : World) (days : nat) (start : option Z)
  : list FcRow :=
  let start := default (utc_today w) start in
  map (λ i, {| fc_date := start + Z.of_nat i; fc_rain := 0 |}) (seq 0 days).

Definition write_out (w : World) (df : list FcRow) : World :=
  {| cleaned_data := cleaned_data w;
     forecast_rainfall := Some df;
     upstream_forecast_gfs := upstream_forecast_gfs w;
     river_model := river_model w;
     river_feature_order := river_feature_order w;
     flood_model := flood_model w;
     flood_feature_order := flood_feature_order w;
     predicted_river_level := predicted_river_level w;
     flood_forecast := flood_forecast w;
     utc_today := utc_today w |}.

(** [try: fetch, build; except Exception: fallback], then [write_out].  Both
    frames have the columns Date and Rainfall, so the renaming before the
    write does nothing. *)
Definition main (resp : Response) (w : World) : World :=
  let df :=
    match resp with
    | Json daily =>
      match build_local_df_from_api daily with
      | Some df => df
      | None => fallback_zero_forecast w FORECAST_DAYS None
      end
    | RequestException _ => fallback_zero_forecast w FORECAST_DAYS None
    end in
  write_out w df.

End forecast_rainfall.

(** *** forecast_gfs_upstream.py *)

Module forecast_gfs_upstream.

Inductive Exception : Type :=
  | RequestFailed (message : string)
  | KeyError (key : string)
  | ValueError.

Definition write_out (w : World) (df : list FcRow) : World :=
  {| cleaned_data := cleaned_data w;
     forecast_rainfall := forecast_rainfall w;
     upstream_forecast_gfs := Some df;
     river_model := river_model w;
     river_feature_order := river_feature_order w;
     flood_model := flood_model w;
     flood_feature_order := flood_feature_order w;
     predicted_river_level := predicted_river_level w;
     flood_forecast := flood_forecast w;
     utc_today := utc_today w |}.

(** No [try]: the first exception ends the script before the write. *)
Definition main (resp : Response) (w : World) : World + Exception :=
  match resp with
  | RequestException message => inr (RequestFailed message)
  | Json None => inr (KeyError "daily")
  | Json (Some daily) =>
    match time daily with
    | None => inr (KeyError "time")
    | Some times =>
      match precipitation_sum daily with
      | None => inr (KeyError "precipitation_sum")
      | Some prec =>
        match DataFrame times prec with
        | None => inr ValueError
        | Some df => inl (write_out w df)
        end
      end
    end
  end.

(** The script as a command: status 0 after the write, status 1 and an
    untouched directory after an exception. *)
Definition process (resp : Response) (w : World) : World * Z :=
  match main resp w with
  | inl w' => (w', 0%Z)
  | inr _ => (w, 1%Z)
  end.

End forecast_gfs_upstream.

(** ** final_flood_dashboard.py

    The dashboard is started in its own directory, the one of the stages. *)

Module final_flood_dashboard.

Definition OUT : string := "flood_forecast.csv".

(** What [show_plots_and_map] puts on the map: the class of the latest day,
    the colour of the marker and the text beside it; and the class column the
    plots are drawn from. *)
Record Map : Type := {
  classes : list string;
  risk : string;
  marker : string;
  text : string
}.

Inductive Exception : Type :=
  | RuntimeError (message : string)
  | Uncaught (e : exn).

Definition classify (p : Q) : string :=
  if Qlt_le_dec p 0.10 then "No"
  else if Qlt_le_dec p 0.30 then "Low"
  else if Qlt_le_dec p 0.60 then "Moderate"
  else "High".

Definition color_map : gmap string string :=
  <["High" := "red"]> (<["Moderate" := "orange"]> (<["Low" := "yellow"]>
    (<["No" := "green"]> ∅))).

Definition required : list string :=
  ["forecast_rainfall.csv"; "upstream_forecast_gfs.csv";
   "predicted_river_level.csv"; "flood_forecast.csv"].

(** [os.path.exists] on a table of the directory. *)
Definition os_path_exists (w : World) (p : string) : bool :=
  if decide (p = "forecast_rainfall.csv") then bool_decide (is_Some (forecast_rainfall w))
  else if decide (p = "upstream_forecast_gfs.csv")
       then bool_decide (is_Some (upstream_forecast_gfs w))
  else if decide (p = "predicted_river_level.csv")
       then bool_decide (is_Some (predicted_river_level w))
  else if decide (p = "flood_forecast.csv") then bool_decide (is_Some (flood_forecast w))
  else false.

(** The table is sorted by date and its class column is computed again from
    the probabilities; the marker shows the class of the last row.  A file
    that stage 2 wrote without rows has no columns and is rejected by
    [read_csv].  The three charts drawn before the map are not represented;
    for the second of them the source reads upstream_forecast_gfs.csv again,
    with [parse_dates=["date"]] and the column [upstream_rain], and raises
    on a table under other headers: [Ok] is a call that drew its charts. *)
Definition show_plots_and_map (w : World) : result Map :=
  match flood_forecast w with
  | None => Raise (FileNotFoundError OUT)
  | Some rows =>
    let df := sort_values date rows in
    let risk_class := map (λ r, classify (flood_probability r)) df in
    match last risk_class with
    | None => Raise (ReadCsvError OUT)
    | Some risk =>
      Ok {| classes := risk_class;
            risk := risk;
            marker := default "gray" (color_map !! risk);
            text := "Gurdaspur: " +:+ risk |}
    end
  end.

Section dashboard.
Context (SCRIPT_DIR : string).
Context (subprocess_run : string → World → World * Z).

(** The directory after the check, and the [RuntimeError] if combine.py was
    run and failed. *)
Definition ensure_core_outputs (w : World) : World * option Exception :=
  let missing := filter (λ p, ¬ os_path_exists w p) required in
  match missing with
  | [] => (w, None)
  | _ =>
    let combine_script := "combine.py" in
    let combine_path := SCRIPT_DIR +:+ "/" +:+ combine_script in
    let '(w', returncode) := subprocess_run ("python " +:+ combine_path) w in
    if decide (returncode ≠ 0%Z)
    then (w', Some (RuntimeError (combine_script +:+ " failed; fix errors first.")))
    else (w', None)
  end.

Definition main (w : World) : World * (Map + Exception) :=
  match ensure_core_outputs w with
  | (w', Some e) => (w', inr e)
  | (w', None) =>
    match show_plots_and_map w' with
    | Ok shown => (w', inl shown)
    | Raise e => (w', inr (Uncaught e))
    end
  end.

End dashboard.
End final_flood_dashboard.

(** ** The column names the loaders accept

    [read_csv] gives a table whose column names are distinct.  The loaders
    rename columns and then select by name; what follows keeps, for a list
    of column names, the place in the file of the column each selection
    takes. *)

(** What a selection takes: one column of the file, several columns (a name
    borne by more than one column selects a frame), or a constant [0.0]. *)
Inductive Source : Type :=
  | Series (i : nat)
  | Several (places : list nat)
  | Zeros.

(** [df.rename(columns={old: new})] *)
Definition rename (old new : string) (columns : list string) : list string :=
  map (λ c, if decide (c = old) then new else c) columns.

(** [df[name]]: [None] for [KeyError]. *)
Definition getitem (columns : list string) (name : string) : option Source :=
  match filter (λ i, columns !! i = Some name) (seq 0 (length columns)) with
  | [] => None
  | [i] => Some (Series i)
  | places => Some (Several places)
  end.

(** The first of [names] that is a column. *)
Definition first_in (names columns : list string) : option string :=
  snd <$> list_find (λ c, c ∈ columns) names.

(** [[c for c in df.columns if c != "date"]] *)
Definition others (columns : list string) : list string :=
  filter (λ c, c ≠ "date") columns.

Module predict_river_level_columns.

Definition date_col_candidates : list string := ["date"; "Date"; "datetime"].

(** The column names after [safe_read_csv_dates]; [None] for the
    [IndexError] of a table without columns. *)
Definition safe_read_csv_dates (columns : list string)
    (date_col_candidates : list string) : option (list string) :=
  match first_in date_col_candidates columns with
  | Some c => Some (rename c "date" columns)
  | None =>
    match columns with
    | c0 :: _ => Some (rename c0 "date" columns)
    | [] => None
    end
  end.

(** The first branch of [load_upstream_forecast]: the date and rain columns
    of upstream_forecast_gfs.csv. *)
Definition upstream_columns (columns : list string) : option (Source * Source) :=
  columns ← safe_read_csv_dates columns date_col_candidates;
  if decide ("upstream_rain" ∉ columns) then
    match others columns with
    | c :: _ =>
      let columns := rename c "upstream_rain" columns in
      date ← getitem columns "date";
      rain ← getitem columns "upstream_rain";
      Some (date, rain)
    | [] =>
      date ← getitem columns "date";
      Some (date, Zeros)
    end
  else
    date ← getitem columns "date";
    rain ← getitem columns "upstream_rain";
    Some (date, rain).

(** The second branch: the date and rain columns of forecast_rainfall.csv
    that the proxy is computed from. *)
Definition local_columns (columns : list string) : option (Source * Source) :=
  columns ← safe_read_csv_dates columns date_col_candidates;
  let columns := if decide ("Rainfall" ∈ columns)
                 then rename "Rainfall" "local_rain" columns else columns in
  if decide ("local_rain" ∉ columns) then
    match others columns with
    | c :: _ =>
      let columns := rename c "local_rain" columns in
      date ← getitem columns "date";
      rain ← getitem columns "local_rain";
      Some (date, rain)
    | [] =>
      date ← getitem columns "date";
      Some (date, Zeros)
    end
  else
    date ← getitem columns "date";
    rain ← getitem columns "local_rain";
    Some (date, rain).

End predict_river_level_columns.

Module predict_flood_columns.

(** The date and rain columns [load_local_forecast] returns; [None] for the
    [KeyError] of [df["date"]]. *)
Definition load_local_forecast (columns : list string) : option (Source * Source) :=
  let columns := if decide ("Date" ∈ columns ∧ "date" ∉ columns)
                 then rename "Date" "date" columns else columns in
  let columns := if decide ("Rainfall" ∈ columns ∧ "local_rain" ∉ columns)
                 then rename "Rainfall" "local_rain" columns else columns in
  let columns := if decide ("gurd_rain" ∈ columns ∧ "local_rain" ∉ columns)
                 then rename "gurd_rain" "local_rain" columns else columns in
  date ← getitem columns "date";
  if decide ("local_rain" ∉ columns) then
    match others columns with
    | c :: _ => (rain ← getitem columns c; Some (date, rain))
    | [] => Some (date, Zeros)
    end
  else
    rain ← getitem columns "local_rain";
    Some (date, rain).

(** The same for the first branch of [load_upstream_forecast]. *)
Definition load_upstream_forecast (columns : list string) : option (Source * Source) :=
  let columns := if decide (("date" ∉ columns) ∧ "Date" ∈ columns)
                 then rename "Date" "date" columns else columns in
  date ← getitem columns "date";
  if decide ("upstream_rain" ∉ columns) then
    match others columns with
    | c :: _ => (rain ← getitem columns c; Some (date, rain))
    | [] => Some (date, Zeros)
    end
  else
    rain ← getitem columns "upstream_rain";
    Some (date, rain).

End predict_flood_columns.

(** The place of the column of a name, [columns.get_loc(name)]. *)
Definition get_loc (name : string) (columns : list string) : option nat :=
  run_model.py_index name columns.

(** Column resolution by priority: the date column is the column of the
    first of [date_names] that is a column, or else the first column if
    [first_column] is set; the rain column is, among the other columns, the
    column of the first of [rain_names] that is one of them, or else the
    first of them; without other columns the rain is the constant 0.0. *)
Definition resolve (date_names : list string) (first_column : bool)
    (rain_names : list string) (columns : list string) : option (Source * Source) :=
  d ← match first_in date_names columns with
      | Some d => Some d
      | None => if first_column then head columns else None
      end;
  i ← get_loc d columns;
  let rest := filter (λ c, c ≠ d) columns in
  let rain_name := match first_in rain_names rest with
                   | Some r => Some r
                   | None => head rest
                   end in
  Some (Series i, match rain_name ≫= (λ r, get_loc r columns) with
                  | Some j => Series j
                  | None => Zeros
                  end).

(** The rain column of a table whose date column is named date: among the
    other columns, the column of the first of [rain_names], or else the
    first of them, or else the constant. *)
Definition resolve_rain (rain_names : list string) (columns : list string) : Source :=
  let rain_name := match first_in rain_names (others columns) with
                   | Some r => Some r
                   | None => head (others columns)
                   end in
  match rain_name ≫= (λ r, get_loc r columns) with
  | Some j => Series j
  | None => Zeros
  end.

(** ** The feature lists the trainers persist *)

Module train_river_model.

Definition feature_cols : list string :=
  (map (λ i : nat, "up_lag_" +:+ pretty i) (seq 1 7)
   ++ ["up_roll_3"; "up_roll_5"; "up_roll_7"; "river_lag_1"; "month"; "doy"])%list.

End train_river_model.

Module train_flood_model.

(** [sub in c] on strings. *)
Definition contains (sub c : string) : Prop := is_Some (String.index 0 sub c).

(** The list [feature_cols] for a frame with the columns [columns]: those
    of cleaned_data.csv followed by month and doy. *)
Definition feature_cols (columns : list string) : list string :=
  (filter (λ col, col ∈ columns) ["gurd_rain"; "upstream_rain"; "river_level"]
   ++ filter (λ c, contains "prev" c ∨ contains "lag" c ∨ contains "roll" c) columns)%list.

End train_flood_model.

(** ** Sample runners *)

(** A shell that knows the two prediction commands. *)
Definition stage_runner (cmd : string) (w : World) : World * Z :=
  if decide (cmd = "python predict_river_level.py")
  then combine.stage_process (predict_river_level.main (ext := reference_externals)) w
  else if decide (cmd = "python predict_flood.py")
  then combine.stage_process (predict_flood.main (ext := reference_externals)) w
  else (w, 0%Z).

(** An answer of the upstream service for five days. *)
Definition five_day_answer : Response :=
  Json (Some {| time := Some [20000; 20001; 20002; 20003; 20004]%Z;
                precipitation_sum := Some [3; 0; 1; 0; 0]%Q |}).

(** A shell in which the upstream fetch gets that answer, the two prediction
    commands are the stages and every other step succeeds without effect. *)
Definition answered_runner (cmd : string) (w : World) : World * Z :=
  if decide (cmd = "python forecast_gfs_upstream.py")
  then forecast_gfs_upstream.process five_day_answer w
  else stage_runner cmd w.

(** A shell in which every command fails. *)
Definition failing_runner (cmd : string) (w : World) : World * Z := (w, 1%Z).

(** * Properties *)

Import predict_flood.

(** Name the row at an index that is within the table. *)
Ltac row_at rows k row Hrow :=
  destruct (lookup_lt_is_Some_2 rows k) as [row Hrow]; [lia|].

(** ** RiskClassifier *)

Lemma classify_prob_cases (p : Q) :
  (p < 0.10 ∧ classify_prob p = "No")%Q ∨
  (0.10 <= p < 0.30 ∧ classify_prob p = "Low")%Q ∨
  (0.30 <= p < 0.60 ∧ classify_prob p = "Moderate")%Q ∨
  (0.60 <= p ∧ classify_prob p = "High")%Q.
Proof.
  unfold classify_prob.
  destruct (Qlt_le_dec p 0.10) as [H1|H1]; [by left|].
  destruct (Qlt_le_dec p 0.30) as [H2|H2]; [by right; left|].
  destruct (Qlt_le_dec p 0.60) as [H3|H3]; [by right; right; left|].
  by right; right; right.
Qed.

Lemma classify_prob_in_classes (p : Q) : classify_prob p ∈ RiskClasses.
Proof.
  destruct (classify_prob_cases p) as [[_ ->]|[[_ ->]|[[_ ->]|[_ ->]]]];
    unfold RiskClasses; set_solver.
Qed.

(** C1: the classifier returns No below 0.10, Low on [0.10, 0.30), Moderate
    on [0.30, 0.60) and High from 0.60 on; the three boundary values fall in
    the upper class; on [0,1] the result is one of the four classes, and it
    depends on the value of [p] only. *)
Theorem classify_prob_thresholds (p : Q) :
  ((p < 0.10)%Q → classify_prob p = "No") ∧
  ((0.10 <= p < 0.30)%Q → classify_prob p = "Low") ∧
  ((0.30 <= p < 0.60)%Q → classify_prob p = "Moderate") ∧
  ((0.60 <= p)%Q → classify_prob p = "High") ∧
  classify_prob 0.10 = "Low" ∧
  classify_prob 0.30 = "Moderate" ∧
  classify_prob 0.60 = "High" ∧
  ((0 <= p <= 1)%Q → classify_prob p ∈ RiskClasses) ∧
  (∀ q, (p == q)%Q → classify_prob p = classify_prob q).
Proof.
  repeat split; try reflexivity.
  - intros Hp. destruct (classify_prob_cases p) as [[_ Hc]|[[Hr _]|[[Hr _]|[Hr _]]]];
      [done | lra ..].
  - intros Hp. destruct (classify_prob_cases p) as [[Hr _]|[[_ Hc]|[[Hr _]|[Hr _]]]];
      [lra | done | lra ..].
  - intros Hp. destruct (classify_prob_cases p) as [[Hr _]|[[Hr _]|[[_ Hc]|[Hr _]]]];
      [lra | lra | done | lra].
  - intros Hp. destruct (classify_prob_cases p) as [[Hr _]|[[Hr _]|[[Hr _]|[_ Hc]]]];
      [lra | lra | lra | done].
  - intros _. apply classify_prob_in_classes.
  - intros q Hq.
    destruct (classify_prob_cases p) as [[Hp ->]|[[Hp ->]|[[Hp ->]|[Hp ->]]]];
      destruct (classify_prob_cases q) as [[Hr Hc]|[[Hr Hc]|[[Hr Hc]|[Hr Hc]]]];
      first [by rewrite Hc | lra].
Qed.

(** C10: the classifier is defined on every rational, inside [0,1] or not;
    a negative input is classified No and an input above 1 High. *)
Theorem classify_prob_total (p : Q) :
  (∃ c, classify_prob p = c ∧ c ∈ RiskClasses) ∧
  ((p < 0)%Q → classify_prob p = "No") ∧
  ((1 < p)%Q → classify_prob p = "High").
Proof.
  split; [eexists; split; [reflexivity | apply classify_prob_in_classes] |].
  split; intros Hp.
  - destruct (classify_prob_cases p) as [[_ Hc]|[[Hr _]|[[Hr _]|[Hr _]]]];
      [done | lra ..].
  - destruct (classify_prob_cases p) as [[Hr _]|[[Hr _]|[[Hr _]|[_ Hc]]]];
      [lra | lra | lra | done].
Qed.

Lemma classify_prob_thresholds_witness :
  classify_prob 0.05 = "No" ∧ classify_prob 0.2 = "Low" ∧
  classify_prob 0.45 = "Moderate" ∧ classify_prob 0.9 = "High".
Proof.
  destruct (classify_prob_thresholds 0.05) as (H1 & _).
  destruct (classify_prob_thresholds 0.2) as (_ & H2 & _).
  destruct (classify_prob_thresholds 0.45) as (_ & _ & H3 & _).
  destruct (classify_prob_thresholds 0.9) as (_ & _ & _ & H4 & _).
  split; [apply H1; reflexivity|]. split; [apply H2; split; by vm_compute|].
  split; [apply H3; split; by vm_compute|]. apply H4. by vm_compute.
Defined.

Lemma classify_prob_total_witness :
  classify_prob (-3) = "No" ∧ classify_prob 7 = "High".
Proof.
  destruct (classify_prob_total (-3)) as (_ & Hneg & _).
  destruct (classify_prob_total 7) as (_ & _ & Hbig).
  split; [apply Hneg; reflexivity | apply Hbig; reflexivity].
Defined.

(** ** LagBufferEngine *)

Lemma removelast_snoc {A} (l : list A) (x : A) : removelast (l ++ [x]) = l.
Proof. apply removelast_last. Qed.

Lemma length_removelast {A} (l : list A) : length (removelast l) = pred (length l).
Proof.
  induction l as [|x [|y l] IH]; [done | done |].
  change (removelast (x :: y :: l)) with (x :: removelast (y :: l)).
  cbn [length] in *. by rewrite IH.
Qed.

Lemma push_length (v : Q) (buffer : list Q) :
  buffer ≠ [] → length (push v buffer) = length buffer.
Proof.
  intros Hne. unfold push. cbn [length]. rewrite length_removelast.
  destruct buffer; [done | reflexivity].
Qed.

Lemma removelast_take {A} (l : list A) :
  removelast l = take (pred (length l)) l.
Proof.
  induction l as [|x [|y l] IH]; [done | done |].
  change (removelast (x :: y :: l)) with (x :: removelast (y :: l)).
  rewrite IH. reflexivity.
Qed.

(** Pushing keeps the newest [length buffer] values, newest first. *)
Lemma push_all_take (vs buffer : list Q) :
  buffer ≠ [] →
  push_all vs buffer = take (length buffer) (reverse vs ++ buffer).
Proof.
  intros Hne. revert buffer Hne.
  induction vs as [|v vs IH]; intros buffer Hne.
  - unfold push_all. cbn [foldl]. rewrite reverse_nil. cbn [app].
    by rewrite take_ge.
  - cbn [push_all foldl]. fold (push_all vs (push v buffer)).
    rewrite IH by done. rewrite push_length by done.
    rewrite reverse_cons, <- (assoc_L (++)). cbn [app].
    unfold push. rewrite removelast_take.
    destruct buffer as [|b buffer]; [done|]. cbn [length pred].
    rewrite !take_app. rewrite length_reverse.
    f_equal. 
    generalize (length buffer) as n.
    intros n. assert (S n - length vs ≤ S n)%nat as Hm by lia.
    revert Hm. generalize (S n - length vs)%nat as m.
    intros [|m] Hm; [done|]. cbn [take]. f_equal.
    rewrite take_take. f_equal. lia.
Qed.

Lemma push_all_length (vs buffer : list Q) :
  buffer ≠ [] → length (push_all vs buffer) = length buffer.
Proof.
  intros Hne. rewrite push_all_take by done.
  rewrite length_take, length_app. lia.
Qed.

Lemma lag_buffer_lengths (vs seed : list Q) :
  length seed = 7%nat → length (push_all vs seed) = 7%nat.
Proof.
  intros Hlen. rewrite push_all_length; [done|]. by intros ->.
Qed.

(** C6: a lag buffer seeded with 7 entries has 7 entries after any pushes;
    it holds the newest values first (the reversed pushes, then the seed, cut
    to 7); a push puts the new value in front and drops the last (oldest)
    entry; 7 pushes leave exactly the 7 pushed values, newest first. *)
Theorem lag_buffer_invariant (seed : list Q) :
  length seed = 7%nat →
  (∀ vs, length (push_all vs seed) = 7%nat) ∧
  (∀ vs, push_all vs seed = take 7 (reverse vs ++ seed)) ∧
  (∀ vs v, ∃ kept oldest,
      push_all vs seed = (kept ++ [oldest])%list ∧
      push_all (vs ++ [v]) seed = v :: kept) ∧
  (∀ v1 v2 v3 v4 v5 v6 v7,
      push_all [v1; v2; v3; v4; v5; v6; v7] seed = [v7; v6; v5; v4; v3; v2; v1]).
Proof.
  intros Hlen.
  assert (seed ≠ []) as Hne by (intros ->; discriminate).
  assert (∀ vs, length (push_all vs seed) = 7%nat) as Hinv.
  { intros vs. by apply lag_buffer_lengths. }
  split; [exact Hinv|]. split; [|split].
  - intros vs. rewrite push_all_take by done. by rewrite Hlen.
  - intros vs v. specialize (Hinv vs).
    destruct (push_all vs seed) as [|x l] eqn:Hbuf using rev_ind; [discriminate|].
    exists l, x. split; [reflexivity|].
    unfold push_all in *. rewrite foldl_app. cbn [foldl]. rewrite Hbuf.
    unfold push. by rewrite removelast_snoc.
  - intros v1 v2 v3 v4 v5 v6 v7. rewrite push_all_take by done.
    rewrite Hlen. reflexivity.
Qed.

Lemma lag_buffer_invariant_witness :
  length [1; 2; 3; 4; 5; 6; 7]%Q = 7%nat ∧
  push_all [8; 9]%Q [1; 2; 3; 4; 5; 6; 7]%Q = [9; 8; 1; 2; 3; 4; 5]%Q.
Proof.
  split; [reflexivity|].
  rewrite (proj1 (proj2 (lag_buffer_invariant [1; 2; 3; 4; 5; 6; 7]%Q eq_refl)) [8; 9]%Q).
  reflexivity.
Defined.

(** ** Stage 1 loop *)

Section river_loop.
Context {ext : Externals}.
Import predict_river_level.

Lemma run_loop_S (um : option (RiverModel * list string)) (w : World)
    (k : nat) (row : FcRow) :
  horizon_rows w !! k = Some row →
  run_loop um w (S k) = step um (run_loop um w k) row.
Proof.
  intros Hrow. unfold run_loop.
  by rewrite (take_S_r _ _ _ Hrow), foldl_snoc.
Qed.

Lemma run_loop_ge (um : option (RiverModel * list string)) (w : World) (k : nat) :
  (length (horizon_rows w) ≤ k)%nat →
  run_loop um w k = run_loop um w (length (horizon_rows w)).
Proof. intros Hk. unfold run_loop. by rewrite !take_ge by lia. Qed.

Lemma preds_run_loop_S um w k row :
  horizon_rows w !! k = Some row →
  preds (run_loop um w (S k)) =
    (preds (run_loop um w k) ++
     [{| p_date := fc_date row;
         pred_river_level := river_prev (run_loop um w (S k)) |}])%list.
Proof. intros Hrow. by rewrite (run_loop_S _ _ _ _ Hrow). Qed.

Lemma preds_run_loop_length um w k :
  (k ≤ length (horizon_rows w))%nat → length (preds (run_loop um w k)) = k.
Proof.
  induction k as [|k IH]; intros Hk; [done|].
  row_at (horizon_rows w) k row Hrow.
  rewrite (preds_run_loop_S _ _ _ _ Hrow), length_app, IH by lia.
  cbn. lia.
Qed.

(** The row emitted at step [k] stays at place [k] of the output. *)
Lemma preds_run_loop_lookup um w k n row :
  horizon_rows w !! k = Some row →
  (k < n)%nat →
  preds (run_loop um w n) !! k =
    Some {| p_date := fc_date row;
            pred_river_level := river_prev (run_loop um w (S k)) |}.
Proof.
  intros Hrow Hkn.
  assert (k < length (horizon_rows w))%nat as Hk by by eapply lookup_lt_Some.
  induction n as [|n IH]; [lia|].
  destruct (decide (n = k)) as [->|Hne].
  - rewrite (preds_run_loop_S _ _ _ _ Hrow).
    rewrite lookup_app_r by (rewrite preds_run_loop_length; lia).
    rewrite preds_run_loop_length by lia. by rewrite Nat.sub_diag.
  - destruct (decide (n < length (horizon_rows w))%nat) as [Hn|Hn].
    + row_at (horizon_rows w) n rown Hrown.
      rewrite (preds_run_loop_S _ _ _ _ Hrown).
      rewrite lookup_app_l by (rewrite preds_run_loop_length; lia).
      apply IH. lia.
    + rewrite run_loop_ge by lia. rewrite <- (run_loop_ge um w n) by lia.
      apply IH. lia.
Qed.

(** The upstream lag list of the loop is the seed after the pushes so far. *)
Lemma up_lags_run_loop um w k :
  up_lags (run_loop um w k) =
    push_all (map fc_rain (take k (horizon_rows w))) (up_lags (initial_state w)).
Proof.
  unfold run_loop, push_all.
  generalize (initial_state w) as st. generalize (take k (horizon_rows w)) as rows.
  induction rows as [|row rows IH]; intros st; [done|].
  cbn [foldl map]. by rewrite IH.
Qed.

Lemma up_lags_run_loop_length um w k :
  length (up_lags (run_loop um w k)) = 7%nat.
Proof. rewrite up_lags_run_loop. by apply lag_buffer_lengths. Qed.

(** Without both artifacts on disk the stage runs the heuristic loop and
    writes its rows. *)
Lemma main_heuristic (w : World) :
  river_model w = Missing ∨ river_feature_order w = Missing →
  main w = Ok (write_predicted_river_level w
                 (preds (run_loop None w (length (horizon_rows w))))).
Proof.
  intros Hmiss. unfold main, load_model_and_feats.
  destruct Hmiss as [-> | ->]; cbn; [done|].
  by rewrite andb_false_r.
Qed.

(** C3, as the code has it: in heuristic mode step [k] emits
    0.6*(base + 0.12*roll_3 + 0.02*today_rain) + 0.4*lastPredictedLevel, with
    roll_3 the 3-entry rolling sum of the lag buffer after pushing today's
    upstream rain, and the result is the next lastPredictedLevel; the base is
    the baseline 349.5 exactly when lastPredictedLevel is 0 (as on the first
    step of a run without river-level history) and lastPredictedLevel
    otherwise. *)
Theorem river_heuristic_step (w : World) (k : nat) (row : FcRow) :
  horizon_rows w !! k = Some row →
  let st := run_loop None w k in
  let lags := push (fc_rain row) (up_lags st) in
  let base := if Qeq_dec (river_prev st) 0 then 349.5%Q else river_prev st in
  let pred := (0.6 * (base + 0.12 * rollingSum lags 3 + 0.02 * fc_rain row)
               + 0.4 * river_prev st)%Q in
  preds (run_loop None w (length (horizon_rows w))) !! k =
    Some {| p_date := fc_date row; pred_river_level := pred |} ∧
  up_lags (run_loop None w (S k)) = lags ∧
  river_prev (run_loop None w (S k)) = pred ∧
  (k = 0%nat → has_river_history w = false →
     river_prev st = 0%Q ∧ base = 349.5%Q) ∧
  (¬ (river_prev st == 0)%Q → base = river_prev st) ∧
  ((river_prev st == 0)%Q → base = 349.5%Q) ∧
  (river_model w = Missing ∨ river_feature_order w = Missing →
     main w = Ok (write_predicted_river_level w
                    (preds (run_loop None w (length (horizon_rows w)))))).
Proof.
  intros Hrow st lags base pred.
  assert (k < length (horizon_rows w))%nat as Hk by by eapply lookup_lt_Some.
  assert (run_loop None w (S k) =
          {| up_lags := lags; river_prev := pred;
             preds := (preds st ++ [{| p_date := fc_date row;
                                      pred_river_level := pred |}])%list |})
    as Hstep by (by rewrite (run_loop_S _ _ _ _ Hrow)).
  split; [|split; [|split; [|split; [|split; [|split]]]]].
  - rewrite (preds_run_loop_lookup _ _ _ _ _ Hrow Hk). by rewrite Hstep.
  - by rewrite Hstep.
  - by rewrite Hstep.
  - intros -> Hhist. subst base st.
    change (run_loop None w 0) with (initial_state w).
    assert (river_prev (initial_state w) = 0%Q) as ->.
    { unfold initial_state, last_river, has_river_history in *. cbn.
      destruct (last (read_hist w)) as [r|]; [|done].
      cbn in Hhist. by destruct (h_river_level r). }
    done.
  - intros Hnz. subst base. by destruct (Qeq_dec (river_prev st) 0).
  - intros Hz. subst base. by destruct (Qeq_dec (river_prev st) 0).
  - apply main_heuristic.
Qed.

(** Three dry days in a row empty the 3-day rolling sum. *)
Lemma roll3_after_three_dry_days um w k r2 r1 r0 :
  horizon_rows w !! k = Some r2 →
  horizon_rows w !! S k = Some r1 →
  horizon_rows w !! S (S k) = Some r0 →
  (fc_rain r2 == 0)%Q → (fc_rain r1 == 0)%Q → (fc_rain r0 == 0)%Q →
  (rollingSum (up_lags (run_loop um w (S (S (S k))))) 3 == 0)%Q.
Proof.
  intros H2 H1 H0 Hz2 Hz1 Hz0.
  rewrite (run_loop_S _ _ _ _ H0), (run_loop_S _ _ _ _ H1), (run_loop_S _ _ _ _ H2).
  pose proof (up_lags_run_loop_length um w k) as Hlen.
  cbn [step up_lags].
  destruct (up_lags (run_loop um w k)) as [|l1 [|l2 [|l3 [|l4 [|l5 [|l6 [|l7 [|]]]]]]]];
    try discriminate Hlen.
  unfold rollingSum, py_sum. cbn. lra.
Qed.

(** A dry step with an empty rolling sum does not move the heuristic level
    away from the baseline. *)
Lemma heuristic_level_dry (prev roll3 today : Q) :
  (roll3 == 0)%Q → (today == 0)%Q →
  (Qabs (heuristic_level prev roll3 today - 349.5) <= Qabs (prev - 349.5))%Q.
Proof.
  intros Hr Ht. unfold heuristic_level.
  destruct (Qeq_dec prev 0) as [Hz|Hnz].
  - apply Qabs_Qle_condition.
    pose proof (Qle_Qabs (- (prev - 349.5))) as Hle.
    rewrite Qabs_opp in Hle. split; lra.
  - assert (0.6 * (prev + 0.12 * roll3 + 0.02 * today) + 0.4 * prev - 349.5
            == prev - 349.5)%Q as -> by lra.
    apply Qle_refl.
Qed.

(** From the third dry day on, each heuristic level is at most as far from
    the baseline as the one before. *)
Lemma dry_run_deviation_step (w : World) (n : nat) :
  Forall (λ r, fc_rain r == 0)%Q (horizon_rows w) →
  (2 ≤ n < length (horizon_rows w))%nat →
  (Qabs (river_prev (run_loop None w (S n)) - 349.5)
   <= Qabs (river_prev (run_loop None w n) - 349.5))%Q.
Proof.
  intros Hdry [Hn2 Hn].
  destruct n as [|[|k]]; [lia | lia |].
  row_at (horizon_rows w) k r2 H2.
  row_at (horizon_rows w) (S k) r1 H1.
  row_at (horizon_rows w) (S (S k)) r0 H0.
  rewrite Forall_lookup in Hdry.
  pose proof (roll3_after_three_dry_days None w k r2 r1 r0 H2 H1 H0
                (Hdry _ _ H2) (Hdry _ _ H1) (Hdry _ _ H0)) as Hroll.
  rewrite (run_loop_S _ _ _ _ H0) in Hroll |- *.
  cbn [step river_prev up_lags] in Hroll |- *.
  apply heuristic_level_dry; [exact Hroll | exact (Hdry _ _ H0)].
Qed.

Lemma dry_run_deviation_mono (w : World) (i j : nat) :
  Forall (λ r, fc_rain r == 0)%Q (horizon_rows w) →
  (1 ≤ i ≤ j)%nat → (j < length (horizon_rows w))%nat →
  (Qabs (river_prev (run_loop None w (S j)) - 349.5)
   <= Qabs (river_prev (run_loop None w (S i)) - 349.5))%Q.
Proof.
  intros Hdry [Hi Hij] Hj.
  induction j as [|j IH]; [lia|].
  destruct (decide (i = S j)) as [->|Hne]; [apply Qle_refl|].
  eapply Qle_trans; [apply dry_run_deviation_step; [done | lia] |].
  apply IH; lia.
Qed.

Lemma horizon_rows_upstream (w : World) (fc : list FcRow) :
  upstream_forecast_gfs w = Some fc →
  horizon_rows w ⊆ fc ∧
  length (horizon_rows w) = (length fc `min` HORIZON)%nat.
Proof.
  intros Hfc. unfold horizon_rows, load_upstream_forecast. rewrite Hfc.
  unfold sort_values. split.
  - intros r Hr. apply elem_of_take in Hr as (i & Hr & _).
    apply list_elem_of_lookup_2 in Hr.
    by rewrite !merge_sort_Permutation in Hr.
  - rewrite length_take, !merge_sort_Permutation. lia.
Qed.

(** Over exact rationals: in heuristic mode, from a history ending at level
    349.5 and an all-zero upstream forecast of 5 days, the run writes 5
    levels whose distances to 349.5 do not increase from the second level
    on.  In exact arithmetic a dry step with an empty rolling sum returns the
    level it is given; what the doubles of the source do is in
    [binary64]. *)
Lemma dry_run_exact_arithmetic (w w' : World) (fc : list FcRow) (out : list PredRow) :
  river_model w = Missing ∨ river_feature_order w = Missing →
  (last_river (read_hist w) == 349.5)%Q →
  upstream_forecast_gfs w = Some fc →
  length fc = 5%nat →
  Forall (λ r, fc_rain r == 0)%Q fc →
  main w = Ok w' →
  predicted_river_level w' = Some out →
  length out = 5%nat ∧
  ∀ i j oi oj, (1 ≤ i ≤ j)%nat →
    out !! i = Some oi → out !! j = Some oj →
    (Qabs (pred_river_level oj - 349.5) <= Qabs (pred_river_level oi - 349.5))%Q.
Proof.
  intros Hmode _ Hfc Hlen Hdry Hmain Hout.
  rewrite (main_heuristic w Hmode) in Hmain. injection Hmain as <-.
  unfold write_predicted_river_level in Hout.
  cbn [predicted_river_level] in Hout. injection Hout as <-.
  destruct (horizon_rows_upstream w fc Hfc) as [Hsub Hlen5].
  rewrite Hlen in Hlen5. change (5 `min` HORIZON)%nat with 5%nat in Hlen5.
  assert (Forall (λ r, fc_rain r == 0)%Q (horizon_rows w)) as Hdry'.
  { rewrite Forall_forall in Hdry |- *. intros r Hr. apply Hdry, Hsub, Hr. }
  split; [by rewrite preds_run_loop_length; lia|].
  intros i j oi oj Hij Hi Hj.
  assert (j < 5)%nat as Hj5.
  { apply lookup_lt_Some in Hj. rewrite preds_run_loop_length in Hj; lia. }
  row_at (horizon_rows w) i ri Hri.
  row_at (horizon_rows w) j rj Hrj.
  rewrite (preds_run_loop_lookup _ _ _ _ _ Hri) in Hi by lia.
  rewrite (preds_run_loop_lookup _ _ _ _ _ Hrj) in Hj by lia.
  injection Hi as <-. injection Hj as <-. cbn [pred_river_level].
  apply dry_run_deviation_mono; [done | done | lia].
Qed.

End river_loop.

Lemma river_heuristic_step_witness :
  (predict_river_level.river_prev
     (predict_river_level.run_loop (ext := reference_externals) None dry_spell_world 1)
   == 350.288)%Q.
Proof.
  destruct (river_heuristic_step (ext := reference_externals)
              dry_spell_world 0 {| fc_date := 20000; fc_rain := 0 |} eq_refl)
    as (_ & _ & -> & _).
  vm_compute. reflexivity.
Defined.

(** The wording of C3 fails on a history whose last gauge reading is 0.0:
    river-level history exists, yet the first step takes the baseline 349.5
    as base and emits 209.7, where the worded formula gives 0. *)
Lemma river_heuristic_base_counterexample :
  let w := zero_gauge_world in
  let st := predict_river_level.run_loop (ext := reference_externals) None w 0 in
  let row := {| fc_date := 20000; fc_rain := 0 |} in
  has_river_history w = true ∧
  predict_river_level.horizon_rows (ext := reference_externals) w !! 0%nat = Some row ∧
  (predict_river_level.river_prev
     (predict_river_level.run_loop (ext := reference_externals) None w 1) == 209.7)%Q ∧
  ¬ (predict_river_level.river_prev
       (predict_river_level.run_loop (ext := reference_externals) None w 1)
     == spec_heuristic_level (has_river_history w) 0
          (predict_river_level.river_prev st)
          (rollingSum (push (fc_rain row) (predict_river_level.up_lags st)) 3)
          (fc_rain row))%Q.
Proof.
  cbv zeta. split; [reflexivity|]. split; [reflexivity|].
  split; [by vm_compute|].
  vm_compute. intros Heq. discriminate Heq.
Qed.

(** The baseline is also taken later in a run, whenever the previous
    prediction is exactly 0: here at the second step. *)
Example river_baseline_midrun :
  let w := negative_gauge_world in
  let st := predict_river_level.run_loop (ext := reference_externals) None w 1 in
  has_river_history w = true ∧
  (predict_river_level.river_prev st == 0)%Q ∧
  (predict_river_level.river_prev
     (predict_river_level.run_loop (ext := reference_externals) None w 2)
   == 0.6 * (349.5 + 0.12 * 10 + 0.02 * 0))%Q.
Proof.
  cbv zeta. split; [reflexivity|]. split; by vm_compute.
Qed.

(** ** The dry run in binary64 *)

Section river_binary64.
Import PrimFloat.

Lemma all_below_spec (bound : N) (test : N → bool) :
  binary64.all_below bound test = true → ∀ n, (n < bound)%N → test n = true.
Proof.
  unfold binary64.all_below. induction bound as [|b IH] using N.peano_ind.
  - intros _ n Hn. lia.
  - rewrite N.recursion_succ; [|done|solve_proper].
    intros [Ht Hrest]%andb_true_iff n Hn.
    destruct (decide (n = b)) as [->|Hne]; [done|]. apply IH; [done|lia].
Qed.

(** C9, as the code has it, in binary64: in heuristic mode, seeded with level
    349.5 and given five days of upstream rain 0.0, whatever the last
    historical upstream rain, the third, fourth and fifth level are each
    computed from the level p before them alone, as
    0.6*(p + 0.12*0.0 + 0.02*0.0) + 0.4*p (with 349.5 for the first p when
    p is 0).  With a dry history (last upstream rain 0.0) the five levels
    are 349.5, with deviations that do not increase.  With the last upstream
    rain 379.0 the second level is above 349.5 and the third level is above
    the second: the rounding of that expression moves the level away from
    the baseline once, and the fourth and fifth level repeat the third.  So
    they do for every last upstream rain from 0.00 to 1000.00 in steps of
    0.01. *)
Theorem river_dry_run_binary64 :
  let zeros := replicate 5 0%float in
  let dry := λ p, binary64.heuristic_level p 0 0 in
  (∀ last_up, ∃ o0 o1,
      binary64.run last_up 349.5 zeros
      = [o0; o1; dry o1; dry (dry o1); dry (dry (dry o1))]) ∧
  binary64.run 0 349.5 zeros = replicate 5 349.5%float ∧
  binary64.non_increasing (map binary64.deviation (binary64.run 0 349.5 zeros)) = true ∧
  (∃ o0 o1 o2,
      binary64.run 379 349.5 zeros = [o0; o1; o2; o2; o2] ∧
      (349.5 <? o1)%float = true ∧ (o1 <? o2)%float = true) ∧
  (∀ n, (n < 100001)%N →
      binary64.settled (binary64.run (binary64.hundredths n) 349.5 zeros) = true).
Proof.
  intros zeros dry. split; [|split; [|split; [|split]]].
  - intros last_up. eexists _, _. reflexivity.
  - vm_compute. reflexivity.
  - vm_compute. reflexivity.
  - eexists _, _, _. split; [vm_compute; reflexivity|].
    split; vm_compute; reflexivity.
  - apply all_below_spec. vm_compute. reflexivity.
Qed.

(** The wording of C9 fails in binary64 on a wet history: seeded with level
    349.5 and last upstream rain 379.0, five dry days give 404.07599999999996,
    431.364 and then three times 431.36400000000003, so the deviation of the
    third level is greater than the deviation of the second. *)
#[warning="-inexact-float"]
Lemma river_dry_run_rounding_counterexample :
  let out := binary64.run 379 349.5 (replicate 5 0%float) in
  out = [404.07599999999996; 431.364; 431.36400000000003; 431.36400000000003;
         431.36400000000003]%float ∧
  binary64.hundredths 37900 = 379%float ∧
  (binary64.deviation 431.364 <? binary64.deviation 431.36400000000003)%float = true ∧
  binary64.non_increasing (map binary64.deviation (drop 1 out)) = false.
Proof.
  cbv zeta. split; [vm_compute; reflexivity|]. split; [vm_compute; reflexivity|].
  split; vm_compute; reflexivity.
Qed.

End river_binary64.

(** ** Stage 2 *)

Lemma py_max_Qmax (a b : Q) : (py_max a b == Qmax a b)%Q.
Proof.
  unfold py_max. destruct (Qlt_le_dec a b) as [Hlt|Hle].
  - symmetry. apply Q.max_r. lra.
  - symmetry. apply Q.max_l. exact Hle.
Qed.

Lemma np_clip_Qmin_Qmax (x lo hi : Q) :
  (np_clip x lo hi == Qmin (Qmax x lo) hi)%Q.
Proof.
  unfold np_clip.
  destruct (Qlt_le_dec x lo) as [Hx|Hx].
  - rewrite (Q.max_r x lo) by lra.
    destruct (Qlt_le_dec hi lo) as [Hhi|Hhi].
    + symmetry. apply Q.min_r. lra.
    + symmetry. apply Q.min_l. exact Hhi.
  - rewrite (Q.max_l x lo) by exact Hx.
    destruct (Qlt_le_dec hi x) as [Hhi|Hhi].
    + symmetry. apply Q.min_r. lra.
    + symmetry. apply Q.min_l. exact Hhi.
Qed.

Lemma np_clip_bounds (x lo hi : Q) :
  (lo <= hi → lo <= np_clip x lo hi <= hi)%Q.
Proof.
  intros Hlohi. unfold np_clip.
  destruct (Qlt_le_dec x lo); destruct (Qlt_le_dec hi _); lra.
Qed.

Lemma heuristic_probability_bounds (local up level baseline : Q) :
  (0 <= heuristic_probability local up level baseline <= 1)%Q.
Proof. unfold heuristic_probability. apply np_clip_bounds. lra. Qed.

Section flood_loop.
Context {ext : Externals}.

(** What [main] computes when nothing raises. *)
Lemma flood_main_inv (w w' : World) :
  main w = Ok w' →
  ∃ df_local df_up df_river loaded,
    load_local_forecast w = Ok df_local ∧
    load_upstream_forecast w = Ok df_up ∧
    load_river_preds w = Ok df_river ∧
    load_model_and_feats w = Ok loaded ∧
    w' = write_flood_forecast w
           (out_rows (foldl (step (use_model loaded) (pred_river_map df_river)
                                  (last_river (read_hist w)))
                            (initial_state (read_hist w))
                            (merged df_river df_local df_up))).
Proof.
  unfold main. intros Hmain.
  destruct (load_local_forecast w) as [df_local|] eqn:Hl; [|discriminate].
  destruct (load_upstream_forecast w) as [df_up|] eqn:Hu; [|discriminate].
  destruct (load_river_preds w) as [df_river|] eqn:Hr; [|discriminate].
  destruct (load_model_and_feats w) as [loaded|] eqn:Hm; [|discriminate].
  cbn in Hmain. injection Hmain as <-.
  by exists df_local, df_up, df_river, loaded.
Qed.

Lemma flood_load_heuristic (w : World) :
  flood_model w = Missing ∨ flood_feature_order w = Missing →
  load_model_and_feats w = Ok (None, None).
Proof.
  intros Hmiss. unfold load_model_and_feats.
  destruct Hmiss as [-> | ->]; cbn; [done|]. by rewrite andb_false_r.
Qed.

(** The loop emits one row per row of the merged frame. *)
Lemma out_rows_length um (m : gmap Z Q) (lr : Q) (df : list MergedRow) (st : LoopState) :
  length (out_rows (foldl (step um m lr) st df))
  = (length (out_rows st) + length df)%nat.
Proof.
  revert st. induction df as [|row df IH]; intros st; [cbn; lia|].
  cbn [foldl]. rewrite IH. cbn [step out_rows]. rewrite length_app. cbn. lia.
Qed.

(** A row of a left merge is a left row with the rain of a right row of
    the same date, or with nothing when the right table lacks the date. *)
Lemma elem_of_merge_left {A} (key : A → Z) (left : list A) (right : list FcRow)
    (x : A * option Q) :
  x ∈ merge_left key left right →
  x.1 ∈ left ∧
  ((∃ r, r ∈ right ∧ fc_date r = key x.1 ∧ x.2 = Some (fc_rain r)) ∨
   (x.2 = None ∧ ∀ r, r ∈ right → fc_date r ≠ key x.1)).
Proof.
  unfold merge_left. intros Hx.
  apply list_elem_of_bind in Hx as (l & Hx & Hl).
  destruct (filter (λ r, fc_date r = key l) right) as [|r0 rs] eqn:Hf.
  - apply list_elem_of_singleton in Hx as ->. split; [done|]. right.
    split; [done|]. intros r Hr Hd.
    assert (r ∈ filter (λ r, fc_date r = key l) right) as Hin
      by (apply list_elem_of_filter; done).
    rewrite Hf in Hin. by apply not_elem_of_nil in Hin.
  - apply list_elem_of_fmap in Hx as (r & -> & Hr). split; [done|]. left.
    rewrite <- Hf in Hr. apply list_elem_of_filter in Hr as [Hd Hr].
    by exists r.
Qed.

(** Where each value of a merged row comes from. *)
Lemma elem_of_merged (df_river : list PredRow) (df_local df_up : list FcRow)
    (m : MergedRow) :
  m ∈ merged df_river df_local df_up →
  {| p_date := m_date m; pred_river_level := m_pred_river_level m |} ∈ df_river ∧
  ({| fc_date := m_date m; fc_rain := m_local_rain m |} ∈ df_local ∨
   (m_local_rain m = 0%Q ∧ m_date m ∉ map fc_date df_local)) ∧
  ({| fc_date := m_date m; fc_rain := m_upstream_rain m |} ∈ df_up ∨
   (m_upstream_rain m = 0%Q ∧ m_date m ∉ map fc_date df_up)).
Proof.
  unfold merged. intros Hm.
  apply list_elem_of_fmap in Hm as ([[r lo] uo] & -> & Hx).
  apply elem_of_merge_left in Hx as [Hx Hup]. cbn [fst snd] in *.
  apply elem_of_merge_left in Hx as [Hr Hlo]. cbn [fst snd] in *.
  split; [by destruct r|]. split.
  - destruct Hlo as [(r' & Hr' & Hd & ->) | [-> Hno]].
    + left. cbn. rewrite <- Hd. by destruct r'.
    + right. split; [done|]. intros Hin.
      apply list_elem_of_fmap in Hin as (r' & Hd & Hr'). by eapply Hno.
  - destruct Hup as [(r' & Hr' & Hd & ->) | [-> Hno]].
    + left. cbn. rewrite <- Hd. by destruct r'.
    + right. split; [done|]. intros Hin.
      apply list_elem_of_fmap in Hin as (r' & Hd & Hr'). by eapply Hno.
Qed.

(** In heuristic mode the loop emits one specified row per merged row,
    whatever the lag lists hold. *)
Lemma heuristic_out_rows (m : gmap Z Q) (lr : Q) (df : list MergedRow) (st : LoopState) :
  out_rows (foldl (step None m lr) st df) = (out_rows st ++ map heuristic_row df)%list.
Proof.
  revert st. induction df as [|row df IH]; intros st.
  - cbn. by rewrite app_nil_r.
  - cbn [foldl map]. rewrite IH. cbn [step out_rows].
    by rewrite <- (assoc_L (++)).
Qed.

(** C4: in heuristic mode the run writes, for every day of the merged
    frame in order, the probability
    clip(0.08*local_rain + 0.06*upstream_rain
         + 0.003*max(0, predicted_river_level - 349.5), 0, 1)
    of that day's rains and stage-1 level; it lies in [0,1]; [np_clip] and
    [py_max] are the usual clip and max.  The level of a row is the stage-1
    prediction of its date, and each rain is that date's forecast value
    (0.0 where the forecast has no such date). *)
Theorem flood_heuristic_probability (w w' : World) (out : list ForecastRow) :
  flood_model w = Missing ∨ flood_feature_order w = Missing →
  main w = Ok w' →
  flood_forecast w' = Some out →
  (∃ df_river df_local df_up,
      load_river_preds w = Ok df_river ∧
      load_local_forecast w = Ok df_local ∧
      load_upstream_forecast w = Ok df_up ∧
      out = map heuristic_row (merged df_river df_local df_up) ∧
      Forall (λ row,
        {| p_date := date row;
           pred_river_level := out_pred_river_level row |} ∈ df_river ∧
        ({| fc_date := date row; fc_rain := local_rain row |} ∈ df_local ∨
         (local_rain row = 0%Q ∧ date row ∉ map fc_date df_local)) ∧
        ({| fc_date := date row; fc_rain := upstream_rain row |} ∈ df_up ∨
         (upstream_rain row = 0%Q ∧ date row ∉ map fc_date df_up))) out) ∧
  Forall (λ row,
      flood_probability row =
        np_clip (0.08 * local_rain row + 0.06 * upstream_rain row
                 + 0.003 * py_max 0 (out_pred_river_level row - 349.5))%Q 0 1 ∧
      (flood_probability row ==
        Qmin (Qmax (0.08 * local_rain row + 0.06 * upstream_rain row
                    + 0.003 * Qmax 0 (out_pred_river_level row - 349.5)) 0) 1)%Q ∧
      (0 <= flood_probability row <= 1)%Q ∧
      risk_class row = classify_prob (flood_probability row)) out.
Proof.
  intros Hmode Hmain Hout.
  destruct (flood_main_inv w w' Hmain)
    as (df_local & df_up & df_river & loaded & Hl & Hu & Hr & Hm & ->).
  rewrite (flood_load_heuristic w Hmode) in Hm. injection Hm as <-.
  unfold write_flood_forecast in Hout. cbn [flood_forecast use_model] in Hout.
  injection Hout as <-. rewrite heuristic_out_rows.
  change (out_rows (initial_state (read_hist w))) with (@nil ForecastRow).
  rewrite app_nil_l. split.
  - exists df_river, df_local, df_up. repeat split; try done.
    apply Forall_forall. intros row Hrow.
    apply list_elem_of_fmap in Hrow as (m & -> & Hm).
    by apply elem_of_merged in Hm.
  - apply Forall_forall. intros row Hrow.
    apply list_elem_of_fmap in Hrow as (m & -> & _).
    unfold heuristic_row. cbn [flood_probability local_rain upstream_rain
                                out_pred_river_level risk_class].
    split; [reflexivity|]. split; [|split; [|reflexivity]].
    + rewrite np_clip_Qmin_Qmax.
      assert (py_max 0 (m_pred_river_level m - 349.5)
              == Qmax 0 (m_pred_river_level m - 349.5))%Q as Hmax
        by apply py_max_Qmax.
      apply Q.min_compat; [|reflexivity].
      apply Q.max_compat; [|reflexivity].
      rewrite Hmax. reflexivity.
    + apply np_clip_bounds. lra.
Qed.

End flood_loop.

Lemma flood_heuristic_probability_witness :
  let w := dry_spell_after_stage1 in
  let out := default [] (flood_forecast (run_stages (ext := reference_externals)
                                           dry_spell_world).1) in
  length out = 5%nat ∧ Forall (λ row, (0 <= flood_probability row <= 1)%Q) out.
Proof.
  intros w out. split; [reflexivity|].
  destruct (flood_heuristic_probability (ext := reference_externals) w
              (write_flood_forecast w out) out) as [_ HF].
  - left. reflexivity.
  - vm_compute. reflexivity.
  - reflexivity.
  - eapply Forall_impl; [exact HF|]. intros row (_ & _ & Hb & _). exact Hb.
Defined.

(** ** The river lag of stage 2 *)

Lemma pred_river_map_snoc (df : list PredRow) (r : PredRow) :
  pred_river_map (df ++ [r]) = <[p_date r := pred_river_level r]> (pred_river_map df).
Proof. unfold pred_river_map. by rewrite foldl_snoc. Qed.

(** The map holds, for a date, the level of the last row of that date. *)
Lemma pred_river_map_lookup (df : list PredRow) (d : Z) :
  pred_river_map df !! d =
    pred_river_level <$> last (filter (λ r, p_date r = d) df).
Proof.
  induction df as [|r df IH] using rev_ind; [done|].
  rewrite pred_river_map_snoc, filter_app.
  destruct (decide (p_date r = d)) as [<-|Hne].
  - rewrite (filter_cons_True (λ r', p_date r' = p_date r) r []) by done.
    by rewrite filter_nil, lookup_insert_eq, last_snoc.
  - rewrite (filter_cons_False (λ r', p_date r' = d) r []) by done.
    by rewrite filter_nil, app_nil_r, lookup_insert_ne.
Qed.

Lemma pred_river_map_dom (df : list PredRow) (d : Z) :
  d ∈ dom (pred_river_map df) ↔ d ∈ map p_date df.
Proof.
  rewrite elem_of_dom, pred_river_map_lookup, fmap_is_Some.
  split.
  - intros [r Hr]. apply last_Some_elem_of, list_elem_of_filter in Hr as [<- Hr].
    by apply list_elem_of_fmap_2.
  - intros Hd. apply list_elem_of_fmap in Hd as (r & -> & Hr).
    assert (r ∈ filter (λ r', p_date r' = p_date r) df) as Hin
      by (by apply list_elem_of_filter).
    destruct (filter (λ r', p_date r' = p_date r) df) as [|x l] eqn:Hf using rev_ind.
    + by apply not_elem_of_nil in Hin.
    + rewrite last_snoc. by eexists.
Qed.

(** The last entry of a sorted list of dates is its greatest entry. *)
Lemma last_merge_sort_max (l : list Z) (d : Z) :
  last (merge_sort Z.le l) = Some d →
  d ∈ l ∧ ∀ x, x ∈ l → (x ≤ d)%Z.
Proof.
  intros Hlast.
  pose proof (StronglySorted_merge_sort Z.le l) as Hsorted.
  pose proof (merge_sort_Permutation Z.le l) as Hperm.
  apply last_Some in Hlast as [init Hinit]. rewrite Hinit in Hsorted, Hperm.
  split.
  - rewrite <- Hperm. set_solver.
  - intros x Hx. rewrite <- Hperm in Hx.
    apply elem_of_app in Hx as [Hx|Hx].
    + eapply (StronglySorted_app_1_elem_of Z.le init [d]); [done | done | set_solver].
    + apply list_elem_of_singleton in Hx as ->. lia.
Qed.

Lemma last_merge_sort_None (l : list Z) :
  last (merge_sort Z.le l) = None → l = [].
Proof.
  intros Hlast.
  pose proof (merge_sort_Permutation Z.le l) as Hperm.
  destruct (merge_sort Z.le l) as [|x l'] using rev_ind.
  - symmetry in Hperm. by apply Permutation_nil_r in Hperm.
  - by rewrite last_snoc in Hlast.
Qed.

#[global] Instance by_date_transitive {A} (key : A → Z) : Transitive (by_date key).
Proof. unfold by_date. intros x y z. lia. Qed.

#[global] Instance by_date_total {A} (key : A → Z) : Total (by_date key).
Proof. unfold by_date. intros x y. lia. Qed.

(** The first row of a sorted table has the least date. *)
Lemma sort_values_head_min {A} (key : A → Z) (df : list A) (r0 r : A) :
  head (sort_values key df) = Some r0 →
  r ∈ sort_values key df →
  (key r0 ≤ key r)%Z.
Proof.
  unfold sort_values. intros Hhead Hr.
  pose proof (StronglySorted_merge_sort (by_date key) df) as Hsorted.
  destruct (merge_sort (by_date key) df) as [|x l]; [done|].
  injection Hhead as ->.
  apply elem_of_cons in Hr as [->|Hr]; [lia|].
  apply StronglySorted_inv in Hsorted as [_ Hall].
  rewrite Forall_forall in Hall. by apply Hall.
Qed.

(** The last row of a sorted table has the greatest date. *)
Lemma sort_values_last_max {A} (key : A → Z) (df : list A) (latest : A) :
  last (sort_values key df) = Some latest →
  latest ∈ df ∧ ∀ r, r ∈ df → (key r ≤ key latest)%Z.
Proof.
  intros Hlast.
  assert (StronglySorted (by_date key) (sort_values key df)) as Hsorted
    by apply (StronglySorted_merge_sort _).
  assert (∀ l, StronglySorted (by_date key) l → last l = Some latest →
               ∀ r, r ∈ l → (key r ≤ key latest)%Z) as Hmax.
  { induction l as [|x l IH]; intros Hs Hl r Hr; [by apply not_elem_of_nil in Hr|].
    apply StronglySorted_inv in Hs as [Hs Hx].
    destruct l as [|y l].
    - injection Hl as <-. apply list_elem_of_singleton in Hr as ->. lia.
    - change (last (x :: y :: l)) with (last (y :: l)) in Hl.
      apply elem_of_cons in Hr as [->|Hr]; [|by apply IH].
      rewrite Forall_forall in Hx. apply Hx. by apply last_Some_elem_of. }
  split.
  - apply last_Some_elem_of in Hlast. unfold sort_values in Hlast.
    by rewrite merge_sort_Permutation in Hlast.
  - intros r Hr. apply (Hmax _ Hsorted Hlast). unfold sort_values.
    by rewrite merge_sort_Permutation.
Qed.

Lemma river_lag_1_prior (df_river : list PredRow) (lr : Q) (fdate d : Z) :
  d ∈ filter (λ d, (d < fdate)%Z) (map p_date df_river) →
  (∀ d', d' ∈ filter (λ d, (d < fdate)%Z) (map p_date df_river) → (d' ≤ d)%Z) →
  ∃ r, last (filter (λ r, p_date r = d) df_river) = Some r ∧
       river_lag_1 (pred_river_map df_river) lr fdate = pred_river_level r.
Proof.
  intros Hd Hmax. unfold river_lag_1.
  set (L := filter (λ d, (d < fdate)%Z) (elements (dom (pred_river_map df_river)))).
  assert (∀ x, x ∈ L ↔ x ∈ filter (λ d, (d < fdate)%Z) (map p_date df_river)) as HL.
  { intros x. unfold L. rewrite !list_elem_of_filter, elem_of_elements.
    by rewrite pred_river_map_dom. }
  destruct (last (merge_sort Z.le L)) as [d0|] eqn:Hlast.
  - apply last_merge_sort_max in Hlast as [Hd0 Hmax0].
    assert (d0 = d) as ->.
    { apply Z.le_antisymm; [by apply Hmax, HL | by apply Hmax0, HL]. }
    rewrite lookup_total_alt, pred_river_map_lookup.
    apply list_elem_of_filter in Hd as [_ Hd].
    apply pred_river_map_dom, elem_of_dom in Hd as [v Hv].
    rewrite pred_river_map_lookup in Hv.
    destruct (last (filter (λ r, p_date r = d) df_river)) as [r|]; [|done].
    by exists r.
  - apply last_merge_sort_None in Hlast.
    apply HL in Hd. rewrite Hlast in Hd. by apply not_elem_of_nil in Hd.
Qed.

Lemma river_lag_1_no_prior (df_river : list PredRow) (lr : Q) (fdate : Z) :
  filter (λ d, (d < fdate)%Z) (map p_date df_river) = [] →
  river_lag_1 (pred_river_map df_river) lr fdate = lr.
Proof.
  intros Hnone. unfold river_lag_1.
  destruct (last _) as [d0|] eqn:Hlast; [|done].
  apply last_merge_sort_max in Hlast as [Hd0 _].
  apply list_elem_of_filter in Hd0 as [Hlt Hd0].
  apply elem_of_elements, pred_river_map_dom in Hd0.
  assert (d0 ∈ filter (λ d, (d < fdate)%Z) (map p_date df_river)) as Hin
    by (by apply list_elem_of_filter).
  rewrite Hnone in Hin. by apply not_elem_of_nil in Hin.
Qed.

Lemma filter_none {A} (P : A → Prop) `{∀ x, Decision (P x)} (l : list A) :
  (∀ x, x ∈ l → ¬ P x) → filter P l = [].
Proof.
  intros Hno. destruct (filter P l) as [|x l'] eqn:Hf; [done|].
  assert (x ∈ filter P l) as Hx by (rewrite Hf; set_solver).
  apply list_elem_of_filter in Hx as [HP Hx]. by apply Hno in Hx.
Qed.

(** Rows of a table with unique dates are determined by their date. *)
Lemma NoDup_key_inj {A} (key : A → Z) (l : list A) (x y : A) :
  NoDup (map key l) → x ∈ l → y ∈ l → key x = key y → x = y.
Proof.
  induction l as [|a l IH]; intros Hnd Hx Hy Hk; [by apply not_elem_of_nil in Hx|].
  cbn [map] in Hnd. apply NoDup_cons in Hnd as [Ha Hnd].
  apply elem_of_cons in Hx as [->|Hx]; apply elem_of_cons in Hy as [->|Hy].
  - done.
  - exfalso. apply Ha. rewrite Hk. by apply list_elem_of_fmap_2.
  - exfalso. apply Ha. rewrite <- Hk. by apply list_elem_of_fmap_2.
  - by apply IH.
Qed.

(** The first row of a left merge comes from the first left row. *)
Lemma merge_left_head {A} (key : A → Z) (left : list A) (right : list FcRow)
    (x : A * option Q) :
  head (merge_left key left right) = Some x → head left = Some x.1.
Proof.
  unfold merge_left. destruct left as [|l left]; [done|].
  rewrite bind_cons. cbn [head].
  destruct (filter (λ r, fc_date r = key l) right) as [|r rs]; cbn; by intros [= <-].
Qed.

Lemma merged_head (df_river : list PredRow) (df_local df_up : list FcRow)
    (row : MergedRow) :
  head (merged df_river df_local df_up) = Some row →
  ∃ r0, head df_river = Some r0 ∧ m_date row = p_date r0.
Proof.
  unfold merged. intros Hhead.
  destruct (merge_left (λ x, p_date x.1) (merge_left p_date df_river df_local) df_up)
    as [|x xs] eqn:Hx; [done|].
  cbn in Hhead. injection Hhead as <-.
  assert (head (merge_left (λ x, p_date x.1) (merge_left p_date df_river df_local) df_up)
          = Some x) as Hh by (by rewrite Hx).
  apply merge_left_head, merge_left_head in Hh.
  exists x.1.1. by split.
Qed.

Section river_lag.
Context {ext : Externals}.

Lemma out_rows_prefix um (m : gmap Z Q) (lr : Q) (df : list MergedRow) (st : LoopState) :
  ∃ rest, out_rows (foldl (step um m lr) st df) = (out_rows st ++ rest)%list.
Proof.
  revert st. induction df as [|row df IH]; intros st.
  - exists []. cbn. by rewrite app_nil_r.
  - cbn [foldl]. destruct (IH (step um m lr st row)) as [rest ->].
    cbn [step out_rows]. eexists. by rewrite <- (assoc_L (++)).
Qed.

(** The row emitted for the [k]-th row of the merged frame stays at place
    [k] of the output. *)
Lemma out_rows_loop_lookup um (m : gmap Z Q) (lr : Q) (df : list MergedRow)
    (st : LoopState) (k : nat) (row : MergedRow) :
  out_rows st = [] →
  df !! k = Some row →
  out_rows (foldl (step um m lr) st df) !! k =
    last (out_rows (step um m lr (foldl (step um m lr) st (take k df)) row)).
Proof.
  intros Hst Hrow.
  rewrite <- (take_drop (S k) df) at 1. rewrite foldl_app.
  rewrite (take_S_r _ _ _ Hrow), foldl_snoc.
  destruct (out_rows_prefix um m lr (drop (S k) df)
              (step um m lr (foldl (step um m lr) st (take k df)) row)) as [rest ->].
  cbn [step out_rows]. rewrite last_snoc.
  rewrite <- (assoc_L (++)). rewrite lookup_app_r.
  - rewrite out_rows_length, Hst. cbn [length].
    rewrite length_take_le by (apply lookup_lt_Some in Hrow; lia).
    by rewrite Nat.sub_diag.
  - rewrite out_rows_length, Hst. cbn [length].
    rewrite length_take_le by (apply lookup_lt_Some in Hrow; lia). lia.
Qed.

(** The fallback of the river lag: the level of the last historical row, 0.0
    when that row has none or the table has no row. *)
Lemma last_river_cases (hist : list HistRow) :
  (∀ r v, last hist = Some r → h_river_level r = Some v → last_river hist = v) ∧
  (∀ r, last hist = Some r → h_river_level r = None → last_river hist = 0%Q) ∧
  (hist = [] → last_river hist = 0%Q).
Proof.
  unfold last_river. split; [|split].
  - by intros r v -> ->.
  - by intros r -> ->.
  - by intros ->.
Qed.

(** C5, as the code has it: when stage 2 returns, then for every horizon
    day (every row of the frame merged from stage 1's rows) the entry
    river_lag_1 of the day's feature dict, which in trained mode is the
    dict the classifier's frame is read from, is the stage-1 level of the
    greatest date before that day among the dates of stage 1's output (the
    level of the last row of that date, which is the only one when dates
    are unique); when no date of the output is earlier, as on the first
    horizon day, it is [last_river]: the level of the last row of the
    history sorted by date when that row has a level, and 0.0 when that row
    has none or the history has no row. *)
Theorem nearest_prior_river_lag (w w' : World) :
  main w = Ok w' →
  ∃ df_local df_up df_river loaded,
    load_local_forecast w = Ok df_local ∧
    load_upstream_forecast w = Ok df_up ∧
    load_river_preds w = Ok df_river ∧
    load_model_and_feats w = Ok loaded ∧
    let m := pred_river_map df_river in
    let lr := last_river (read_hist w) in
    let df := merged df_river df_local df_up in
    let loop := λ k, foldl (step (use_model loaded) m lr) (initial_state (read_hist w))
                           (take k df) in
    flood_forecast w' = Some (out_rows (loop (length df))) ∧
    (∀ k row, df !! k = Some row →
       let fdate := m_date row in
       let prior := filter (λ d, (d < fdate)%Z) (map p_date df_river) in
       let feat := features (push (m_upstream_rain row) (up_lags (loop k)))
                            (push (m_local_rain row) (local_lags (loop k)))
                            (river_lag_1 m lr fdate) fdate in
       loop (S k) = step (use_model loaded) m lr (loop k) row ∧
       feat !! "river_lag_1" = Some (river_lag_1 m lr fdate) ∧
       (∀ clf feat_order, use_model loaded = Some (clf, feat_order) →
          (flood_probability <$> out_rows (loop (length df)) !! k)
          = Some (clf (map (λ c, (c, feat_get feat c)) feat_order))) ∧
       (∀ d, d ∈ prior → (∀ d', d' ∈ prior → (d' ≤ d)%Z) →
          ∃ r, last (filter (λ r, p_date r = d) df_river) = Some r ∧
               river_lag_1 m lr fdate = pred_river_level r) ∧
       (NoDup (map p_date df_river) →
        ∀ r, r ∈ df_river → (p_date r < fdate)%Z →
          (∀ r', r' ∈ df_river → (p_date r' < fdate)%Z → (p_date r' ≤ p_date r)%Z) →
          river_lag_1 m lr fdate = pred_river_level r) ∧
       (prior = [] → river_lag_1 m lr fdate = lr)) ∧
    (∀ row, df !! 0%nat = Some row → river_lag_1 m lr (m_date row) = lr) ∧
    (∀ r v, last (read_hist w) = Some r → h_river_level r = Some v → lr = v) ∧
    (∀ r, last (read_hist w) = Some r → h_river_level r = None → lr = 0%Q) ∧
    (read_hist w = [] → lr = 0%Q) ∧
    (∀ r r', last (read_hist w) = Some r → r' ∈ read_hist w →
       (h_date r' ≤ h_date r)%Z).
Proof.
  intros Hmain.
  destruct (flood_main_inv w w' Hmain)
    as (df_local & df_up & df_river & loaded & Hl & Hu & Hr & Hm & ->).
  exists df_local, df_up, df_river, loaded.
  split; [done|]. split; [done|]. split; [done|]. split; [done|].
  intros m lr df loop.
  destruct (last_river_cases (read_hist w)) as (Hsome & Hnone & Hnil).
  split; [|split; [|split; [|split; [|split; [|split]]]]].
  - cbn [write_flood_forecast flood_forecast]. unfold loop. by rewrite take_ge.
  - intros k row Hrow fdate prior feat.
    split; [|split; [|split; [|split; [|split]]]].
    + unfold loop. by rewrite (take_S_r _ _ _ Hrow), foldl_snoc.
    + unfold feat, features. by simplify_map_eq.
    + intros clf feat_order Hum. unfold loop at 1. rewrite take_ge by done.
      rewrite (out_rows_loop_lookup _ _ _ _ _ k row) by done.
      fold (loop k). rewrite Hum. cbn [step out_rows]. by rewrite last_snoc.
    + intros d Hd Hmax. by apply river_lag_1_prior.
    + intros Hnodup r Hr' Hlt Hmax. subst m.
      destruct (river_lag_1_prior df_river lr fdate (p_date r)) as (r' & Hlast & ->).
      * apply list_elem_of_filter. split; [done|]. by apply list_elem_of_fmap_2.
      * intros d' Hd'. apply list_elem_of_filter in Hd' as [Hlt' Hd'].
        apply list_elem_of_fmap in Hd' as (r' & -> & Hr''). by apply Hmax.
      * apply last_Some_elem_of, list_elem_of_filter in Hlast as [Hdate Hr''].
        f_equal. by eapply (NoDup_key_inj p_date df_river).
    + intros Hnone'. by apply river_lag_1_no_prior.
  - intros row Hrow. apply river_lag_1_no_prior.
    assert (head df = Some row) as Hhead by (by destruct df).
    apply merged_head in Hhead as (r0 & Hr0 & ->).
    unfold load_river_preds in Hr.
    destruct (predicted_river_level w) as [[|x df0]|]; try discriminate.
    injection Hr as <-.
    apply filter_none. intros d Hd.
    apply list_elem_of_fmap in Hd as (r & -> & Hr').
    pose proof (sort_values_head_min p_date (x :: df0) r0 r Hr0 Hr'). lia.
  - exact Hsome.
  - exact Hnone.
  - exact Hnil.
  - intros r r' Hlast Hr'. unfold read_hist in *.
    destruct (cleaned_data w) as [hist|]; [|done].
    apply sort_values_last_max in Hlast as [_ Hmax]. apply Hmax.
    unfold sort_values in Hr'. by rewrite merge_sort_Permutation in Hr'.
Qed.

End river_lag.

Lemma nearest_prior_river_lag_witness :
  let w := dry_spell_after_stage1 in
  ∃ df_river out,
    load_river_preds w = Ok df_river ∧
    flood_forecast (run_stages (ext := reference_externals) dry_spell_world).1 = Some out ∧
    ∀ row, merged df_river (sort_values fc_date (daily 20000 [0; 0; 0; 0; 0]%Q))
                  (sort_values fc_date (daily 20000 [0; 0; 0; 0; 0]%Q)) !! 0%nat = Some row →
      river_lag_1 (pred_river_map df_river) (last_river (read_hist w)) (m_date row)
      = last_river (read_hist w).
Proof.
  intros w.
  destruct (nearest_prior_river_lag (ext := reference_externals) w
              (run_stages (ext := reference_externals) dry_spell_world).1)
    as (df_local & df_up & df_river & loaded & Hl & Hu & Hr & _ & Hout & _ & Hfirst & _).
  - vm_compute. reflexivity.
  - exists df_river. eexists. split; [exact Hr|]. split; [exact Hout|].
    assert (df_local = sort_values fc_date (daily 20000 [0; 0; 0; 0; 0]%Q)) as E1
      by (symmetry; apply (f_equal (λ r, match r with Ok a => a | Raise _ => [] end) Hl)).
    assert (df_up = sort_values fc_date (daily 20000 [0; 0; 0; 0; 0]%Q)) as E2
      by (symmetry; apply (f_equal (λ r, match r with Ok a => a | Raise _ => [] end) Hu)).
    rewrite E1, E2 in Hfirst. exact Hfirst.
Defined.

(** The wording of C5 fails on a history whose last row has no river level:
    the gauge read 350.0 the day before, which is the last known level, but
    the river lag of the first horizon day is 0.0. *)
Lemma last_known_level_counterexample :
  let w := gauge_gap_after_stage1 in
  ∃ df_river r0,
    predict_river_level.main (ext := reference_externals) gauge_gap_world = Ok w ∧
    (run_stages (ext := reference_externals) gauge_gap_world).2 = None ∧
    load_river_preds w = Ok df_river ∧ head df_river = Some r0 ∧
    spec_last_known_level (read_hist w) = Some 350%Q ∧
    last_river (read_hist w) = 0%Q ∧
    river_lag_1 (pred_river_map df_river) (last_river (read_hist w)) (p_date r0) = 0%Q ∧
    ¬ (river_lag_1 (pred_river_map df_river) (last_river (read_hist w)) (p_date r0)
       == 350)%Q.
Proof.
  intros w. eexists _, _. split; [vm_compute; reflexivity|].
  split; [vm_compute; reflexivity|]. split; [vm_compute; reflexivity|].
  split; [reflexivity|]. split; [vm_compute; reflexivity|].
  split; [vm_compute; reflexivity|]. split; [vm_compute; reflexivity|].
  vm_compute. discriminate.
Qed.

(** ** PredictorCapability resolution *)

Section capability.
Context {ext : Externals}.

(** Stage 1 raises only from loading its artifacts. *)
Lemma river_main_loaded (w : World) loaded :
  predict_river_level.load_model_and_feats w = Ok loaded →
  predict_river_level.main w =
    Ok (write_predicted_river_level w
          (predict_river_level.preds
             (predict_river_level.run_loop (use_model loaded) w
                (length (predict_river_level.horizon_rows w))))).
Proof. intros Hload. unfold predict_river_level.main. by rewrite Hload. Qed.




End capability.



(** ** Missing input tables *)

Section missing_inputs.
Context {ext : Externals}.

(** Without a historical table both stages seed from zeros. *)
Lemma read_hist_absent (w : World) :
  cleaned_data w = None →
  read_hist w = [] ∧
  predict_river_level.initial_state w =
    {| predict_river_level.up_lags := replicate 7 0%Q;
       predict_river_level.river_prev := 0%Q;
       predict_river_level.preds := [] |} ∧
  initial_state (read_hist w) =
    {| up_lags := replicate 7 0%Q; local_lags := replicate 7 0%Q; out_rows := [] |} ∧
  last_river (read_hist w) = 0%Q.
Proof.
  intros Hnone. unfold predict_river_level.initial_state, read_hist.
  by rewrite Hnone.
Qed.

(** C8, as the code has it: without the local-forecast table stage 2 stops
    with FileNotFoundError before it writes anything, so a run ends with an
    error and the flood output untouched; stage 1 stops on no missing table
    (only on an artifact that fails to load), and a missing historical table
    stops neither stage: both seed from zeros. *)
Theorem missing_input_abort (w : World) :
  (forecast_rainfall w = None →
     main w = Raise (FileNotFoundError LOCAL_FC) ∧
     ∃ e, (run_stages w).2 = Some e ∧
          flood_forecast (run_stages w).1 = flood_forecast w) ∧
  (∀ loaded, predict_river_level.load_model_and_feats w = Ok loaded →
     ∃ rows, predict_river_level.main w = Ok (write_predicted_river_level w rows)) ∧
  (cleaned_data w = None →
     read_hist w = [] ∧
     ∀ df_local df_up df_river loaded,
       load_local_forecast w = Ok df_local →
       load_upstream_forecast w = Ok df_up →
       load_river_preds w = Ok df_river →
       load_model_and_feats w = Ok loaded →
       ∃ rows, main w = Ok (write_flood_forecast w rows) ∧
               length rows = length (merged df_river df_local df_up)).
Proof.
  split; [|split].
  - intros Hnone.
    assert (∀ w0, forecast_rainfall w0 = None →
              main w0 = Raise (FileNotFoundError LOCAL_FC)) as Hstop.
    { intros w0 Hw0. unfold main, load_local_forecast. by rewrite Hw0. }
    split; [by apply Hstop|].
    unfold run_stages.
    destruct (predict_river_level.main w) as [w1|e] eqn:Hriver.
    + unfold predict_river_level.main in Hriver.
      destruct (predict_river_level.load_model_and_feats w); [|discriminate].
      cbn in Hriver. injection Hriver as <-.
      rewrite Hstop by done. by eexists.
    + by eexists.
  - intros loaded Hload. eexists. by apply river_main_loaded.
  - intros Hnone. split; [by apply read_hist_absent|].
    intros df_local df_up df_river loaded Hl Hu Hr Hm.
    unfold main. rewrite Hl, Hu, Hr, Hm. cbn. eexists. split; [reflexivity|].
    by rewrite out_rows_length.
Qed.

End missing_inputs.

Lemma missing_input_abort_witness :
  main (ext := reference_externals) no_local_forecast_world
    = Raise (FileNotFoundError "forecast_rainfall.csv") ∧
  ∃ e, (run_stages (ext := reference_externals) no_local_forecast_world).2 = Some e ∧
       flood_forecast (run_stages (ext := reference_externals) no_local_forecast_world).1
       = None.
Proof.
  exact (proj1 (missing_input_abort (ext := reference_externals) no_local_forecast_world)
           eq_refl).
Defined.

(** The wording of C8 fails on both tables.  Without the historical table
    the run ends without error and both stages write 5 rows; without the
    local-forecast table stage 1 has written its 5 rows before stage 2
    stops. *)
Lemma missing_input_counterexample :
  cleaned_data no_history_world = None ∧
  (run_stages (ext := reference_externals) no_history_world).2 = None ∧
  (length <$> predicted_river_level
                (run_stages (ext := reference_externals) no_history_world).1) = Some 5%nat ∧
  (length <$> flood_forecast
                (run_stages (ext := reference_externals) no_history_world).1) = Some 5%nat ∧
  forecast_rainfall no_local_forecast_world = None ∧
  (run_stages (ext := reference_externals) no_local_forecast_world).2
    = Some (FileNotFoundError "forecast_rainfall.csv") ∧
  (length <$> predicted_river_level
                (run_stages (ext := reference_externals) no_local_forecast_world).1)
    = Some 5%nat.
Proof. repeat (split; [by vm_compute|]). by vm_compute. Qed.

(** ** Degraded mode: no upstream forecast *)

Lemma filter_unique {A} (key : A → Z) (l : list A) (d : Z) :
  NoDup (map key l) → d ∈ map key l →
  ∃ x, x ∈ l ∧ filter (λ r, key r = d) l = [x].
Proof.
  induction l as [|a l IH]; intros Hnd Hd; [by apply not_elem_of_nil in Hd|].
  cbn [map] in Hnd, Hd. apply NoDup_cons in Hnd as [Ha Hnd].
  destruct (decide (key a = d)) as [Heq|Hne].
  - exists a. split; [apply list_elem_of_here|].
    rewrite filter_cons_True by done. f_equal.
    apply filter_none. intros x Hx Hkx. apply Ha.
    rewrite Heq, <- Hkx. by apply list_elem_of_fmap_2.
  - apply elem_of_cons in Hd as [Hd|Hd]; [congruence|].
    destruct (IH Hnd Hd) as (x & Hx & Hf). exists x.
    split; [by apply list_elem_of_further|].
    by rewrite filter_cons_False.
Qed.



Section degraded.
Context {ext : Externals}.

Lemma river_preds_dates um (rows : list FcRow) (st : predict_river_level.LoopState) :
  map p_date (predict_river_level.preds (foldl (predict_river_level.step um) st rows))
  = (map p_date (predict_river_level.preds st) ++ map fc_date rows)%list.
Proof.
  revert st. induction rows as [|row rows IH]; intros st.
  - cbn. by rewrite app_nil_r.
  - cbn [foldl]. rewrite IH. cbn [predict_river_level.step predict_river_level.preds].
    rewrite map_app, <- (assoc_L (++)). reflexivity.
Qed.



(** What stage 1 has written when it returns. *)
Lemma river_main_inv (w w1 : World) :
  predict_river_level.main w = Ok w1 →
  ∃ preds1, w1 = write_predicted_river_level w preds1 ∧
            length preds1 = length (predict_river_level.horizon_rows w) ∧
            map p_date preds1 = map fc_date (predict_river_level.horizon_rows w).
Proof.
  intros Hmain.
  destruct (predict_river_level.load_model_and_feats w) as [loaded|e] eqn:Hload.
  - rewrite (river_main_loaded w loaded Hload) in Hmain. injection Hmain as <-.
    eexists. split; [reflexivity|]. split.
    + by apply preds_run_loop_length.
    + unfold predict_river_level.run_loop. rewrite river_preds_dates, take_ge by done.
      done.
  - unfold predict_river_level.main in Hmain. by rewrite Hload in Hmain.
Qed.



End degraded.



(** ** Sample runs *)

(** The dry spell of the specification's end-to-end example: level 350.0,
    upstream rain 2.0 in the history, five dry days.  The heuristic writes 5
    rows of class No. *)
Example dry_spell_run :
  map risk_class
      (default [] (flood_forecast (run_stages (ext := reference_externals)
                                     dry_spell_world).1))
  = ["No"; "No"; "No"; "No"; "No"].
Proof. by vm_compute. Qed.

Example river_lag_1_sample :
  let df_river := [{| p_date := 3; pred_river_level := 350 |};
                   {| p_date := 5; pred_river_level := 351 |};
                   {| p_date := 8; pred_river_level := 352 |}] in
  river_lag_1 (pred_river_map df_river) 349 3 = 349%Q ∧
  river_lag_1 (pred_river_map df_river) 349 5 = 350%Q ∧
  river_lag_1 (pred_river_map df_river) 349 8 = 351%Q ∧
  river_lag_1 (pred_river_map df_river) 349 20 = 352%Q.
Proof. by vm_compute. Qed.

Example heuristic_probability_sample :
  (heuristic_probability 2 1 352.5 349.5 == 0.229)%Q ∧
  (heuristic_probability 20 0 349 349.5 == 1)%Q ∧
  (heuristic_probability (-1) 0 349 349.5 == 0)%Q.
Proof. by vm_compute. Qed.

(** Both stage-2 lag lists are lag buffers of 7 entries fed with the day's
    rains. *)
Lemma flood_lags_push_all {ext : Externals} um (m : gmap Z Q) (lr : Q)
    (df : list MergedRow) (st : LoopState) :
  up_lags (foldl (step um m lr) st df)
    = push_all (map m_upstream_rain df) (up_lags st) ∧
  local_lags (foldl (step um m lr) st df)
    = push_all (map m_local_rain df) (local_lags st).
Proof.
  revert st. induction df as [|row df IH]; intros st; [done|].
  cbn [foldl map]. destruct (IH (step um m lr st row)) as [-> ->]. done.
Qed.

Lemma flood_seed_lengths {ext : Externals} (hist : list HistRow) :
  length (up_lags (initial_state hist)) = 7%nat ∧
  length (local_lags (initial_state hist)) = 7%nat.
Proof. done. Qed.

(** The first two levels of the dry run still carry the historical upstream
    rain and move away from the baseline. *)
Example river_dry_run_first_steps :
  let out := predict_river_level.preds
               (predict_river_level.run_loop (ext := reference_externals) None
                  baseline_world 5) in
  ∃ o0 o1, out !! 0%nat = Some o0 ∧ out !! 1%nat = Some o1 ∧
    (pred_river_level o0 == 349.788)%Q ∧ (pred_river_level o1 == 349.932)%Q ∧
    (Qabs (pred_river_level o0 - 349.5) < Qabs (pred_river_level o1 - 349.5))%Q.
Proof.
  intros out.
  eexists _, _. split; [reflexivity|]. split; [reflexivity|].
  repeat split; by vm_compute.
Qed.

(** ** When the baseline is taken *)

Lemma py_sum_nonneg_from (l : list Q) (acc : Q) :
  Forall (λ v, 0 <= v)%Q l → (acc <= foldl Qplus acc l)%Q.
Proof.
  revert acc. induction l as [|v l IH]; intros acc Hl; [apply Qle_refl|].
  apply Forall_cons in Hl as [Hv Hl]. cbn [foldl].
  eapply Qle_trans; [|by apply IH]. lra.
Qed.

Lemma rollingSum_nonneg (lags : list Q) (k : nat) :
  Forall (λ v, 0 <= v)%Q lags → (0 <= rollingSum lags k)%Q.
Proof.
  intros Hl. unfold rollingSum, py_sum.
  apply py_sum_nonneg_from. by apply Forall_take.
Qed.

Lemma push_nonneg (v : Q) (lags : list Q) :
  (0 <= v)%Q → Forall (λ v, 0 <= v)%Q lags → Forall (λ v, 0 <= v)%Q (push v lags).
Proof.
  intros Hv Hl. unfold push. apply Forall_cons. split; [done|].
  rewrite removelast_take. by apply Forall_take.
Qed.

(** With rains and levels that are not negative, the heuristic level is
    positive after every step, so the baseline can only be the base of the
    first step, and only when the run starts from level 0. *)
Lemma river_baseline_only_first_step {ext : Externals} (w : World) (k : nat) :
  Forall (λ r, 0 <= fc_rain r)%Q (predict_river_level.horizon_rows w) →
  Forall (λ r, 0 <= h_upstream_rain r)%Q (read_hist w) →
  (0 <= last_river (read_hist w))%Q →
  (k < length (predict_river_level.horizon_rows w))%nat →
  let st := predict_river_level.run_loop None w (S k) in
  Forall (λ v, 0 <= v)%Q (predict_river_level.up_lags st) ∧
  (0 < predict_river_level.river_prev st)%Q.
Proof.
  intros Hrain Hhist Hlevel Hk.
  assert (Forall (λ v, 0 <= v)%Q
            (predict_river_level.up_lags (predict_river_level.initial_state w)))
    as Hseed.
  { unfold predict_river_level.initial_state.
    cbn [predict_river_level.up_lags]. apply Forall_replicate.
    destruct (last (read_hist w)) as [r|] eqn:Hlast; [|apply Qle_refl].
    rewrite Forall_forall in Hhist. by apply Hhist, last_Some_elem_of. }
  assert (∀ st row, row ∈ predict_river_level.horizon_rows w →
            Forall (λ v, 0 <= v)%Q (predict_river_level.up_lags st) →
            (0 <= predict_river_level.river_prev st)%Q →
            Forall (λ v, 0 <= v)%Q
              (predict_river_level.up_lags (predict_river_level.step None st row)) ∧
            (0 < predict_river_level.river_prev (predict_river_level.step None st row))%Q)
    as Hstep.
  { intros st row Hrow Hlags Hprev.
    rewrite Forall_forall in Hrain. specialize (Hrain row Hrow).
    pose proof (push_nonneg (fc_rain row) _ Hrain Hlags) as Hpush.
    split; [exact Hpush|].
    cbn [predict_river_level.step predict_river_level.river_prev].
    pose proof (rollingSum_nonneg _ 3 Hpush) as Hroll.
    unfold predict_river_level.heuristic_level.
    destruct (Qeq_dec (predict_river_level.river_prev st) 0); lra. }
  induction k as [|k IH].
  - row_at (predict_river_level.horizon_rows w) 0 row Hrow.
    cbv zeta. rewrite (run_loop_S _ _ _ _ Hrow).
    apply Hstep; [by eapply list_elem_of_lookup_2 | exact Hseed | exact Hlevel].
  - row_at (predict_river_level.horizon_rows w) (S k) row Hrow.
    cbv zeta. rewrite (run_loop_S _ _ _ _ Hrow).
    destruct IH as [Hlags Hprev]; [lia|].
    apply Hstep; [by eapply list_elem_of_lookup_2 | exact Hlags | lra].
Qed.

(** * Further properties of the two stages *)

(** ** What a run reads and writes *)

Section run_effects.
Context {ext : Externals}.

(** Stage 1 reads no output file: what it computes is not changed by what
    either stage wrote before. *)
Lemma river_main_after_river (w : World) (rows : list PredRow) :
  predict_river_level.main (write_predicted_river_level w rows)
  = predict_river_level.main w.
Proof.
  unfold predict_river_level.main.
  change (predict_river_level.load_model_and_feats (write_predicted_river_level w rows))
    with (predict_river_level.load_model_and_feats w).
  by destruct (predict_river_level.load_model_and_feats w).
Qed.

Lemma river_main_after_flood (w w1 : World) (out : list ForecastRow) :
  predict_river_level.main w = Ok w1 →
  predict_river_level.main (write_flood_forecast w1 out)
  = Ok (write_flood_forecast w1 out).
Proof.
  unfold predict_river_level.main.
  change (predict_river_level.load_model_and_feats (write_flood_forecast w1 out))
    with (predict_river_level.load_model_and_feats w1).
  destruct (predict_river_level.load_model_and_feats w) as [loaded|] eqn:Hload;
    [|discriminate].
  cbn. intros [= <-].
  change (predict_river_level.load_model_and_feats (write_predicted_river_level w _))
    with (predict_river_level.load_model_and_feats w).
  rewrite Hload. reflexivity.
Qed.

(** Stage 2 does not read its own output file. *)
Lemma flood_main_after_flood (w : World) (out : list ForecastRow) :
  main (write_flood_forecast w out) = main w.
Proof.
  unfold main.
  change (load_local_forecast (write_flood_forecast w out)) with (load_local_forecast w).
  change (load_upstream_forecast (write_flood_forecast w out))
    with (load_upstream_forecast w).
  change (load_river_preds (write_flood_forecast w out)) with (load_river_preds w).
  change (load_model_and_feats (write_flood_forecast w out)) with (load_model_and_feats w).
  destruct (load_local_forecast w); [|done].
  destruct (load_upstream_forecast w); [|done].
  destruct (load_river_preds w); [|done].
  by destruct (load_model_and_feats w).
Qed.

(** X1: running the two stages again on the files a run left behind ends
    the same way and leaves exactly the same files. *)
Theorem run_stages_idempotent (w : World) :
  run_stages (run_stages w).1 = run_stages w.
Proof.
  unfold run_stages at 2 3.
  destruct (predict_river_level.main w) as [w1|e] eqn:Hriver.
  - pose proof Hriver as Hw1. unfold predict_river_level.main in Hw1.
    destruct (predict_river_level.load_model_and_feats w) as [loaded|]; [|discriminate].
    cbn in Hw1. injection Hw1 as Hw1.
    assert (predict_river_level.main w1 = Ok w1) as Hagain.
    { rewrite <- Hriver, <- Hw1. apply river_main_after_river. }
    destruct (main w1) as [w2|e'] eqn:Hflood.
    + pose proof Hflood as Hw2. unfold main in Hw2.
      destruct (load_local_forecast w1); [|discriminate].
      destruct (load_upstream_forecast w1); [|discriminate].
      destruct (load_river_preds w1); [|discriminate].
      destruct (load_model_and_feats w1); [|discriminate].
      cbn in Hw2. injection Hw2 as <-.
      cbn [fst]. unfold run_stages.
      rewrite (river_main_after_flood w w1 _ Hriver).
      by rewrite flood_main_after_flood, Hflood.
    + cbn [fst]. unfold run_stages.
      by rewrite Hagain, Hflood.
  - cbn [fst]. unfold run_stages. by rewrite Hriver.
Qed.

(** X2: a run never changes an input table, a model artifact or the clock;
    when it ends with an error the flood forecast file is as it was, and
    when stage 1 itself raised so is the river prediction file. *)
Theorem run_stages_frame (w : World) :
  let w' := (run_stages w).1 in
  cleaned_data w' = cleaned_data w ∧
  forecast_rainfall w' = forecast_rainfall w ∧
  upstream_forecast_gfs w' = upstream_forecast_gfs w ∧
  river_model w' = river_model w ∧
  river_feature_order w' = river_feature_order w ∧
  flood_model w' = flood_model w ∧
  flood_feature_order w' = flood_feature_order w ∧
  utc_today w' = utc_today w ∧
  (∀ e, (run_stages w).2 = Some e → flood_forecast w' = flood_forecast w) ∧
  (∀ e, predict_river_level.main w = Raise e → w' = w).
Proof.
  unfold run_stages.
  destruct (predict_river_level.main w) as [w1|e] eqn:Hriver.
  - unfold predict_river_level.main in Hriver.
    destruct (predict_river_level.load_model_and_feats w) as [loaded|]; [|discriminate].
    cbn in Hriver. injection Hriver as <-.
    destruct (main _) as [w2|e] eqn:Hflood.
    + unfold main in Hflood.
      destruct (load_local_forecast _); [|discriminate].
      destruct (load_upstream_forecast _); [|discriminate].
      destruct (load_river_preds _); [|discriminate].
      destruct (load_model_and_feats _); [|discriminate].
      cbn in Hflood. injection Hflood as <-.
      cbn. repeat split; done.
    + cbn. repeat split; done.
  - cbn. repeat split; done.
Qed.

End run_effects.

(** ** The rows stage 1 writes *)

Lemma by_date_Sorted_dates {A} (key : A → Z) (l : list A) :
  StronglySorted (by_date key) l → StronglySorted Z.le (map key l).
Proof. apply StronglySorted_fmap. by unfold by_date. Qed.

Lemma StronglySorted_take {A} (R : relation A) (n : nat) (l : list A) :
  StronglySorted R l → StronglySorted R (take n l).
Proof.
  intros Hs. rewrite <- (take_drop n l) in Hs.
  by apply StronglySorted_app_1_l in Hs.
Qed.

(** Sorting leaves a table in strict date order as it is. *)
Lemma sort_values_sorted_id {A} (key : A → Z) (df : list A) :
  StronglySorted (by_date key) df → NoDup (map key df) →
  sort_values key df = df.
Proof.
  intros Hsorted Hnd. unfold sort_values.
  apply (StronglySorted_unique_strong (by_date key)).
  - intros x1 x2 Hx1 Hx2 H12 H21. unfold by_date in *.
    rewrite merge_sort_Permutation in Hx1.
    apply (NoDup_key_inj key df); [done | done | done | lia].
  - apply StronglySorted_merge_sort; apply _.
  - done.
  - apply merge_sort_Permutation.
Qed.

Section river_rows.
Context {ext : Externals}.

Lemma horizon_rows_sorted (w : World) :
  StronglySorted (by_date fc_date) (predict_river_level.horizon_rows w).
Proof.
  unfold predict_river_level.horizon_rows, sort_values.
  apply StronglySorted_take, StronglySorted_merge_sort; apply _.
Qed.

(** X5: whatever the mode, stage 1 writes one row per row of its horizon
    table, at most [HORIZON] = 5 of them, in ascending date order.  With an
    upstream forecast on disk these are its earliest dates: the table's dates
    are the written ones followed by dates that are not earlier. *)
Theorem river_output_shape (w w' : World) (out : list PredRow) :
  predict_river_level.main w = Ok w' →
  predicted_river_level w' = Some out →
  (length out ≤ predict_river_level.HORIZON)%nat ∧
  map p_date out = map fc_date (predict_river_level.horizon_rows w) ∧
  StronglySorted Z.le (map p_date out) ∧
  (∀ fc, upstream_forecast_gfs w = Some fc →
     length out = (length fc `min` predict_river_level.HORIZON)%nat ∧
     ∃ later, map fc_date fc ≡ₚ (map p_date out ++ later)%list ∧
              ∀ d d', d ∈ map p_date out → d' ∈ later → (d ≤ d')%Z).
Proof.
  intros Hmain Hout.
  destruct (predict_river_level.load_model_and_feats w) as [loaded|] eqn:Hload.
  2:{ unfold predict_river_level.main in Hmain. by rewrite Hload in Hmain. }
  rewrite (river_main_loaded w loaded Hload) in Hmain. injection Hmain as <-.
  unfold write_predicted_river_level in Hout. cbn [predicted_river_level] in Hout.
  injection Hout as <-.
  assert (map p_date (predict_river_level.preds
            (predict_river_level.run_loop (use_model loaded) w
               (length (predict_river_level.horizon_rows w))))
          = map fc_date (predict_river_level.horizon_rows w)) as Hdates.
  { unfold predict_river_level.run_loop. rewrite river_preds_dates.
    by rewrite take_ge by lia. }
  split; [|split; [exact Hdates|split]].
  - rewrite preds_run_loop_length by lia.
    unfold predict_river_level.horizon_rows. rewrite length_take. lia.
  - rewrite Hdates. apply by_date_Sorted_dates, horizon_rows_sorted.
  - intros fc Hfc. split.
    + rewrite preds_run_loop_length by lia.
      by destruct (horizon_rows_upstream w fc Hfc) as [_ ->].
    + rewrite Hdates.
      unfold predict_river_level.horizon_rows,
        predict_river_level.load_upstream_forecast. rewrite Hfc.
      set (sorted := sort_values fc_date (sort_values fc_date fc)).
      exists (map fc_date (drop predict_river_level.HORIZON sorted)). split.
      * rewrite <- map_app, take_drop. unfold sorted, sort_values.
        apply fmap_Permutation. by rewrite !merge_sort_Permutation.
      * intros d d' Hd Hd'.
        apply list_elem_of_fmap in Hd as (r & -> & Hr).
        apply list_elem_of_fmap in Hd' as (r' & -> & Hr').
        assert (StronglySorted (by_date fc_date) sorted) as Hs
          by (apply StronglySorted_merge_sort; apply _).
        rewrite <- (take_drop predict_river_level.HORIZON sorted) in Hs.
        by eapply (StronglySorted_app_1_elem_of (by_date fc_date)).
Qed.

(** X6: with neither forecast table on disk and no history, the heuristic
    of stage 1 writes five rows dated today to today+4, each at level
    0.6 * 349.5 = 209.7. *)
Theorem river_cold_start (w w' : World) (out : list PredRow) :
  upstream_forecast_gfs w = None →
  forecast_rainfall w = None →
  cleaned_data w = None →
  river_model w = Missing ∨ river_feature_order w = Missing →
  predict_river_level.main w = Ok w' →
  predicted_river_level w' = Some out →
  map p_date out = map (λ i, utc_today w + Z.of_nat i)%Z (seq 0 5) ∧
  Forall (λ r, pred_river_level r == 209.7)%Q out.
Proof.
  intros Hup Hlocal Hhist Hmode Hmain Hout.
  rewrite (main_heuristic w Hmode) in Hmain. injection Hmain as <-.
  unfold write_predicted_river_level in Hout. cbn [predicted_river_level] in Hout.
  injection Hout as <-.
  assert (predict_river_level.horizon_rows w
          = map (λ i, {| fc_date := utc_today w + Z.of_nat i; fc_rain := 0%Q |})
                (seq 0 5)) as Hrows.
  { unfold predict_river_level.horizon_rows,
      predict_river_level.load_upstream_forecast.
    rewrite Hup, Hlocal.
    rewrite sort_values_sorted_id; [done | |].
    - cbn.
      repeat (apply SSorted_cons;
              [|repeat (apply List.Forall_cons; [unfold by_date; cbn; lia|]);
                apply List.Forall_nil]).
      apply SSorted_nil.
    - rewrite map_map. cbn [fc_date].
      assert (Inj (=) (=) (λ i, utc_today w + Z.of_nat i)%Z) as Hinj
        by (intros i j Hij; lia).
      apply (NoDup_fmap_2 (λ i, utc_today w + Z.of_nat i)%Z), NoDup_seq. }
  unfold predict_river_level.run_loop, predict_river_level.initial_state, read_hist.
  rewrite Hrows, Hhist. split.
  - rewrite river_preds_dates, take_ge by done. cbn [predict_river_level.preds map app].
    by rewrite map_map.
  - apply (Forall_fmap pred_river_level (λ v, v == 209.7)%Q).
    vm_compute. repeat (constructor; [reflexivity|]). constructor.
Qed.

End river_rows.

(** ** The rows stage 2 writes *)

Lemma filter_at_most_one {A} (key : A → Z) (l : list A) (d : Z) :
  NoDup (map key l) →
  filter (λ r, key r = d) l = [] ∨ ∃ x, filter (λ r, key r = d) l = [x].
Proof.
  intros Hnd. destruct (decide (d ∈ map key l)) as [Hin|Hout].
  - right. destruct (filter_unique key l d Hnd Hin) as (x & _ & Hx). by exists x.
  - left. apply filter_none. intros x Hx Hk. apply Hout. rewrite <- Hk.
    by apply list_elem_of_fmap_2.
Qed.

(** X7: against a right table with unique dates a left merge keeps every
    left row exactly once and in order; the attached value is the rain of the
    right row of that date when there is one, and missing otherwise. *)
Theorem merge_left_unique_dates {A} (key : A → Z) (left : list A)
    (right : list FcRow) :
  NoDup (map fc_date right) →
  map fst (merge_left key left right) = left ∧
  Forall (λ x, match x.2 with
               | Some v => {| fc_date := key x.1; fc_rain := v |} ∈ right
               | None => key x.1 ∉ map fc_date right
               end) (merge_left key left right).
Proof.
  intros Hnd. split.
  - unfold merge_left. induction left as [|l left IH]; [done|].
    rewrite bind_cons, map_app, IH.
    by destruct (filter_at_most_one fc_date right (key l) Hnd) as [-> | [r ->]].
  - apply Forall_forall. intros [l [v|]] Hx; cbn.
    + apply elem_of_merge_left in Hx as [_ [(r & Hr & Hd & Hv) | [Hv _]]];
        [|discriminate]. cbn in *. injection Hv as ->. rewrite <- Hd. by destruct r.
    + apply elem_of_merge_left in Hx as [_ [(r & _ & _ & Hv) | [_ Hno]]];
        [discriminate|]. cbn in *. intros Hin.
      apply list_elem_of_fmap in Hin as (r & Hd & Hr). by eapply Hno.
Qed.

Lemma merge_left_fst_nodup {A} (key : A → Z) (left : list A) (right : list FcRow) :
  NoDup (map fc_date right) → map fst (merge_left key left right) = left.
Proof.
  intros Hnd. unfold merge_left. induction left as [|l left IH]; [done|].
  rewrite bind_cons, map_app, IH.
  by destruct (filter_at_most_one fc_date right (key l) Hnd) as [-> | [r ->]].
Qed.

Lemma merged_river_rows (df_river : list PredRow) (df_local df_up : list FcRow) :
  NoDup (map fc_date df_local) → NoDup (map fc_date df_up) →
  map (λ m, {| p_date := m_date m; pred_river_level := m_pred_river_level m |})
      (merged df_river df_local df_up) = df_river.
Proof.
  intros Hl Hu. unfold merged. rewrite map_map. cbn [m_date m_pred_river_level].
  transitivity (map fst (map fst (merge_left (λ x, p_date x.1)
                  (merge_left p_date df_river df_local) df_up))).
  - rewrite map_map. apply map_ext. by intros [[[d v] lo] uo].
  - by rewrite !merge_left_fst_nodup.
Qed.

Section flood_rows.
Context {ext : Externals}.

Lemma out_rows_river_rows um (m : gmap Z Q) (lr : Q) (df : list MergedRow)
    (st : LoopState) :
  map (λ row, {| p_date := date row; pred_river_level := out_pred_river_level row |})
      (out_rows (foldl (step um m lr) st df))
  = (map (λ row, {| p_date := date row; pred_river_level := out_pred_river_level row |})
         (out_rows st)
     ++ map (λ m, {| p_date := m_date m; pred_river_level := m_pred_river_level m |}) df)%list.
Proof.
  revert st. induction df as [|row df IH]; intros st.
  - cbn. by rewrite app_nil_r.
  - cbn [foldl]. rewrite IH. cbn [step out_rows].
    rewrite map_app, <- (assoc_L (++)). reflexivity.
Qed.

(** X8: when the forecast tables have unique dates, stage 2 writes exactly
    one row per stage-1 prediction, in ascending date order, carrying that
    prediction's date and level, in heuristic and in trained mode alike. *)
Theorem flood_output_rows (w w' : World) (out : list ForecastRow) (local : list FcRow) :
  main w = Ok w' →
  flood_forecast w' = Some out →
  forecast_rainfall w = Some local →
  NoDup (map fc_date local) →
  (∀ up, upstream_forecast_gfs w = Some up → NoDup (map fc_date up)) →
  ∃ preds, predicted_river_level w = Some preds ∧
    map (λ row, {| p_date := date row; pred_river_level := out_pred_river_level row |}) out
      = sort_values p_date preds ∧
    length out = length preds ∧
    StronglySorted Z.le (map date out).
Proof.
  intros Hmain Hout Hlocal Hnd Hndup.
  destruct (flood_main_inv w w' Hmain)
    as (df_local & df_up & df_river & loaded & Hl & Hu & Hr & Hm & ->).
  unfold write_flood_forecast in Hout. cbn [flood_forecast] in Hout.
  injection Hout as <-.
  unfold load_local_forecast in Hl. rewrite Hlocal in Hl. injection Hl as <-.
  assert (NoDup (map fc_date (sort_values fc_date local))) as Hndl.
  { unfold sort_values. by rewrite merge_sort_Permutation. }
  assert (NoDup (map fc_date df_up)) as Hndu.
  { unfold load_upstream_forecast, load_local_forecast in Hu. rewrite Hlocal in Hu.
    destruct (upstream_forecast_gfs w) as [up|] eqn:Hup.
    - injection Hu as <-. unfold sort_values. rewrite merge_sort_Permutation.
      by apply Hndup.
    - cbn in Hu. injection Hu as <-. by rewrite map_map. }
  unfold load_river_preds in Hr.
  destruct (predicted_river_level w) as [[|p ps]|] eqn:Hp; try discriminate.
  injection Hr as <-. exists (p :: ps). split; [done|].
  assert (map (λ row, {| p_date := date row;
                         pred_river_level := out_pred_river_level row |})
              (out_rows (foldl (step (use_model loaded)
                                  (pred_river_map (sort_values p_date (p :: ps)))
                                  (last_river (read_hist w)))
                               (initial_state (read_hist w))
                               (merged (sort_values p_date (p :: ps))
                                       (sort_values fc_date local) df_up)))
          = sort_values p_date (p :: ps)) as Hrows.
  { rewrite out_rows_river_rows. cbn [initial_state out_rows map app].
    by apply merged_river_rows. }
  split; [exact Hrows|]. split.
  - rewrite <- (length_map (λ row, {| p_date := date row;
                                      pred_river_level := out_pred_river_level row |})).
    rewrite Hrows. unfold sort_values. by rewrite merge_sort_Permutation.
  - pose proof (f_equal (map p_date) Hrows) as Hdates.
    rewrite map_map in Hdates. cbn [p_date] in Hdates.
    match goal with
    | |- StronglySorted _ ?l =>
        replace l with (map p_date (sort_values p_date (p :: ps)))
          by (rewrite <- Hdates; reflexivity)
    end.
    apply by_date_Sorted_dates. unfold sort_values.
    apply StronglySorted_merge_sort; apply _.
Qed.

End flood_rows.

(** ** Shape of the flood heuristic *)

Lemma py_max_mono (a b b' : Q) : (b <= b' → py_max a b <= py_max a b')%Q.
Proof. intros Hb. unfold py_max. destruct (Qlt_le_dec a b), (Qlt_le_dec a b'); lra. Qed.

Lemma np_clip_mono (x y lo hi : Q) :
  (lo <= hi → x <= y → np_clip x lo hi <= np_clip y lo hi)%Q.
Proof.
  intros Hlohi Hxy. unfold np_clip.
  destruct (Qlt_le_dec x lo), (Qlt_le_dec y lo);
    repeat (destruct (Qlt_le_dec hi _)); lra.
Qed.

Lemma classify_prob_mono (p q : Q) :
  (p <= q)%Q → (class_rank (classify_prob p) ≤ class_rank (classify_prob q))%nat.
Proof.
  intros Hpq.
  destruct (classify_prob_cases p) as [[Hp ->]|[[Hp ->]|[[Hp ->]|[Hp ->]]]];
    destruct (classify_prob_cases q) as [[Hq ->]|[[Hq ->]|[[Hq ->]|[Hq ->]]]];
    first [by vm_compute; lia | exfalso; lra].
Qed.

(** X10: more rain or a higher predicted level never lowers the heuristic
    flood probability, nor the risk class derived from it. *)
Theorem heuristic_risk_monotone (l l' u u' p p' : Q) :
  (l <= l')%Q → (u <= u')%Q → (p <= p')%Q →
  (heuristic_probability l u p 349.5 <= heuristic_probability l' u' p' 349.5)%Q ∧
  (class_rank (classify_prob (heuristic_probability l u p 349.5))
   ≤ class_rank (classify_prob (heuristic_probability l' u' p' 349.5)))%nat.
Proof.
  intros Hl Hu Hp.
  assert (heuristic_probability l u p 349.5
          <= heuristic_probability l' u' p' 349.5)%Q as Hmono.
  { unfold heuristic_probability. apply np_clip_mono; [lra|].
    pose proof (py_max_mono 0 (p - 349.5) (p' - 349.5)) as Hmax. lra. }
  split; [exact Hmono | by apply classify_prob_mono].
Qed.

(** X11: on a day without rain the heuristic risk is decided by the
    predicted level alone: No while 0.003 * (level - 349.5) is below 0.10
    (about 33.3 above the baseline), High from level 549.5 on; at or below
    the baseline the probability is 0. *)
Theorem heuristic_dry_day (l u p : Q) :
  (l == 0)%Q → (u == 0)%Q →
  ((p <= 349.5)%Q → (heuristic_probability l u p 349.5 == 0)%Q) ∧
  (classify_prob (heuristic_probability l u p 349.5) = "No"
     ↔ (0.003 * (p - 349.5) < 0.10)%Q) ∧
  (classify_prob (heuristic_probability l u p 349.5) = "High"
     ↔ (549.5 <= p)%Q).
Proof.
  intros Hl Hu.
  assert (349.5 <= p →
          (heuristic_probability l u p 349.5 == 0.003 * (p - 349.5)
           ∧ 0.003 * (p - 349.5) <= 1) ∨
          (heuristic_probability l u p 349.5 == 1 ∧ 1 < 0.003 * (p - 349.5)))%Q
    as Hhigh.
  { intros Hp. unfold heuristic_probability, py_max, np_clip.
    repeat (destruct (Qlt_le_dec _ _)); first [left; split; lra | right; split; lra]. }
  assert (p <= 349.5 → heuristic_probability l u p 349.5 == 0)%Q as Hlow.
  { intros Hp. unfold heuristic_probability, py_max, np_clip.
    repeat (destruct (Qlt_le_dec _ _)); lra. }
  split; [exact Hlow|].
  pose proof (heuristic_probability_bounds l u p 349.5) as Hb.
  destruct (Qlt_le_dec p 349.5) as [Hp|Hp].
  - assert (heuristic_probability l u p 349.5 == 0)%Q as H0 by (apply Hlow; lra).
    destruct (classify_prob_cases (heuristic_probability l u p 349.5))
      as [[Hc ->]|[[Hc ->]|[[Hc ->]|[Hc ->]]]]; (split; split; intros Hx);
      first [done | discriminate | exfalso; lra | lra].
  - destruct (Hhigh Hp) as [[Heq Hle] | [Heq Hgt]];
      destruct (classify_prob_cases (heuristic_probability l u p 349.5))
        as [[Hc ->]|[[Hc ->]|[[Hc ->]|[Hc ->]]]]; (split; split; intros Hx);
      first [done | discriminate | lra | exfalso; lra].
Qed.

(** ** The feature dict and the frame given to a trained model *)

Lemma feat_lags_inserts (name : string) (lags : list Q) (feat : gmap string Q) :
  feat_lags name lags feat =
  <[name +:+ "_lag_7" := lags !!! 6%nat]>
    (<[name +:+ "_lag_6" := lags !!! 5%nat]>
      (<[name +:+ "_lag_5" := lags !!! 4%nat]>
        (<[name +:+ "_lag_4" := lags !!! 3%nat]>
          (<[name +:+ "_lag_3" := lags !!! 2%nat]>
            (<[name +:+ "_lag_2" := lags !!! 1%nat]>
              (<[name +:+ "_lag_1" := lags !!! 0%nat]> feat)))))).
Proof. reflexivity. Qed.

Lemma dict_keys_acc (l acc : list string) :
  let keys := foldl (λ acc c, if decide (c ∈ acc) then acc else (acc ++ [c])%list) acc l in
  (NoDup acc → NoDup keys) ∧
  (∀ x, x ∈ keys ↔ x ∈ acc ∨ x ∈ l) ∧
  (NoDup (acc ++ l) → keys = (acc ++ l)%list).
Proof.
  revert acc. induction l as [|c l IH]; intros acc; cbn [foldl].
  - split; [done|]. split; [|by rewrite app_nil_r].
    intros x. rewrite elem_of_nil. tauto.
  - destruct (decide (c ∈ acc)) as [Hin|Hout].
    + destruct (IH acc) as (Hnd & Hel & Heq). split; [done|]. split.
      * intros x. rewrite Hel, elem_of_cons.
        split; [tauto|]. intros [?|[->|?]]; tauto.
      * intros Hbad. apply NoDup_app in Hbad as (_ & Hdisj & _).
        exfalso. apply (Hdisj c Hin). apply list_elem_of_here.
    + destruct (IH (acc ++ [c])%list) as (Hnd & Hel & Heq). split; [|split].
      * intros Hacc. apply Hnd. apply NoDup_app. split; [done|].
        split; [|apply NoDup_singleton].
        intros x Hx Hx'. apply list_elem_of_singleton in Hx' as ->. done.
      * intros x. rewrite Hel, elem_of_app, list_elem_of_singleton, elem_of_cons. tauto.
      * intros Hall. rewrite <- (assoc_L (++)) in Heq. cbn [app] in Heq.
        by apply Heq.
Qed.

(** X12: the keys of a dict comprehension over a list of names are the
    names without repetition, each at the place of its first occurrence: no
    name is lost, none is added, and a list without repetition is kept as
    it is. *)
Theorem dict_keys_spec (l : list string) :
  NoDup (dict_keys l) ∧
  (∀ x, x ∈ dict_keys l ↔ x ∈ l) ∧
  (NoDup l → dict_keys l = l) ∧
  dict_keys (dict_keys l) = dict_keys l ∧
  (∀ c l', c ∈ l → dict_keys (l ++ c :: l') = dict_keys (l ++ l')).
Proof.
  destruct (dict_keys_acc l []) as (Hnd & Hel & Heq).
  assert (NoDup (dict_keys l)) as Hnodup by (apply Hnd, NoDup_nil_2).
  split; [exact Hnodup|]. split; [|split; [|split]].
  - intros x. unfold dict_keys. rewrite Hel, elem_of_nil. tauto.
  - intros Hl. by apply Heq.
  - destruct (dict_keys_acc (dict_keys l) []) as (_ & _ & Heq').
    by apply Heq'.
  - intros c l' Hc. unfold dict_keys. rewrite !foldl_app. cbn [foldl].
    rewrite decide_True; [done|].
    destruct (dict_keys_acc l []) as (_ & Hel' & _). apply Hel'. by right.
Qed.

Section frames.
Context {ext : Externals}.

Lemma flood_features_dom (up local : list Q) (rl : Q) (d : Z) :
  dom (features up local rl d) = list_to_set flood_feature_names.
Proof.
  unfold features. rewrite !feat_lags_inserts. cbn [String.append].
  rewrite !dom_insert_L, dom_empty_L. cbn. set_solver.
Qed.

Lemma river_features_dom (lags : list Q) (r3 r5 r7 prev : Q) (d : Z) :
  dom (predict_river_level.features lags r3 r5 r7 prev d)
  = list_to_set river_feature_names.
Proof.
  unfold predict_river_level.features. rewrite !feat_lags_inserts.
  cbn [String.append]. rewrite !dom_insert_L, dom_empty_L. cbn. set_solver.
Qed.

(** What the stage-2 feature dict holds under each name. *)
Lemma flood_features_values (up local : list Q) (rl : Q) (d : Z) :
  let feat := features up local rl d in
  (∀ j, (j < 7)%nat →
     feat !! ("up_lag_" +:+ pretty (S j)) = Some (up !!! j) ∧
     feat !! ("local_lag_" +:+ pretty (S j)) = Some (local !!! j)) ∧
  feat !! "up_roll_3" = Some (rollingSum up 3) ∧
  feat !! "up_roll_5" = Some (rollingSum up 5) ∧
  feat !! "up_roll_7" = Some (rollingSum up 7) ∧
  feat !! "local_roll_3" = Some (rollingSum local 3) ∧
  feat !! "local_roll_5" = Some (rollingSum local 5) ∧
  feat !! "local_roll_7" = Some (rollingSum local 7) ∧
  feat !! "river_lag_1" = Some rl ∧
  feat !! "river_present" = Some (if Qlt_le_dec 0 rl then 1%Q else 0%Q) ∧
  feat !! "month" = Some (inject_Z (Timestamp_month d)) ∧
  feat !! "doy" = Some (inject_Z (Timestamp_dayofyear d)).
Proof.
  intros feat. subst feat. unfold features. rewrite !feat_lags_inserts.
  cbn [String.append]. split.
  - intros j Hj.
    destruct j as [|[|[|[|[|[|[|j]]]]]]]; try lia;
      (split; [by vm_compute | by vm_compute]).
  - repeat split; by simplify_map_eq.
Qed.

(** X13: in trained mode stage 2 gives the classifier a one-row frame
    whose columns are exactly the persisted feature names, in their order
    and with their repetitions; a column whose name is not one of the 24
    features of the dict holds 0.0, and the columns river_lag_1 and
    river_present hold the river lag of the day and its positivity flag. *)
Theorem flood_trained_frame (clf : FloodModel) (feat_order : list string)
    (m : gmap Z Q) (lr : Q) (st : LoopState) (row : MergedRow) :
  ∃ X : Frame,
    (flood_probability <$> last (out_rows (step (Some (clf, feat_order)) m lr st row)))
      = Some (clf X) ∧
    map fst X = feat_order ∧
    (∀ c v, (c, v) ∈ X → c ∉ flood_feature_names → v = 0%Q) ∧
    (∀ v, ("river_lag_1", v) ∈ X → v = river_lag_1 m lr (m_date row)) ∧
    (∀ v, ("river_present", v) ∈ X →
       v = if Qlt_le_dec 0 (river_lag_1 m lr (m_date row)) then 1%Q else 0%Q) ∧
    (∀ j v, (j < 7)%nat → ("up_lag_" +:+ pretty (S j), v) ∈ X →
       v = push (m_upstream_rain row) (up_lags st) !!! j) ∧
    (∀ j v, (j < 7)%nat → ("local_lag_" +:+ pretty (S j), v) ∈ X →
       v = push (m_local_rain row) (local_lags st) !!! j).
Proof.
  set (feat := features (push (m_upstream_rain row) (up_lags st))
                        (push (m_local_rain row) (local_lags st))
                        (river_lag_1 m lr (m_date row)) (m_date row)).
  exists (map (λ c, (c, feat_get feat c)) feat_order).
  pose proof (flood_features_values (push (m_upstream_rain row) (up_lags st))
                (push (m_local_rain row) (local_lags st))
                (river_lag_1 m lr (m_date row)) (m_date row)) as Hvals.
  cbv zeta in Hvals. fold feat in Hvals.
  destruct Hvals as (Hlags & _ & _ & _ & _ & _ & _ & Hrl & Hrp & _).
  assert (∀ c v, (c, v) ∈ map (λ c, (c, feat_get feat c)) feat_order →
                 v = feat_get feat c) as Hget.
  { intros c v Hin. apply list_elem_of_fmap in Hin as (c' & Heq & _).
    by injection Heq as -> ->. }
  split; [|split; [|split; [|split; [|split; [|split]]]]].
  - cbn [step out_rows]. by rewrite last_snoc.
  - rewrite map_map. cbn [fst]. apply map_id.
  - intros c v Hin Hc. rewrite (Hget c v Hin). unfold feat_get.
    assert (feat !! c = None) as ->; [|done].
    apply not_elem_of_dom. unfold feat. rewrite flood_features_dom.
    by rewrite elem_of_list_to_set.
  - intros v Hin. rewrite (Hget _ v Hin). unfold feat_get. by rewrite Hrl.
  - intros v Hin. rewrite (Hget _ v Hin). unfold feat_get. by rewrite Hrp.
  - intros j v Hj Hin. rewrite (Hget _ v Hin). unfold feat_get.
    by rewrite (proj1 (Hlags j Hj)).
  - intros j v Hj Hin. rewrite (Hget _ v Hin). unfold feat_get.
    by rewrite (proj2 (Hlags j Hj)).
Qed.

(** X14: in trained mode stage 1 gives the regressor a one-row frame whose
    columns are the persisted feature names without repetition, in order of
    first occurrence; a column whose name is not one of the 13 features of
    the dict holds 0.0, and the column river_lag_1 holds the previous
    level. *)
Theorem river_trained_frame (model : RiverModel) (feat_order : list string)
    (st : predict_river_level.LoopState) (row : FcRow) :
  ∃ X : Frame,
    predict_river_level.river_prev
      (predict_river_level.step (Some (model, feat_order)) st row) = model X ∧
    map fst X = dict_keys feat_order ∧
    NoDup (map fst X) ∧
    (∀ c, c ∈ map fst X ↔ c ∈ feat_order) ∧
    (∀ c v, (c, v) ∈ X → c ∉ river_feature_names → v = 0%Q) ∧
    (∀ v, ("river_lag_1", v) ∈ X → v = predict_river_level.river_prev st) ∧
    (∀ v, ("up_lag_1", v) ∈ X → v = fc_rain row).
Proof.
  set (lags := push (fc_rain row) (predict_river_level.up_lags st)).
  set (feat := predict_river_level.features lags (rollingSum lags 3)
                 (rollingSum lags 5) (rollingSum lags 7)
                 (predict_river_level.river_prev st) (fc_date row)).
  exists (map (λ c, (c, feat_get feat c)) (dict_keys feat_order)).
  assert (∀ c v, (c, v) ∈ map (λ c, (c, feat_get feat c)) (dict_keys feat_order) →
                 v = feat_get feat c) as Hget.
  { intros c v Hin. apply list_elem_of_fmap in Hin as (c' & Heq & _).
    by injection Heq as -> ->. }
  assert (map fst (map (λ c, (c, feat_get feat c)) (dict_keys feat_order))
          = dict_keys feat_order) as Hcols.
  { rewrite map_map. cbn [fst]. apply map_id. }
  destruct (dict_keys_acc feat_order []) as (Hnd & Hel & _).
  split; [reflexivity|]. split; [exact Hcols|]. rewrite Hcols.
  split; [apply Hnd, NoDup_nil_2|]. split; [|split; [|split]].
  - intros c. unfold dict_keys. rewrite Hel, elem_of_nil. tauto.
  - intros c v Hin Hc. rewrite (Hget c v Hin). unfold feat_get.
    assert (feat !! c = None) as ->; [|done].
    apply not_elem_of_dom. unfold feat. rewrite river_features_dom.
    by rewrite elem_of_list_to_set.
  - intros v Hin. rewrite (Hget _ v Hin). unfold feat_get, feat,
      predict_river_level.features. by simplify_map_eq.
  - intros v Hin. rewrite (Hget _ v Hin). unfold feat_get, feat,
      predict_river_level.features. rewrite feat_lags_inserts.
    cbn [String.append]. by simplify_map_eq.
Qed.

End frames.

(** X15: the dict of stage-1 predictions answers a date with the level of
    the last row of that date; its keys are the dates of the table; when the
    dates are unique, a date maps to a level exactly when the table has that
    row, and the dict has as many entries as the table has rows. *)
Theorem pred_river_map_spec (df_river : list PredRow) :
  (∀ d, pred_river_map df_river !! d
        = pred_river_level <$> last (filter (λ r, p_date r = d) df_river)) ∧
  (∀ d, d ∈ dom (pred_river_map df_river) ↔ d ∈ map p_date df_river) ∧
  (NoDup (map p_date df_river) →
     (∀ d v, pred_river_map df_river !! d = Some v
             ↔ {| p_date := d; pred_river_level := v |} ∈ df_river) ∧
     size (pred_river_map df_river) = length df_river).
Proof.
  split; [apply pred_river_map_lookup|]. split; [apply pred_river_map_dom|].
  intros Hnd. split.
  - intros d v. rewrite pred_river_map_lookup. split.
    + intros Hlook. apply fmap_Some in Hlook as (r & Hlast & ->).
      apply last_Some_elem_of, list_elem_of_filter in Hlast as [<- Hr].
      by destruct r.
    + intros Hin.
      destruct (filter_unique p_date df_river d Hnd) as (r & Hr & Hf).
      { by apply (list_elem_of_fmap_2' p_date _ _ _ Hin). }
      assert ({| p_date := d; pred_river_level := v |}
              ∈ filter (λ r, p_date r = d) df_river) as Hv
        by (by apply list_elem_of_filter).
      rewrite Hf in Hv. apply list_elem_of_singleton in Hv as <-.
      by rewrite Hf.
  - induction df_river as [|r df IH] using rev_ind; [done|].
    rewrite map_app in Hnd. apply NoDup_app in Hnd as (Hnd & Hdisj & _).
    rewrite pred_river_map_snoc, length_app, map_size_insert_None, IH by
      first [done | apply not_elem_of_dom; rewrite pred_river_map_dom;
                    intros Hin; apply (Hdisj _ Hin); apply list_elem_of_here].
    cbn. lia.
Qed.

(** X16: the flag river_present of the stage-2 feature dict is 1 exactly
    when the river lag is positive.  On a day with no earlier prediction in a
    run without river-level history the lag is the placeholder 0.0 and the
    flag is 0; on a day with an earlier prediction, positive predicted levels
    give flag 1. *)
Theorem river_present_flag {ext : Externals} (df_river : list PredRow) (lr : Q)
    (fdate : Z) (up local : list Q) :
  let rl := river_lag_1 (pred_river_map df_river) lr fdate in
  let feat := features up local rl fdate in
  (feat_get feat "river_present" = 1%Q ∨ feat_get feat "river_present" = 0%Q) ∧
  (feat_get feat "river_present" = 1%Q ↔ (0 < rl)%Q) ∧
  (∀ w, lr = last_river (read_hist w) → has_river_history w = false →
     filter (λ d, (d < fdate)%Z) (map p_date df_river) = [] →
     rl = 0%Q ∧ feat_get feat "river_present" = 0%Q) ∧
  (Forall (λ r, 0 < pred_river_level r)%Q df_river →
   filter (λ d, (d < fdate)%Z) (map p_date df_river) ≠ [] →
   feat_get feat "river_present" = 1%Q).
Proof.
  intros rl feat.
  assert (feat_get feat "river_present" = if Qlt_le_dec 0 rl then 1%Q else 0%Q)
    as Hflag.
  { unfold feat_get, feat, features. by simplify_map_eq. }
  split; [|split; [|split]].
  - rewrite Hflag. destruct (Qlt_le_dec 0 rl); tauto.
  - rewrite Hflag. destruct (Qlt_le_dec 0 rl) as [Hpos|Hneg]; split; try done.
    intros Hpos. exfalso. lra.
  - intros w -> Hhist Hnone.
    assert (rl = 0%Q) as Hrl.
    { unfold rl. rewrite river_lag_1_no_prior by done.
      unfold last_river, has_river_history in *.
      destruct (last (read_hist w)) as [r|]; [|done].
      cbn in Hhist. by destruct (h_river_level r). }
    split; [exact Hrl|]. rewrite Hflag, Hrl. done.
  - intros Hpos Hsome. rewrite Hflag.
    assert (0 < rl)%Q as Hrl; [|destruct (Qlt_le_dec 0 rl); [done | exfalso; lra]].
    destruct (filter (λ d, (d < fdate)%Z) (map p_date df_river)) as [|d0 ds] eqn:Hf;
      [done|].
    pose proof (StronglySorted_merge_sort Z.le (d0 :: ds)) as Hsorted.
    pose proof (merge_sort_Permutation Z.le (d0 :: ds)) as Hperm.
    destruct (last (merge_sort Z.le (d0 :: ds))) as [dmax|] eqn:Hlast.
    2:{ apply last_merge_sort_None in Hlast. discriminate. }
    apply last_merge_sort_max in Hlast as [Hin Hmax].
    destruct (river_lag_1_prior df_river lr fdate dmax) as (r & Hr & Hval).
    + by rewrite Hf.
    + intros d' Hd'. rewrite Hf in Hd'. by apply Hmax.
    + unfold rl. rewrite Hval.
      apply last_Some_elem_of, list_elem_of_filter in Hr as [_ Hr].
      rewrite Forall_forall in Hpos. by apply Hpos.
Qed.

(** * The callers of the stages *)

(** ** combine.py *)

Section combine_runner.
Context {S : Type} (subprocess_run : string → S → S * Z).

Lemma all_succeed_cons (s : S) (cmd : string) (cmds : list string) :
  (subprocess_run cmd s).2 = 0%Z →
  all_succeed subprocess_run (subprocess_run cmd s).1 cmds →
  all_succeed subprocess_run s (cmd :: cmds).
Proof.
  intros Hcmd Hrest [|i] c Hc; cbn in *.
  - by injection Hc as <-.
  - by apply Hrest.
Qed.

(** The loop either runs every command, or stops after the first command
    that returns a non-zero code. *)
Lemma run_each_outcome (cmds : list string) (p : combine.Process) :
  combine.exited p = None →
  let q := combine.run_each subprocess_run cmds p in
  (combine.exited q = None ∧
   all_succeed subprocess_run (combine.machine p) cmds ∧
   combine.machine q = machine_after subprocess_run (combine.machine p) cmds ∧
   combine.stdout q = (combine.stdout p ++ cmds ≫= banner)%list) ∨
  (∃ done cmd rest code,
     cmds = (done ++ cmd :: rest)%list ∧
     all_succeed subprocess_run (combine.machine p) done ∧
     subprocess_run cmd (machine_after subprocess_run (combine.machine p) done)
       = (combine.machine q, code) ∧
     code ≠ 0%Z ∧
     combine.exited q = Some code ∧
     combine.stdout q =
       (combine.stdout p ++ (done ≫= banner)
        ++ [""; "--- Running: " +:+ cmd; "--- Step failed: " +:+ cmd])%list).
Proof.
  revert p. induction cmds as [|cmd cmds IH]; intros p Hp.
  - left. cbn. split; [done|]. split; [|split; [done | by rewrite app_nil_r]].
    by intros i c Hc.
  - destruct (subprocess_run cmd (combine.machine p)) as [s code] eqn:Hrun.
    destruct (decide (code ≠ 0%Z)) as [Hcode|Hcode].
    + assert (combine.run subprocess_run cmd p =
              {| combine.machine := s;
                 combine.stdout := ((combine.stdout p
                    ++ [""; "--- Running: " +:+ cmd])
                    ++ ["--- Step failed: " +:+ cmd])%list;
                 combine.exited := Some code |}) as Hstep.
      { unfold combine.run. rewrite Hrun. by rewrite decide_True. }
      right. exists [], cmd, cmds, code.
      cbv zeta. cbn [combine.run_each]. rewrite Hstep. cbn.
      split; [done|]. split; [by intros i c Hc|].
      split; [done|]. split; [done|]. split; [done|].
      by rewrite <- (assoc_L (++)).
    + assert (code = 0%Z) as -> by lia.
      set (p' := {| combine.machine := s;
                    combine.stdout := ((combine.stdout p
                       ++ [""; "--- Running: " +:+ cmd])
                       ++ ["--- Finished: " +:+ cmd])%list;
                    combine.exited := None |}).
      assert (combine.run subprocess_run cmd p = p') as Hstep.
      { unfold combine.run. rewrite Hrun. by rewrite decide_False. }
      cbv zeta. cbn [combine.run_each]. rewrite Hstep. cbn [combine.exited p'].
      destruct (IH p' eq_refl) as [(Hex & Hall & Hm & Hout)
                                  | (done & c & rest & code & -> & Hall & Hc & Hne & Hex & Hout)].
      * left. split; [done|]. split; [|split].
        -- apply all_succeed_cons; by rewrite Hrun.
        -- rewrite Hm. unfold machine_after. cbn. by rewrite Hrun.
        -- rewrite Hout. cbn [combine.stdout p']. rewrite bind_cons.
           unfold banner at 2. by rewrite <- !(assoc_L (++)).
      * right. exists (cmd :: done), c, rest, code.
        split; [done|]. split; [apply all_succeed_cons; by rewrite Hrun|].
        split; [unfold machine_after in *; cbn; by rewrite Hrun|].
        split; [done|]. split; [done|].
        rewrite Hout. cbn [combine.stdout p']. rewrite bind_cons.
        unfold banner at 2. by rewrite <- !(assoc_L (++)).
Qed.

(** X17: [combine.main] runs the eight steps in order.  Either all return 0,
    and it prints the banner of each and the closing line; or it calls
    [sys.exit] with the code of the first step that fails, having run no
    later step and printed nothing after that step's failure line. *)
Theorem combine_main_outcome (s : S) :
  let p := combine.main subprocess_run s in
  (combine.exited p = None ∧
   all_succeed subprocess_run s combine.STEPS ∧
   combine.machine p = machine_after subprocess_run s combine.STEPS ∧
   combine.stdout p =
     ((combine.STEPS ≫= banner) ++ [""; "All steps completed successfully."])%list) ∨
  (∃ done cmd rest code,
     combine.STEPS = (done ++ cmd :: rest)%list ∧
     all_succeed subprocess_run s done ∧
     subprocess_run cmd (machine_after subprocess_run s done)
       = (combine.machine p, code) ∧
     code ≠ 0%Z ∧
     combine.exited p = Some code ∧
     combine.stdout p =
       ((done ≫= banner)
        ++ [""; "--- Running: " +:+ cmd; "--- Step failed: " +:+ cmd])%list).
Proof.
  unfold combine.main.
  set (p0 := {| combine.machine := s; combine.stdout := []; combine.exited := None |}).
  destruct (run_each_outcome combine.STEPS p0 eq_refl)
    as [(Hex & Hall & Hm & Hout)
       | (done & c & rest & code & Hsteps & Hall & Hc & Hne & Hex & Hout)].
  - left. rewrite Hex.
    cbn [combine.exited combine.machine combine.stdout].
    split; [done|]. split; [exact Hall|]. split; [exact Hm|].
    rewrite Hout. done.
  - right. rewrite Hex. exists done, c, rest, code. done.
Qed.

End combine_runner.

Lemma run_stage_process (subprocess_run : string → World → World * Z)
    (cmd : string) (stage : World → result World) (p : combine.Process) :
  subprocess_run cmd = combine.stage_process stage →
  combine.run subprocess_run cmd p =
  match stage (combine.machine p) with
  | Ok w' =>
    {| combine.machine := w';
       combine.stdout := ((combine.stdout p ++ [""; "--- Running: " +:+ cmd])
                          ++ ["--- Finished: " +:+ cmd])%list;
       combine.exited := None |}
  | Raise _ =>
    {| combine.machine := combine.machine p;
       combine.stdout := ((combine.stdout p ++ [""; "--- Running: " +:+ cmd])
                          ++ ["--- Step failed: " +:+ cmd])%list;
       combine.exited := Some 1%Z |}
  end.
Proof.
  intros Hcmd. unfold combine.run. rewrite Hcmd. unfold combine.stage_process.
  destruct (stage (combine.machine p)); [by rewrite decide_False by lia|].
  by rewrite decide_True by lia.
Qed.

(** X18: when the two prediction commands are the two stage scripts, the
    runner leaves, after these two steps, the files the chained stages leave;
    it exits with status 1 exactly when one of the stages raised, and does
    not start stage 2 when stage 1 raised. *)
Theorem combine_runs_the_stages {ext : Externals}
    (subprocess_run : string → World → World * Z) (w : World) :
  subprocess_run "python predict_river_level.py"
    = combine.stage_process predict_river_level.main →
  subprocess_run "python predict_flood.py" = combine.stage_process main →
  let p := combine.run_each subprocess_run
             ["python predict_river_level.py"; "python predict_flood.py"]
             {| combine.machine := w; combine.stdout := []; combine.exited := None |} in
  combine.machine p = (run_stages w).1 ∧
  combine.exited p = match (run_stages w).2 with
                     | Some _ => Some 1%Z
                     | None => None
                     end ∧
  (∀ e, predict_river_level.main w = Raise e →
        "--- Running: python predict_flood.py" ∉ combine.stdout p).
Proof.
  intros Hriver Hflood. cbv zeta. unfold run_stages.
  cbn [combine.run_each].
  rewrite (run_stage_process _ _ _ _ Hriver). cbn [combine.machine combine.stdout].
  destruct (predict_river_level.main w) as [w1|e1] eqn:H1.
  - cbn [combine.exited].
    rewrite (run_stage_process _ _ _ _ Hflood). cbn [combine.machine combine.stdout].
    destruct (main w1) as [w2|e2] eqn:H2; cbn;
      (split; [reflexivity|]; split; [reflexivity|]; intros e He; discriminate He).
  - cbn. split; [done|]. split; [done|].
    intros e _ Hin.
    repeat (apply elem_of_cons in Hin as [Hin|Hin]; [discriminate|]).
    by apply not_elem_of_nil in Hin.
Qed.

(** ** run_model.py *)

Section run_model_selection.
Context (P1 P2 P3 : string).

Lemma run_model_keys :
  run_model.keys P1 P2 P3 = ["csv_generator"; "flood_detector"; "flood_mapper"].
Proof. reflexivity. Qed.

(** X19: the steps [main] runs are a sub-list of the three pipeline steps in
    pipeline order, whatever the order of the names on the command line: a
    step runs exactly when it is named by [--steps] (if given), not named by
    [--skip] (so [--skip] wins over [--steps]), and not before the step of
    [--start-at]. *)
Theorem steps_to_run_spec (args : run_model.Args) :
  let selected := run_model.steps_to_run P1 P2 P3 args in
  let keys := run_model.keys P1 P2 P3 in
  selected `sublist_of` keys ∧
  (∀ step, step ∈ selected ↔
     step ∈ keys ∧
     match run_model.steps args with
     | Some (s :: sel) => step ∈ s :: sel
     | _ => True
     end ∧
     match run_model.skip args with
     | Some (s :: sk) => step ∉ s :: sk
     | _ => True
     end ∧
     match run_model.start_at args with
     | Some name =>
       name = "" ∨
       match run_model.py_index name keys with
       | Some start_index =>
         (start_index ≤ default 0 (run_model.py_index step keys))%nat
       | None => True
       end
     | None => True
     end) ∧
  (∀ steps' skip',
     (∀ x, x ∈ default [] (run_model.steps args) ↔ x ∈ steps') →
     (∀ x, x ∈ default [] (run_model.skip args) ↔ x ∈ skip') →
     run_model.steps_to_run P1 P2 P3
       {| run_model.steps := Some steps'; run_model.skip := Some skip';
          run_model.start_at := run_model.start_at args;
          run_model.list_steps := run_model.list_steps args |}
     = selected).
Proof.
  intros selected keys. subst selected keys.
  destruct args as [steps skip start ls]. unfold run_model.steps_to_run.
  cbn [run_model.steps run_model.skip run_model.start_at run_model.list_steps].
  split; [|split].
  - repeat case_match; subst;
      repeat (etransitivity; [apply sublist_filter|]); reflexivity.
  - intros step.
    repeat case_match; subst; rewrite ?list_elem_of_filter; cbn [default];
      first [tauto | intuition (first [reflexivity | congruence | auto])].
  - intros steps' skip' Hsteps Hskip.
    destruct steps as [[|s sel]|], steps' as [|s' sel'],
             skip as [[|k sk]|], skip' as [|k' sk']; simpl in Hsteps, Hskip;
      try (exfalso; eapply not_elem_of_nil;
           first [apply Hsteps; apply list_elem_of_here
                 | apply Hskip; apply list_elem_of_here]);
      rewrite ?(list_filter_iff (λ step, step ∈ s' :: sel') (λ step, step ∈ s :: sel))
        by (intros x; symmetry; apply Hsteps);
      rewrite ?(list_filter_iff (λ step, step ∉ k' :: sk') (λ step, step ∉ k :: sk))
        by (intros x; by rewrite (Hskip x));
      reflexivity.
Qed.

End run_model_selection.

Section run_model_runner.
Context (P1 P2 P3 : string).
Context {S : Type} (subprocess_run : string → string → S → S * run_model.Outcome).

Lemma step_entry_keys (name : string) :
  name ∈ run_model.keys P1 P2 P3 →
  ∃ script path description, step_entry P1 P2 P3 name = Some (script, path, description).
Proof.
  intros Hin.
  repeat (apply elem_of_cons in Hin as [->|Hin]; [by eexists _, _, _|]).
  by apply not_elem_of_nil in Hin.
Qed.

Lemma steps_complete_cons (s s1 : S) (name : string) (names : list string) :
  step_run P1 P2 P3 subprocess_run name s = Some (s1, run_model.Completed) →
  steps_complete P1 P2 P3 subprocess_run s1 names →
  steps_complete P1 P2 P3 subprocess_run s (name :: names).
Proof.
  intros Hstep Hrest [|i] n Hn.
  - injection Hn as <-. by exists s, s1.
  - destruct (Hrest i n Hn) as (s0 & s2 & Hm & Hrun).
    exists s0, s2. split; [|done].
    change (take (Datatypes.S i) (name :: names)) with (name :: take i names).
    unfold machine_after_steps in *. cbn [foldl]. cbn [mbind option_bind].
    by rewrite Hstep.
Qed.

Lemma machine_after_steps_cons (s s1 : S) (o : run_model.Outcome) (name : string)
    (names : list string) :
  step_run P1 P2 P3 subprocess_run name s = Some (s1, o) →
  machine_after_steps P1 P2 P3 subprocess_run s (name :: names)
  = machine_after_steps P1 P2 P3 subprocess_run s1 names.
Proof.
  intros Hstep. unfold machine_after_steps. cbn [foldl]. cbn [mbind option_bind].
  by rewrite Hstep.
Qed.

Lemma run_steps_cons (name : string) (rest : list string) (p : run_model.Process) :
  run_model.run_steps P1 P2 P3 subprocess_run (name :: rest) p =
  match step_entry P1 P2 P3 name with
  | Some (script, path, description) =>
    let p' := run_model.run_step subprocess_run script path description p in
    match run_model.exited p' with
    | Some _ => p'
    | None => run_model.run_steps P1 P2 P3 subprocess_run rest p'
    end
  | None => run_model.sys_exit 1 p
  end.
Proof. reflexivity. Qed.

(** What one call of [run_step] leaves behind. *)
Lemma run_step_outcome (script path description : string) (p : run_model.Process)
    (s1 : S) (o : run_model.Outcome) :
  subprocess_run script path (run_model.machine p) = (s1, o) →
  run_model.exited p = None →
  let q := run_model.run_step subprocess_run script path description p in
  run_model.machine q = s1 ∧
  run_model.stdout q = run_model.stdout p ∧
  match o with
  | run_model.Completed =>
    run_model.exited q = None ∧
    run_model.log q =
      (run_model.log p
       ++ [(run_model.INFO, "--- Running Step: " +:+ description +:+ " ---");
           (run_model.INFO, "Successfully completed: " +:+ description)])%list
  | _ =>
    run_model.exited q = Some 1%Z ∧
    ∃ message, last (run_model.log q) = Some (run_model.ERROR, message)
  end.
Proof.
  intros Hrun Hp. cbv zeta. unfold run_model.run_step.
  cbn [run_model.logging run_model.machine]. rewrite Hrun.
  destruct o; cbn [run_model.logging run_model.sys_exit run_model.machine
                   run_model.log run_model.stdout run_model.exited].
  - split; [done|]. split; [done|]. split; [done|]. by rewrite <- (assoc_L (++)).
  - split; [done|]. split; [done|]. split; [done|]. eexists. by rewrite last_snoc.
  - split; [done|]. split; [done|]. split; [done|]. eexists. by rewrite last_snoc.
  - split; [done|]. split; [done|]. split; [done|]. eexists. by rewrite last_snoc.
Qed.

(** The loop either completes every step, or stops at the first step whose
    subprocess does not complete. *)
Lemma run_steps_outcome (names : list string) (p : run_model.Process) :
  run_model.exited p = None →
  Forall (λ name, name ∈ run_model.keys P1 P2 P3) names →
  let q := run_model.run_steps P1 P2 P3 subprocess_run names p in
  run_model.stdout q = run_model.stdout p ∧
  ((run_model.exited q = None ∧
    steps_complete P1 P2 P3 subprocess_run (run_model.machine p) names ∧
    machine_after_steps P1 P2 P3 subprocess_run (run_model.machine p) names
      = Some (run_model.machine q) ∧
    run_model.log q = (run_model.log p ++ names ≫= step_log P1 P2 P3)%list) ∨
   (∃ done name rest s0 o,
      names = (done ++ name :: rest)%list ∧
      steps_complete P1 P2 P3 subprocess_run (run_model.machine p) done ∧
      machine_after_steps P1 P2 P3 subprocess_run (run_model.machine p) done = Some s0 ∧
      step_run P1 P2 P3 subprocess_run name s0 = Some (run_model.machine q, o) ∧
      o ≠ run_model.Completed ∧
      run_model.exited q = Some 1%Z ∧
      ∃ message, last (run_model.log q) = Some (run_model.ERROR, message))).
Proof.
  revert p. induction names as [|name names IH]; intros p Hp Hkeys.
  - cbn. split; [done|]. left. split; [done|]. split; [by intros i n Hn|].
    split; [done|]. by rewrite app_nil_r.
  - apply Forall_cons in Hkeys as [Hkey Hkeys].
    destruct (step_entry_keys name Hkey) as (script & path & description & Hentry).
    cbv zeta. rewrite run_steps_cons, Hentry. cbv zeta.
    destruct (subprocess_run script path (run_model.machine p)) as [s1 o] eqn:Hrun.
    assert (step_run P1 P2 P3 subprocess_run name (run_model.machine p) = Some (s1, o))
      as Hstep.
    { unfold step_run. rewrite Hentry. cbn. by rewrite Hrun. }
    destruct (run_step_outcome script path description p s1 o Hrun Hp)
      as (Hm & Hout & Ho).
    set (p' := run_model.run_step subprocess_run script path description p) in *.
    assert (o = run_model.Completed ∨ o ≠ run_model.Completed) as [->|Hne]
      by (destruct o; first [by left | by right]).
    + destruct Ho as [Hex Hlog]. rewrite Hex.
      destruct (IH p' Hex Hkeys) as [Hout' Hcases].
      split; [by rewrite Hout'|].
      destruct Hcases as [(Hex' & Hall & Hmq & Hlog')
                         | (done & n & rest & s0 & o & -> & Hall & Hm0 & Hn & Hno & Hex' & Hlast)].
      * left. split; [done|]. rewrite Hm in Hall, Hmq.
        split; [by eapply steps_complete_cons|].
        split; [by rewrite (machine_after_steps_cons _ _ _ _ _ Hstep)|].
        rewrite Hlog', Hlog, bind_cons. unfold step_log at 2. rewrite Hentry.
        by rewrite <- (assoc_L (++)).
      * right. exists (name :: done), n, rest, s0, o. rewrite Hm in Hall, Hm0.
        split; [done|]. split; [by eapply steps_complete_cons|].
        split; [by rewrite (machine_after_steps_cons _ _ _ _ _ Hstep)|].
        done.
    + assert (run_model.exited p' = Some 1%Z ∧
              ∃ message, last (run_model.log p') = Some (run_model.ERROR, message))
        as [Hex Hlast] by (by destruct o).
      rewrite Hex. split; [done|].
      right. exists [], name, names, (run_model.machine p), o.
      split; [done|]. split; [by intros i n Hn|]. split; [done|].
      rewrite Hm. done.
Qed.

(** X20: [run_model.main] with [--list-steps] prints the steps and exits with
    status 0 without starting a subprocess.  Otherwise it runs the selected
    steps in order: either all complete, and the log holds the opening
    record, the two records of each step and the closing record; or it stops
    at the first step that does not complete, logs an error last and exits
    with status 1 whatever the return code of that step was. *)
Theorem run_model_main_outcome (args : run_model.Args) (s : S) :
  let p := run_model.main P1 P2 P3 subprocess_run args s in
  let todo := run_model.steps_to_run P1 P2 P3 args in
  if run_model.list_steps args then
    run_model.exited p = Some 0%Z ∧ run_model.machine p = s ∧ run_model.log p = [] ∧
    length (run_model.stdout p) = 4%nat
  else
    run_model.stdout p = [] ∧
    ((run_model.exited p = None ∧
      steps_complete P1 P2 P3 subprocess_run s todo ∧
      machine_after_steps P1 P2 P3 subprocess_run s todo = Some (run_model.machine p) ∧
      run_model.log p =
        ((run_model.INFO, ">>> Starting Full Model Pipeline Execution <<<")
           :: (todo ≫= step_log P1 P2 P3)
         ++ [(run_model.INFO, ">>> All pipeline steps completed successfully! <<<")])%list) ∨
     (∃ done name rest s0 o,
        todo = (done ++ name :: rest)%list ∧
        steps_complete P1 P2 P3 subprocess_run s done ∧
        machine_after_steps P1 P2 P3 subprocess_run s done = Some s0 ∧
        step_run P1 P2 P3 subprocess_run name s0 = Some (run_model.machine p, o) ∧
        o ≠ run_model.Completed ∧
        run_model.exited p = Some 1%Z ∧
        ∃ message, last (run_model.log p) = Some (run_model.ERROR, message))).
Proof.
  cbv zeta. unfold run_model.main.
  destruct (run_model.list_steps args); [done|].
  set (p0 := run_model.logging _ _ _).
  assert (Forall (λ name, name ∈ run_model.keys P1 P2 P3)
            (run_model.steps_to_run P1 P2 P3 args)) as Hkeys.
  { apply Forall_forall. intros name Hname.
    destruct args as [steps skip start ls]. unfold run_model.steps_to_run in Hname.
    cbn [run_model.steps run_model.skip run_model.start_at] in Hname.
    repeat case_match; subst; rewrite ?list_elem_of_filter in Hname; tauto. }
  destruct (run_steps_outcome (run_model.steps_to_run P1 P2 P3 args) p0 eq_refl Hkeys)
    as [Hout [(Hex & Hall & Hm & Hlog)
             | (done & n & rest & s0 & o & Htodo & Hall & Hm0 & Hn & Hno & Hex & Hlast)]].
  - rewrite Hex. cbn [run_model.logging run_model.stdout run_model.exited
                      run_model.machine run_model.log].
    split; [by rewrite Hout|]. left. split; [done|]. split; [exact Hall|].
    split; [exact Hm|]. by rewrite Hlog.
  - rewrite Hex. split; [by rewrite Hout|]. right.
    exists done, n, rest, s0, o. done.
Qed.

End run_model_runner.

(** * The producers of the forecast tables *)

Lemma DataFrame_columns (times : list Z) (prec : list Q) (df : list FcRow) :
  DataFrame times prec = Some df →
  length times = length prec ∧ map fc_date df = times ∧ map fc_rain df = prec.
Proof.
  unfold DataFrame. case_decide as Hlen; [|done]. intros [= <-].
  split; [done|]. split.
  - apply fmap_zip_with_l; [done | lia].
  - apply fmap_zip_with_r; [done | lia].
Qed.

Lemma DataFrame_mismatch (times : list Z) (prec : list Q) :
  length times ≠ length prec → DataFrame times prec = None.
Proof. intros Hlen. unfold DataFrame. by rewrite decide_False. Qed.

(** X21: forecast_rainfall.py always leaves a local forecast table that
    stage 2 can load, and touches no other file.  The table holds the days
    and rains of the answer when both lists have the same length; after a
    failed request, or an answer whose lists differ in length, it holds five
    days of zero rain from today on. *)
Theorem forecast_rainfall_main_table (resp : Response) (w : World) :
  let w' := forecast_rainfall.main resp w in
  let zeros := map (λ i, {| fc_date := utc_today w + Z.of_nat i; fc_rain := 0 |})
                   (seq 0 5) in
  (∃ rows, forecast_rainfall w' = Some rows ∧
           load_local_forecast w' = Ok (sort_values fc_date rows)) ∧
  (cleaned_data w' = cleaned_data w ∧
   upstream_forecast_gfs w' = upstream_forecast_gfs w ∧
   river_model w' = river_model w ∧
   river_feature_order w' = river_feature_order w ∧
   flood_model w' = flood_model w ∧
   flood_feature_order w' = flood_feature_order w ∧
   predicted_river_level w' = predicted_river_level w ∧
   flood_forecast w' = flood_forecast w ∧
   utc_today w' = utc_today w) ∧
  match resp with
  | RequestException _ => forecast_rainfall w' = Some zeros
  | Json daily =>
    let times := default [] (daily ≫= time) in
    let prec := default [] (daily ≫= precipitation_sum) in
    if decide (length times = length prec) then
      (map fc_date <$> forecast_rainfall w') = Some times ∧
      (map fc_rain <$> forecast_rainfall w') = Some prec
    else forecast_rainfall w' = Some zeros
  end.
Proof.
  cbv zeta. split; [|split].
  - eexists. split; reflexivity.
  - done.
  - destruct resp as [message|daily]; [reflexivity|].
    unfold forecast_rainfall.main, forecast_rainfall.build_local_df_from_api.
    case_decide as Hlen.
    + destruct (DataFrame _ _) as [df|] eqn:Hdf.
      * apply DataFrame_columns in Hdf as (_ & Hd & Hr).
        cbn. by rewrite Hd, Hr.
      * unfold DataFrame in Hdf. by rewrite decide_True in Hdf.
    + by rewrite DataFrame_mismatch.
Qed.

(** ** The stages after the local fetcher *)



Lemma merge_left_length {A} (key : A → Z) (left : list A) (right : list FcRow) :
  (length left ≤ length (merge_left key left right))%nat.
Proof.
  unfold merge_left. induction left as [|l left IH]; [done|].
  rewrite bind_cons, length_app. cbn [length].
  set (rest := left ≫= _) in *.
  destruct (filter _ right) as [|m ms]; cbn [length map]; lia.
Qed.

Lemma merged_length_ge (df_river : list PredRow) (df_local df_up : list FcRow) :
  (length df_river ≤ length (merged df_river df_local df_up))%nat.
Proof.
  unfold merged. rewrite length_map.
  etransitivity; [apply (merge_left_length p_date df_river df_local)|].
  apply merge_left_length.
Qed.




(** ** The upstream fetcher under combine.py *)

Lemma gfs_process_success (resp : Response) (w : World) :
  (forecast_gfs_upstream.process resp w).2 = 0%Z →
  ∃ df, upstream_forecast_gfs (forecast_gfs_upstream.process resp w).1 = Some df.
Proof.
  unfold forecast_gfs_upstream.process, forecast_gfs_upstream.main.
  destruct resp as [message|[[[times|] [prec|]]|]]; cbn; try done.
  destruct (DataFrame times prec) as [df|]; cbn; [|done].
  intros _. by exists df.
Qed.

(** X24: forecast_gfs_upstream.py has no fallback, and combine.py stops at
    the first step that fails.  So whenever combine.py gets as far as
    starting stage 1, the upstream forecast table is on disk: under
    combine.py the stages never take their paths for a missing upstream
    table because the fetch of this run failed. *)
Theorem combine_needs_upstream (subprocess_run : string → World → World * Z)
    (s : World) :
  (∀ w, ∃ resp, subprocess_run "python forecast_gfs_upstream.py" w
                = forecast_gfs_upstream.process resp w) →
  let p := combine.main subprocess_run s in
  "--- Running: python predict_river_level.py" ∈ combine.stdout p →
  ∃ df, upstream_forecast_gfs
          (machine_after subprocess_run s (take 5 combine.STEPS)) = Some df.
Proof.
  intros Hgfs p Hin.
  set (before := machine_after subprocess_run s (take 4 combine.STEPS)).
  assert (machine_after subprocess_run s (take 5 combine.STEPS)
          = (subprocess_run "python forecast_gfs_upstream.py" before).1) as ->
    by reflexivity.
  assert ((subprocess_run "python forecast_gfs_upstream.py" before).2 = 0%Z) as Hcode.
  { unfold p, combine.main in Hin.
    set (p0 := {| combine.machine := s; combine.stdout := []; combine.exited := None |})
      in Hin.
    destruct (run_each_outcome subprocess_run combine.STEPS p0 eq_refl)
      as [(_ & Hall & _) | (done & c & rest & code & Hsteps & Hall & _ & _ & Hex & Hout)].
    - by apply (Hall 4%nat).
    - rewrite Hex, Hout in Hin. clear Hout Hex.
      unfold combine.STEPS in Hsteps.
      do 5 (destruct done as [|? done];
            [cbn [app] in Hsteps; injection Hsteps as Hsteps; intros; subst;
             vm_compute in Hin;
             repeat (apply elem_of_cons in Hin as [Hin|Hin]; [discriminate Hin|]);
             by apply not_elem_of_nil in Hin|]).
      cbn [app] in Hsteps. injection Hsteps as Hsteps. intros. subst.
      by apply (Hall 4%nat). }
  destruct (Hgfs before) as [resp Hresp]. rewrite Hresp in *.
  by apply gfs_process_success.
Qed.

(** * The dashboard *)

Lemma color_map_classes (p : Q) :
  final_flood_dashboard.color_map !! classify_prob p =
  Some (if Qlt_le_dec p 0.10 then "green"
        else if Qlt_le_dec p 0.30 then "yellow"
        else if Qlt_le_dec p 0.60 then "orange"
        else "red").
Proof.
  unfold classify_prob.
  repeat (destruct (Qlt_le_dec p _); [reflexivity|]). reflexivity.
Qed.

(** X25: the dashboard reads the class of its marker from the probability
    of the row with the latest date, not from the class column of the file;
    the marker is green, yellow, orange or red by the thresholds of stage 2,
    and never takes the default colour gray. *)
Theorem dashboard_marker (w : World) (shown : final_flood_dashboard.Map) :
  final_flood_dashboard.show_plots_and_map w = Ok shown →
  ∃ rows latest,
    flood_forecast w = Some rows ∧
    latest ∈ rows ∧
    (∀ r, r ∈ rows → (date r ≤ date latest)%Z) ∧
    final_flood_dashboard.risk shown = classify_prob (flood_probability latest) ∧
    final_flood_dashboard.text shown
      = "Gurdaspur: " +:+ classify_prob (flood_probability latest) ∧
    final_flood_dashboard.marker shown
      = (if Qlt_le_dec (flood_probability latest) 0.10 then "green"
         else if Qlt_le_dec (flood_probability latest) 0.30 then "yellow"
         else if Qlt_le_dec (flood_probability latest) 0.60 then "orange"
         else "red") ∧
    final_flood_dashboard.marker shown ≠ "gray".
Proof.
  unfold final_flood_dashboard.show_plots_and_map.
  destruct (flood_forecast w) as [rows|]; [|done].
  destruct (last (map _ (sort_values date rows))) as [risk|] eqn:Hlast; [|done].
  intros [= <-]. cbn.
  change (map ?f ?l) with (f <$> l) in Hlast. rewrite fmap_last in Hlast.
  destruct (last (sort_values date rows)) as [latest|] eqn:Hlatest; [|done].
  injection Hlast as <-.
  apply sort_values_last_max in Hlatest as [Hin Hmax].
  exists rows, latest. split; [done|]. split; [done|]. split; [done|].
  change (final_flood_dashboard.classify (flood_probability latest))
    with (classify_prob (flood_probability latest)).
  rewrite color_map_classes. cbn.
  split; [done|]. split; [done|]. split; [done|].
  repeat (destruct (Qlt_le_dec _ _); [done|]). done.
Qed.

Lemma out_rows_classified {ext : Externals} um (m : gmap Z Q) (lr : Q)
    (df : list MergedRow) (st : LoopState) :
  Forall (λ r, risk_class r = classify_prob (flood_probability r)) (out_rows st) →
  Forall (λ r, risk_class r = classify_prob (flood_probability r))
         (out_rows (foldl (step um m lr) st df)).
Proof.
  revert st. induction df as [|row df IH]; intros st Hst; [done|].
  cbn [foldl]. apply IH. cbn [step out_rows].
  apply Forall_app. split; [done|]. by apply Forall_singleton.
Qed.

(** X26: after a run of the two stages that ended without exception in a
    directory with an upstream forecast table, the check of the dashboard
    finds the four files, starts no subprocess and raises nothing; and
    whenever the dashboard then shows its map, the classes it computes are
    the classes in the file and its marker shows the class stage 2 wrote
    for the latest day. *)
Theorem dashboard_after_run {ext : Externals} (SCRIPT_DIR : string)
    (subprocess_run : string → World → World * Z) (w w2 : World) :
  run_stages w = (w2, None) →
  upstream_forecast_gfs w ≠ None →
  final_flood_dashboard.ensure_core_outputs SCRIPT_DIR subprocess_run w2 = (w2, None) ∧
  ∃ out latest,
    flood_forecast w2 = Some out ∧
    last (sort_values date out) = Some latest ∧
    ∀ shown, final_flood_dashboard.show_plots_and_map w2 = Ok shown →
      final_flood_dashboard.main SCRIPT_DIR subprocess_run w2 = (w2, inl shown) ∧
      final_flood_dashboard.classes shown = map risk_class (sort_values date out) ∧
      final_flood_dashboard.risk shown = risk_class latest.
Proof.
  intros Hrun Hup. unfold run_stages in Hrun.
  destruct (predict_river_level.main w) as [w1|e1] eqn:Hmain1; [|done].
  destruct (main w1) as [w2'|e2] eqn:Hmain2; [|done].
  injection Hrun as ->.
  destruct (river_main_inv w w1 Hmain1) as (preds1 & -> & _ & _).
  destruct (flood_main_inv _ _ Hmain2)
    as (df_local & df_up & df_river & loaded & Hl & Hu & Hr & Hload & ->).
  set (w1 := write_predicted_river_level w preds1) in *.
  set (out := out_rows _).
  assert (Forall (λ r, risk_class r = classify_prob (flood_probability r)) out) as Hcls.
  { apply out_rows_classified. by cbn. }
  assert (out ≠ []) as Hout.
  { intros Hnil. apply (f_equal length) in Hnil. unfold out in Hnil.
    rewrite out_rows_length in Hnil. cbn [initial_state out_rows length] in Hnil.
    pose proof (merged_length_ge df_river df_local df_up) as Hge.
    assert (length df_river = length preds1 ∧ preds1 ≠ []) as [Hlen Hne].
    { unfold load_river_preds in Hr. cbn in Hr.
      destruct preds1 as [|r rs]; [done|]. injection Hr as <-.
      split; [|done]. unfold sort_values. by rewrite merge_sort_Permutation. }
    destruct preds1; [done|]. cbn [length] in Hlen. lia. }
  assert (∃ latest, last (sort_values date out) = Some latest) as [latest Hlatest].
  { destruct (last (sort_values date out)) as [latest|] eqn:Hlast; [by exists latest|].
    apply last_None in Hlast. apply (f_equal length) in Hlast.
    unfold sort_values in Hlast. rewrite merge_sort_Permutation in Hlast.
    by destruct out. }
  assert (map (λ r, final_flood_dashboard.classify (flood_probability r))
              (sort_values date out)
          = map risk_class (sort_values date out)) as Hclasses.
  { apply map_ext_in. intros r Hr'. rewrite <- list_elem_of_In in Hr'.
    unfold sort_values in Hr'. rewrite merge_sort_Permutation in Hr'.
    rewrite Forall_forall in Hcls. symmetry. by apply Hcls. }
  assert (is_Some (forecast_rainfall w)) as [local Hlocal].
  { unfold load_local_forecast in Hl. cbn in Hl.
    destruct (forecast_rainfall w) as [local|]; [by exists local | done]. }
  assert (is_Some (upstream_forecast_gfs w)) as [up Hup'].
  { by destruct (upstream_forecast_gfs w) as [up|]; [exists up|]. }
  assert (final_flood_dashboard.ensure_core_outputs SCRIPT_DIR subprocess_run
            (write_flood_forecast w1 out) = (write_flood_forecast w1 out, None))
    as Hensure.
  { unfold final_flood_dashboard.ensure_core_outputs.
    assert (filter (λ p, ¬ final_flood_dashboard.os_path_exists
                             (write_flood_forecast w1 out) p)
                   final_flood_dashboard.required = []) as ->; [|done].
    unfold final_flood_dashboard.required, final_flood_dashboard.os_path_exists.
    cbn [write_flood_forecast write_predicted_river_level w1 forecast_rainfall
         upstream_forecast_gfs predicted_river_level flood_forecast].
    rewrite Hlocal, Hup'. reflexivity. }
  split; [exact Hensure|].
  exists out, latest. split; [reflexivity|]. split; [exact Hlatest|].
  intros shown Hshown.
  unfold final_flood_dashboard.main. rewrite Hensure, Hshown.
  split; [reflexivity|].
  unfold final_flood_dashboard.show_plots_and_map in Hshown.
  cbn [write_flood_forecast flood_forecast] in Hshown. rewrite Hclasses in Hshown.
  change (map risk_class ?l) with (risk_class <$> l) in Hshown.
  rewrite fmap_last, Hlatest in Hshown. cbn in Hshown. injection Hshown as <-.
  split; reflexivity.
Qed.

(** * Sample runs of the further properties *)

Lemma river_output_shape_witness :
  let out := predict_river_level.preds
               (predict_river_level.run_loop (ext := reference_externals) None
                  dry_spell_world 5) in
  (length out ≤ predict_river_level.HORIZON)%nat ∧
  map p_date out
    = map fc_date (predict_river_level.horizon_rows (ext := reference_externals)
                     dry_spell_world) ∧
  StronglySorted Z.le (map p_date out) ∧
  (∀ fc, upstream_forecast_gfs dry_spell_world = Some fc →
     length out = (length fc `min` predict_river_level.HORIZON)%nat ∧
     ∃ later, map fc_date fc ≡ₚ (map p_date out ++ later)%list ∧
              ∀ d d', d ∈ map p_date out → d' ∈ later → (d ≤ d')%Z).
Proof.
  intros out.
  apply (river_output_shape (ext := reference_externals) dry_spell_world
           dry_spell_after_stage1 out); reflexivity.
Defined.

Lemma river_cold_start_witness :
  let w := heuristic_world None None None in
  let out := predict_river_level.preds
               (predict_river_level.run_loop (ext := reference_externals) None w 5) in
  map p_date out = map (λ i, utc_today w + Z.of_nat i)%Z (seq 0 5) ∧
  Forall (λ r, pred_river_level r == 209.7)%Q out.
Proof.
  intros w out.
  apply (river_cold_start (ext := reference_externals) w
           (write_predicted_river_level w out) out);
    first [reflexivity | by left].
Defined.

Lemma merge_left_unique_dates_witness :
  let left := [{| p_date := 20000; pred_river_level := 350 |};
               {| p_date := 20002; pred_river_level := 351 |}] in
  let right := daily 20000 [1; 4]%Q in
  map fst (merge_left p_date left right) = left ∧
  Forall (λ x, match x.2 with
               | Some v => {| fc_date := p_date x.1; fc_rain := v |} ∈ right
               | None => p_date x.1 ∉ map fc_date right
               end) (merge_left p_date left right).
Proof.
  intros left right. apply (merge_left_unique_dates p_date left right).
  apply (bool_decide_unpack _). vm_compute. exact I.
Defined.

Lemma flood_output_rows_witness :
  let w' := (run_stages (ext := reference_externals) dry_spell_world).1 in
  let out := default [] (flood_forecast w') in
  ∃ preds, predicted_river_level dry_spell_after_stage1 = Some preds ∧
    map (λ row, {| p_date := date row; pred_river_level := out_pred_river_level row |}) out
      = sort_values p_date preds ∧
    length out = length preds ∧
    StronglySorted Z.le (map date out).
Proof.
  intros w' out.
  apply (flood_output_rows (ext := reference_externals) dry_spell_after_stage1 w' out
           (daily 20000 [0; 0; 0; 0; 0]%Q)).
  - vm_compute. reflexivity.
  - vm_compute. reflexivity.
  - vm_compute. reflexivity.
  - apply (bool_decide_unpack _). vm_compute. exact I.
  - intros up [= <-]. apply (bool_decide_unpack _). vm_compute. exact I.
Defined.

Lemma heuristic_risk_monotone_witness :
  (heuristic_probability 0 1 349 349.5 <= heuristic_probability 2 1 352.5 349.5)%Q ∧
  (class_rank (classify_prob (heuristic_probability 0 1 349 349.5))
   ≤ class_rank (classify_prob (heuristic_probability 2 1 352.5 349.5)))%nat.
Proof.
  apply (heuristic_risk_monotone 0 2 1 1 349 352.5); vm_compute; discriminate.
Defined.

Lemma heuristic_dry_day_witness :
  ((600 <= 349.5)%Q → (heuristic_probability 0 0 600 349.5 == 0)%Q) ∧
  (classify_prob (heuristic_probability 0 0 600 349.5) = "No"
     ↔ (0.003 * (600 - 349.5) < 0.10)%Q) ∧
  (classify_prob (heuristic_probability 0 0 600 349.5) = "High"
     ↔ (549.5 <= 600)%Q).
Proof.
  apply (heuristic_dry_day 0 0 600); reflexivity.
Defined.

Lemma combine_runs_the_stages_witness :
  let p := combine.run_each stage_runner
             ["python predict_river_level.py"; "python predict_flood.py"]
             {| combine.machine := dry_spell_world; combine.stdout := [];
                combine.exited := None |} in
  combine.machine p = (run_stages (ext := reference_externals) dry_spell_world).1 ∧
  combine.exited p = match (run_stages (ext := reference_externals) dry_spell_world).2 with
                     | Some _ => Some 1%Z
                     | None => None
                     end ∧
  (∀ e, predict_river_level.main (ext := reference_externals) dry_spell_world = Raise e →
        "--- Running: python predict_flood.py" ∉ combine.stdout p).
Proof.
  apply (combine_runs_the_stages (ext := reference_externals) stage_runner
           dry_spell_world); reflexivity.
Defined.



Lemma combine_needs_upstream_witness :
  ∃ df, upstream_forecast_gfs
          (machine_after answered_runner dry_spell_world (take 5 combine.STEPS))
        = Some df.
Proof.
  apply (combine_needs_upstream answered_runner dry_spell_world).
  - intros w. exists five_day_answer. reflexivity.
  - apply (bool_decide_unpack _). vm_compute. exact I.
Defined.

Lemma dashboard_marker_witness :
  let w := (run_stages (ext := reference_externals) dry_spell_world).1 in
  ∃ rows latest,
    flood_forecast w = Some rows ∧
    latest ∈ rows ∧
    (∀ r, r ∈ rows → (date r ≤ date latest)%Z) ∧
    "No" = classify_prob (flood_probability latest) ∧
    "Gurdaspur: No" = "Gurdaspur: " +:+ classify_prob (flood_probability latest) ∧
    "green"
      = (if Qlt_le_dec (flood_probability latest) 0.10 then "green"
         else if Qlt_le_dec (flood_probability latest) 0.30 then "yellow"
         else if Qlt_le_dec (flood_probability latest) 0.60 then "orange"
         else "red") ∧
    "green" ≠ "gray".
Proof.
  intros w.
  apply (dashboard_marker w
           {| final_flood_dashboard.classes := ["No"; "No"; "No"; "No"; "No"];
              final_flood_dashboard.risk := "No";
              final_flood_dashboard.marker := "green";
              final_flood_dashboard.text := "Gurdaspur: No" |}).
  vm_compute. reflexivity.
Defined.

Lemma dashboard_after_run_witness :
  let w2 := (run_stages (ext := reference_externals) dry_spell_world).1 in
  final_flood_dashboard.ensure_core_outputs "/srv/flood_detector" failing_runner w2
    = (w2, None) ∧
  ∃ out latest,
    flood_forecast w2 = Some out ∧
    last (sort_values date out) = Some latest ∧
    ∀ shown, final_flood_dashboard.show_plots_and_map w2 = Ok shown →
      final_flood_dashboard.main "/srv/flood_detector" failing_runner w2 = (w2, inl shown) ∧
      final_flood_dashboard.classes shown = map risk_class (sort_values date out) ∧
      final_flood_dashboard.risk shown = risk_class latest.
Proof.
  intros w2.
  apply (dashboard_after_run (ext := reference_externals) "/srv/flood_detector"
           failing_runner dry_spell_world w2).
  - vm_compute. reflexivity.
  - discriminate.
Defined.

(** * The columns the loaders read *)

Lemma py_index_lookup (x : string) (l : list string) (i : nat) :
  run_model.py_index x l = Some i ↔ l !! i = Some x ∧ ∀ j, (j < i)%nat → l !! j ≠ Some x.
Proof.
  revert i. induction l as [|y l IH]; intros i; cbn.
  - split; [done | by intros [? _]].
  - case_decide as Hxy.
    + subst y. split.
      * intros [= <-]. split; [done | intros j Hj; lia].
      * intros [Hi Hmin]. destruct i as [|i]; [done|].
        exfalso. by apply (Hmin 0%nat); [lia|].
    + rewrite fmap_Some. split.
      * intros (k & Hk & ->). apply IH in Hk as [Hk Hmin]. split; [done|].
        intros [|j] Hj; cbn; [congruence | apply Hmin; lia].
      * intros [Hi Hmin]. destruct i as [|i]; cbn in Hi; [congruence|].
        exists i. split; [|done]. apply IH. split; [done|].
        intros j Hj. apply (Hmin (S j)). lia.
Qed.

Lemma get_loc_Some (columns : list string) (name : string) (i : nat) :
  NoDup columns → (get_loc name columns = Some i ↔ columns !! i = Some name).
Proof.
  intros Hnd. unfold get_loc. rewrite py_index_lookup. split; [by intros [? _]|].
  intros Hi. split; [done|]. intros j Hj Hj'.
  pose proof (NoDup_lookup _ _ _ _ Hnd Hi Hj'). lia.
Qed.

Lemma get_loc_None (columns : list string) (name : string) :
  get_loc name columns = None ↔ name ∉ columns.
Proof.
  unfold get_loc. induction columns as [|y l IH]; cbn.
  - split; [intros _; apply not_elem_of_nil | done].
  - case_decide as Hxy.
    + subst. split; [done|]. intros Hn. exfalso. apply Hn, list_elem_of_here.
    + rewrite not_elem_of_cons, <- IH.
      destruct (run_model.py_index name l); cbn; split; try done.
      * by intros [_ ?].
Qed.

Lemma get_loc_is_Some (columns : list string) (name : string) :
  name ∈ columns → ∃ i, get_loc name columns = Some i.
Proof.
  intros Hin. destruct (get_loc name columns) as [i|] eqn:Hloc; [by exists i|].
  by apply get_loc_None in Hloc.
Qed.

Lemma getitem_get_loc (columns : list string) (name : string) :
  NoDup columns → getitem columns name = Series <$> get_loc name columns.
Proof.
  intros Hnd. unfold getitem.
  set (places := filter _ _).
  assert (∀ i, i ∈ places ↔ columns !! i = Some name) as Hplaces.
  { intros i. unfold places. rewrite list_elem_of_filter, elem_of_seq. split; [by intros [? _]|].
    intros Hi. split; [done|]. apply lookup_lt_Some in Hi. lia. }
  assert (NoDup places) as Hndp by apply NoDup_filter, NoDup_seq.
  destruct (get_loc name columns) as [i|] eqn:Hloc; cbn.
  - apply (get_loc_Some _ _ _ Hnd) in Hloc.
    assert (∀ j, j ∈ places → j = i) as Hall.
    { intros j Hj. apply Hplaces in Hj. exact (NoDup_lookup _ _ _ _ Hnd Hj Hloc). }
    apply Hplaces in Hloc.
    destruct places as [|j [|k places]].
    + by apply not_elem_of_nil in Hloc.
    + rewrite (Hall j); [done | apply list_elem_of_here].
    + exfalso. apply NoDup_cons in Hndp as [Hjk _]. apply Hjk.
      rewrite (Hall j), <- (Hall k); [apply list_elem_of_here| |apply list_elem_of_here].
      apply list_elem_of_further, list_elem_of_here.
  - apply get_loc_None in Hloc.
    destruct places as [|j places]; [done|]. exfalso. apply Hloc.
    eapply list_elem_of_lookup_2, Hplaces, list_elem_of_here.
Qed.

Lemma first_in_cons (n : string) (names columns : list string) :
  first_in (n :: names) columns
  = if decide (n ∈ columns) then Some n else first_in names columns.
Proof.
  unfold first_in. cbn [list_find]. case_decide; [done|].
  rewrite <- option_fmap_compose. by apply option_fmap_ext; intros [? ?].
Qed.

Lemma first_in_nil (columns : list string) : first_in [] columns = None.
Proof. done. Qed.

Lemma elem_of_rename (old new x : string) (columns : list string) :
  x ∈ rename old new columns ↔ (x ∈ columns ∧ x ≠ old) ∨ (x = new ∧ old ∈ columns).
Proof.
  unfold rename. rewrite list_elem_of_fmap. split.
  - intros (c & -> & Hc). case_decide; subst; [by right | by left].
  - intros [[Hx Hne] | [-> Hold]].
    + exists x. by rewrite decide_False.
    + exists old. by rewrite decide_True.
Qed.

Lemma rename_id (x : string) (columns : list string) : rename x x columns = columns.
Proof.
  unfold rename. induction columns as [|c l IH]; [done|]. cbn. rewrite IH.
  by case_decide; subst.
Qed.

Lemma NoDup_rename (old new : string) (columns : list string) :
  NoDup columns → new ∉ columns → NoDup (rename old new columns).
Proof.
  intros Hnd Hnew. unfold rename. apply NoDup_fmap_2_strong; [|done].
  intros x y Hx Hy Heq.
  destruct (decide (x = old)) as [->|Hxo], (decide (y = old)) as [->|Hyo];
    subst; done.
Qed.

Lemma get_loc_rename (old new name : string) (columns : list string) :
  NoDup columns → new ∉ columns →
  get_loc name (rename old new columns)
  = if decide (name = new) then get_loc old columns
    else if decide (name = old) then None
    else get_loc name columns.
Proof.
  intros Hnd Hnew. pose proof (NoDup_rename old new columns Hnd Hnew) as Hnd'.
  apply option_eq. intros i. rewrite (get_loc_Some _ _ _ Hnd').
  unfold rename. rewrite list_lookup_fmap, fmap_Some.
  case_decide as Hn; [|case_decide as Ho].
  - subst name. rewrite (get_loc_Some _ _ _ Hnd). split.
    + intros (c & Hc & Heq). case_decide; subst; [done|].
      exfalso. apply Hnew. by eapply list_elem_of_lookup_2.
    + intros Hi. exists old. by rewrite decide_True.
  - subst name. split; [|done]. intros (c & Hc & Heq).
    case_decide; subst; done.
  - rewrite (get_loc_Some _ _ _ Hnd). split.
    + intros (c & Hc & Heq). case_decide; subst; done.
    + intros Hi. exists name. by rewrite decide_False.
Qed.

Lemma others_rename_date (d : string) (columns : list string) :
  "date" ∉ columns ∨ d = "date" →
  others (rename d "date" columns) = filter (λ c, c ≠ d) columns.
Proof.
  intros Hd. unfold others, rename. induction columns as [|c l IH]; [done|].
  cbn [map]. rewrite !filter_cons. rewrite IH.
  2:{ destruct Hd as [Hd| ->]; [left | by right]. by apply not_elem_of_cons in Hd as [_ ?]. }
  destruct (decide (c = d)) as [->|Hcd].
  - rewrite decide_False by (intros H; by apply H). by rewrite decide_False by (intros H; by apply H).
  - rewrite (decide_True (P := c ≠ d)) by done.
    rewrite decide_True; [done|].
    destruct Hd as [Hd| ->]; [|done]. apply not_elem_of_cons in Hd as [Hd _]. congruence.
Qed.

Lemma elem_of_others (x : string) (columns : list string) :
  x ∈ others columns ↔ x ≠ "date" ∧ x ∈ columns.
Proof. unfold others. by rewrite list_elem_of_filter. Qed.

(** Renaming the date column to date does not move a column. *)
Lemma resolve_normalised (date_names rain_names : list string) (first_column : bool)
    (columns : list string) (d : string) :
  NoDup columns →
  match first_in date_names columns with
  | Some d => Some d
  | None => if first_column then head columns else None
  end = Some d →
  d ∈ columns →
  "date" ∉ columns ∨ d = "date" →
  let normalised := rename d "date" columns in
  NoDup normalised ∧ "date" ∈ normalised ∧
  resolve date_names first_column rain_names columns
  = (i ← get_loc "date" normalised; Some (Series i, resolve_rain rain_names normalised)).
Proof.
  intros Hnd Hd Hin Hdate normalised.
  assert (NoDup normalised) as Hnd'.
  { unfold normalised. destruct Hdate as [Hdate| ->]; [by apply NoDup_rename|].
    by rewrite rename_id. }
  assert (get_loc "date" normalised = get_loc d columns) as Hloc.
  { unfold normalised. destruct Hdate as [Hdate| ->]; [|by rewrite rename_id].
    rewrite get_loc_rename by done. by rewrite decide_True. }
  assert (others normalised = filter (λ c, c ≠ d) columns) as Hrest
    by by apply others_rename_date.
  assert (∀ x, x ∈ others normalised → get_loc x normalised = get_loc x columns) as Hsame.
  { intros x Hx. pose proof Hx as Hx'. rewrite Hrest in Hx'.
    apply elem_of_others in Hx as [Hxd _]. apply list_elem_of_filter in Hx' as [Hne _].
    unfold normalised. destruct Hdate as [Hdate| ->]; [|by rewrite rename_id].
    rewrite get_loc_rename by done. rewrite decide_False by done.
    by rewrite decide_False by done. }
  split; [done|]. split.
  { unfold normalised. apply elem_of_rename. destruct (decide (d = "date")) as [->|Hne].
    - by right.
    - by right. }
  unfold resolve, resolve_rain. rewrite Hd. cbn [mbind option_bind].
  rewrite Hloc. destruct (get_loc d columns) as [i|]; [|done]. cbn [mbind option_bind].
  rewrite <- Hrest. do 2 f_equal.
  set (rain_name := match first_in rain_names (others normalised) with
                    | Some r => Some r
                    | None => head (others normalised)
                    end).
  assert (∀ r, rain_name = Some r → r ∈ others normalised) as Hr.
  { intros r. unfold rain_name.
    destruct (first_in rain_names (others normalised)) as [r'|] eqn:Hfirst.
    - intros [= ->]. unfold first_in in Hfirst. apply fmap_Some in Hfirst as ([k r'] & Hf & ->).
      by apply list_find_Some in Hf as (_ & ? & _).
    - intros Hh. by apply head_Some_elem_of. }
  destruct rain_name as [r|]; [|done]. cbn [mbind option_bind].
  by rewrite (Hsame r (Hr r eq_refl)).
Qed.

Lemma first_in_others (name : string) (names columns : list string) :
  name ≠ "date" →
  first_in (name :: names) (others columns)
  = if decide (name ∈ columns) then Some name else first_in names (others columns).
Proof.
  intros Hne. rewrite first_in_cons.
  destruct (decide (name ∈ columns)) as [Hin|Hout].
  - rewrite decide_True; [done|]. by apply elem_of_others.
  - rewrite decide_False; [done|]. rewrite elem_of_others. tauto.
Qed.

(** Selecting [new] after [rename old new]. *)
Lemma getitem_renamed (old new : string) (columns : list string) :
  NoDup columns → new ∉ columns → old ≠ "date" → new ≠ "date" →
  getitem (rename old new columns) "date" = Series <$> get_loc "date" columns ∧
  getitem (rename old new columns) new = Series <$> get_loc old columns.
Proof.
  intros Hnd Hnew Hod Hnd'.
  pose proof (NoDup_rename old new columns Hnd Hnew) as Hnd2.
  rewrite !getitem_get_loc, !get_loc_rename by done.
  rewrite (decide_False (P := "date" = new)) by done.
  rewrite (decide_False (P := "date" = old)) by done.
  by rewrite decide_True.
Qed.

Lemma rain_of_first (columns : list string) (c : string) (rest : list string) :
  NoDup columns → others columns = c :: rest →
  ∃ j, get_loc c columns = Some j.
Proof.
  intros Hnd Hothers. apply get_loc_is_Some.
  assert (c ∈ others columns) as Hc by (rewrite Hothers; apply list_elem_of_here).
  by apply elem_of_others in Hc as [_ ?].
Qed.

Lemma flood_local_normalised (columns : list string) :
  NoDup columns → "date" ∈ columns →
  predict_flood_columns.load_local_forecast columns
  = (i ← get_loc "date" columns;
     Some (Series i, resolve_rain ["local_rain"; "Rainfall"; "gurd_rain"] columns)).
Proof.
  intros Hnd Hdate. unfold predict_flood_columns.load_local_forecast, resolve_rain.
  cbv zeta.
  rewrite (decide_False (P := "Date" ∈ columns ∧ "date" ∉ columns)) by tauto.
  rewrite !first_in_others, first_in_nil by done.
  destruct (get_loc_is_Some columns "date" Hdate) as [i Hi].
  destruct (decide ("local_rain" ∈ columns)) as [HL|HL].
  { rewrite (decide_False (P := "Rainfall" ∈ columns ∧ "local_rain" ∉ columns)) by tauto.
    rewrite (decide_False (P := "gurd_rain" ∈ columns ∧ "local_rain" ∉ columns)) by tauto.
    rewrite !getitem_get_loc, Hi by done. cbn [mbind option_bind fmap option_fmap option_map].
    rewrite (decide_False (P := "local_rain" ∉ columns)) by tauto.
    by destruct (get_loc_is_Some columns "local_rain" HL) as [j ->]. }
  destruct (decide ("Rainfall" ∈ columns)) as [HR|HR].
  { rewrite (decide_True (P := "Rainfall" ∈ columns ∧ "local_rain" ∉ columns)) by tauto.
    assert ("local_rain" ∈ rename "Rainfall" "local_rain" columns) as HL2
      by (apply elem_of_rename; by right).
    rewrite (decide_False (P := _ ∧ "local_rain" ∉ rename _ _ _)) by tauto.
    destruct (getitem_renamed "Rainfall" "local_rain" columns) as [-> ->]; try done.
    rewrite Hi. cbn [mbind option_bind fmap option_fmap option_map].
    rewrite (decide_False (P := "local_rain" ∉ rename _ _ _)) by tauto.
    by destruct (get_loc_is_Some columns "Rainfall" HR) as [j ->]. }
  rewrite (decide_False (P := "Rainfall" ∈ columns ∧ "local_rain" ∉ columns)) by tauto.
  destruct (decide ("gurd_rain" ∈ columns)) as [HG|HG].
  { rewrite (decide_True (P := "gurd_rain" ∈ columns ∧ "local_rain" ∉ columns)) by tauto.
    assert ("local_rain" ∈ rename "gurd_rain" "local_rain" columns) as HL2
      by (apply elem_of_rename; by right).
    destruct (getitem_renamed "gurd_rain" "local_rain" columns) as [-> ->]; try done.
    rewrite Hi. cbn [mbind option_bind fmap option_fmap option_map].
    rewrite (decide_False (P := "local_rain" ∉ rename _ _ _)) by tauto.
    by destruct (get_loc_is_Some columns "gurd_rain" HG) as [j ->]. }
  rewrite (decide_False (P := "gurd_rain" ∈ columns ∧ "local_rain" ∉ columns)) by tauto.
  rewrite (getitem_get_loc columns "date"), Hi by done.
  cbn [mbind option_bind fmap option_fmap option_map].
  rewrite (decide_True (P := "local_rain" ∉ columns)) by done.
  destruct (others columns) as [|c rest] eqn:Hothers; [done|].
  destruct (rain_of_first columns c rest Hnd Hothers) as [j Hj].
  cbn [head mbind option_bind]. by rewrite getitem_get_loc, Hj by done.
Qed.

Lemma flood_upstream_normalised (columns : list string) :
  NoDup columns → "date" ∈ columns →
  predict_flood_columns.load_upstream_forecast columns
  = (i ← get_loc "date" columns; Some (Series i, resolve_rain ["upstream_rain"] columns)).
Proof.
  intros Hnd Hdate. unfold predict_flood_columns.load_upstream_forecast, resolve_rain.
  cbv zeta.
  rewrite (decide_False (P := ("date" ∉ columns) ∧ "Date" ∈ columns)) by tauto.
  rewrite !first_in_others, first_in_nil by done.
  destruct (get_loc_is_Some columns "date" Hdate) as [i Hi].
  rewrite (getitem_get_loc columns "date"), Hi by done.
  cbn [mbind option_bind fmap option_fmap option_map].
  destruct (decide ("upstream_rain" ∈ columns)) as [HU|HU].
  - rewrite (decide_False (P := "upstream_rain" ∉ columns)) by tauto.
    rewrite getitem_get_loc by done. cbn [mbind option_bind].
    by destruct (get_loc_is_Some columns "upstream_rain" HU) as [j ->].
  - rewrite (decide_True (P := "upstream_rain" ∉ columns)) by done.
    destruct (others columns) as [|c rest] eqn:Hothers; [done|].
    destruct (rain_of_first columns c rest Hnd Hothers) as [j Hj].
    cbn [head mbind option_bind]. by rewrite getitem_get_loc, Hj by done.
Qed.

Lemma safe_read_normalised (columns : list string) :
  "date" ∈ columns →
  predict_river_level_columns.safe_read_csv_dates columns
    predict_river_level_columns.date_col_candidates = Some columns.
Proof.
  intros Hdate. unfold predict_river_level_columns.safe_read_csv_dates,
    predict_river_level_columns.date_col_candidates.
  rewrite first_in_cons, decide_True by done. by rewrite rename_id.
Qed.

(** Renaming the first other column and selecting it. *)
Lemma rename_first_other (columns : list string) (new c : string) (rest : list string)
    (i : nat) :
  NoDup columns → get_loc "date" columns = Some i → new ∉ columns → new ≠ "date" →
  others columns = c :: rest →
  (date ← getitem (rename c new columns) "date";
   rain ← getitem (rename c new columns) new;
   Some (date, rain))
  = Some (Series i, match get_loc c columns with Some j => Series j | None => Zeros end).
Proof.
  intros Hnd Hi Hnew Hne Hothers.
  assert (c ≠ "date") as Hc.
  { assert (c ∈ others columns) as Hin by (rewrite Hothers; apply list_elem_of_here).
    by apply elem_of_others in Hin as [? _]. }
  destruct (getitem_renamed c new columns) as [-> ->]; try done.
  rewrite Hi. destruct (rain_of_first columns c rest Hnd Hothers) as [j ->]. done.
Qed.

Lemma river_upstream_normalised (columns : list string) :
  NoDup columns → "date" ∈ columns →
  predict_river_level_columns.upstream_columns columns
  = (i ← get_loc "date" columns; Some (Series i, resolve_rain ["upstream_rain"] columns)).
Proof.
  intros Hnd Hdate. unfold predict_river_level_columns.upstream_columns, resolve_rain.
  rewrite safe_read_normalised by done. cbn [mbind option_bind].
  rewrite !first_in_others, first_in_nil by done.
  destruct (get_loc_is_Some columns "date" Hdate) as [i Hi]. rewrite Hi.
  cbn [mbind option_bind].
  destruct (decide ("upstream_rain" ∈ columns)) as [HU|HU].
  - rewrite (decide_False (P := "upstream_rain" ∉ columns)) by tauto.
    rewrite !getitem_get_loc, Hi by done. cbn [mbind option_bind].
    by destruct (get_loc_is_Some columns "upstream_rain" HU) as [j ->].
  - rewrite (decide_True (P := "upstream_rain" ∉ columns)) by done.
    destruct (others columns) as [|c rest] eqn:Hothers.
    + by rewrite getitem_get_loc, Hi by done.
    + by rewrite (rename_first_other columns "upstream_rain" c rest i).
Qed.

Lemma getitem_frame (columns : list string) (name : string) (i j : nat) :
  columns !! i = Some name → columns !! j = Some name → i ≠ j →
  ∃ places, getitem columns name = Some (Several places).
Proof.
  intros Hi Hj Hij. unfold getitem. set (places := filter _ _).
  assert (∀ k, columns !! k = Some name → k ∈ places) as Hplaces.
  { intros k Hk. unfold places. rewrite list_elem_of_filter, elem_of_seq.
    split; [done|]. apply lookup_lt_Some in Hk. lia. }
  pose proof (Hplaces i Hi) as Hi'. pose proof (Hplaces j Hj) as Hj'.
  destruct places as [|a [|b l]].
  - by apply not_elem_of_nil in Hi'.
  - apply list_elem_of_singleton in Hi', Hj'. congruence.
  - by eexists.
Qed.

Lemma river_local_normalised (columns : list string) :
  NoDup columns → "date" ∈ columns →
  (¬ ("Rainfall" ∈ columns ∧ "local_rain" ∈ columns) →
   predict_river_level_columns.local_columns columns
   = (i ← get_loc "date" columns;
      Some (Series i, resolve_rain ["Rainfall"; "local_rain"] columns))) ∧
  ("Rainfall" ∈ columns → "local_rain" ∈ columns →
   ∃ i places, predict_river_level_columns.local_columns columns
               = Some (Series i, Several places)).
Proof.
  intros Hnd Hdate.
  destruct (get_loc_is_Some columns "date" Hdate) as [i Hi].
  unfold predict_river_level_columns.local_columns, resolve_rain.
  rewrite safe_read_normalised by done. cbn [mbind option_bind]. cbv zeta.
  split.
  - intros Hboth. rewrite !first_in_others, first_in_nil by done. rewrite Hi.
    cbn [mbind option_bind].
    destruct (decide ("Rainfall" ∈ columns)) as [HR|HR].
    + assert ("local_rain" ∉ columns) as HL by tauto.
      assert ("local_rain" ∈ rename "Rainfall" "local_rain" columns) as HL2
        by (apply elem_of_rename; by right).
      rewrite (decide_False (P := "local_rain" ∉ rename _ _ _)) by tauto.
      destruct (getitem_renamed "Rainfall" "local_rain" columns) as [-> ->]; try done.
      rewrite Hi. cbn [mbind option_bind fmap option_fmap option_map].
      by destruct (get_loc_is_Some columns "Rainfall" HR) as [j ->].
    + destruct (decide ("local_rain" ∈ columns)) as [HL|HL].
      * rewrite (decide_False (P := "local_rain" ∉ columns)) by tauto.
        rewrite !getitem_get_loc, Hi by done. cbn [mbind option_bind].
        by destruct (get_loc_is_Some columns "local_rain" HL) as [j ->].
      * rewrite (decide_True (P := "local_rain" ∉ columns)) by done.
        destruct (others columns) as [|c rest] eqn:Hothers.
        -- by rewrite getitem_get_loc, Hi by done.
        -- by rewrite (rename_first_other columns "local_rain" c rest i).
  - intros HR HL. rewrite (decide_True (P := "Rainfall" ∈ columns)) by done.
    assert ("local_rain" ∈ rename "Rainfall" "local_rain" columns) as HL2
      by (apply elem_of_rename; by right).
    rewrite (decide_False (P := "local_rain" ∉ rename _ _ _)) by tauto.
    assert (getitem (rename "Rainfall" "local_rain" columns) "date" = Some (Series i))
      as ->.
    { unfold getitem, rename. rewrite length_map.
      assert (∀ k, map (λ c, if decide (c = "Rainfall") then "local_rain" else c)
                       columns !! k = Some "date" ↔ columns !! k = Some "date") as Hk.
      { intros k. rewrite list_lookup_fmap, fmap_Some. split.
        - intros (c & Hc & Heq). by case_decide; subst.
        - intros Hc. exists "date". by rewrite decide_False. }
      erewrite (list_filter_iff _ (λ k, columns !! k = Some "date")) by apply Hk.
      pose proof (getitem_get_loc columns "date" Hnd) as Hget.
      unfold getitem in Hget. by rewrite Hget, Hi. }
    cbn [mbind option_bind].
    destruct (get_loc_is_Some columns "Rainfall" HR) as [jr Hjr].
    destruct (get_loc_is_Some columns "local_rain" HL) as [jl Hjl].
    apply (get_loc_Some _ _ _ Hnd) in Hjr, Hjl.
    destruct (getitem_frame (rename "Rainfall" "local_rain" columns) "local_rain" jr jl)
      as [places ->].
    + unfold rename. rewrite list_lookup_fmap, Hjr. cbn. by rewrite decide_True.
    + unfold rename. rewrite list_lookup_fmap, Hjl. cbn. by rewrite decide_False.
    + intros ->. congruence.
    + by exists i, places.
Qed.

Lemma getitem_absent (columns : list string) (name : string) :
  name ∉ columns → getitem columns name = None.
Proof.
  intros Hout. unfold getitem.
  destruct (filter _ _) as [|i places] eqn:Hplaces; [done|].
  exfalso. apply Hout.
  assert (i ∈ filter (λ i, columns !! i = Some name) (seq 0 (length columns))) as Hi
    by (rewrite Hplaces; apply list_elem_of_here).
  apply list_elem_of_filter in Hi as [Hi _]. by eapply list_elem_of_lookup_2.
Qed.

Lemma flood_date_choice (columns : list string) :
  first_in ["date"; "Date"] columns
  = if decide ("date" ∈ columns) then Some "date"
    else if decide ("Date" ∈ columns) then Some "Date" else None.
Proof. by rewrite !first_in_cons, first_in_nil. Qed.

Lemma flood_date_chosen (columns : list string) (d : string) :
  ("date" ∈ columns ∧ d = "date") ∨
  (("date" ∉ columns) ∧ "Date" ∈ columns ∧ d = "Date") →
  match first_in ["date"; "Date"] columns with
  | Some d => Some d
  | None => if false then head columns else None
  end = Some d ∧ d ∈ columns ∧ ("date" ∉ columns ∨ d = "date").
Proof.
  rewrite flood_date_choice. intros [[Hdate ->] | (Hdate & HDate & ->)].
  - rewrite decide_True by done. split; [done|]. split; [done | by right].
  - rewrite decide_False, decide_True by done. split; [done|]. split; [done | by left].
Qed.

Lemma flood_local_resolve (columns : list string) :
  NoDup columns →
  predict_flood_columns.load_local_forecast columns
  = resolve ["date"; "Date"] false ["local_rain"; "Rainfall"; "gurd_rain"] columns.
Proof.
  intros Hnd.
  destruct (decide ("date" ∈ columns)) as [Hdate|Hdate];
    [|destruct (decide ("Date" ∈ columns)) as [HDate|HDate]].
  - destruct (flood_date_chosen columns "date") as (Hd & Hin & Hor); [by left|].
    destruct (resolve_normalised ["date"; "Date"]
                ["local_rain"; "Rainfall"; "gurd_rain"] false columns "date"
                Hnd Hd Hin Hor) as (_ & _ & ->).
    rewrite rename_id. by apply flood_local_normalised.
  - destruct (flood_date_chosen columns "Date") as (Hd & Hin & Hor); [by right|].
    destruct (resolve_normalised ["date"; "Date"]
                ["local_rain"; "Rainfall"; "gurd_rain"] false columns "Date"
                Hnd Hd Hin Hor) as (Hnd' & Hdate' & ->).
    rewrite <- (flood_local_normalised _ Hnd' Hdate').
    unfold predict_flood_columns.load_local_forecast.
    rewrite (decide_True (P := "Date" ∈ columns ∧ "date" ∉ columns)) by done.
    by rewrite (decide_False (P := "Date" ∈ rename _ _ _ ∧ "date" ∉ rename _ _ _))
      by tauto.
  - unfold resolve. rewrite flood_date_choice, !decide_False by done.
    unfold predict_flood_columns.load_local_forecast. cbv zeta.
    rewrite (decide_False (P := "Date" ∈ columns ∧ "date" ∉ columns)) by tauto.
    rewrite (getitem_absent _ "date"); [done|].
    repeat case_decide; rewrite ?elem_of_rename; intuition congruence.
Qed.

Lemma flood_upstream_resolve (columns : list string) :
  NoDup columns →
  predict_flood_columns.load_upstream_forecast columns
  = resolve ["date"; "Date"] false ["upstream_rain"] columns.
Proof.
  intros Hnd.
  destruct (decide ("date" ∈ columns)) as [Hdate|Hdate];
    [|destruct (decide ("Date" ∈ columns)) as [HDate|HDate]].
  - destruct (flood_date_chosen columns "date") as (Hd & Hin & Hor); [by left|].
    destruct (resolve_normalised ["date"; "Date"] ["upstream_rain"] false columns "date"
                Hnd Hd Hin Hor) as (_ & _ & ->).
    rewrite rename_id. by apply flood_upstream_normalised.
  - destruct (flood_date_chosen columns "Date") as (Hd & Hin & Hor); [by right|].
    destruct (resolve_normalised ["date"; "Date"] ["upstream_rain"] false columns "Date"
                Hnd Hd Hin Hor) as (Hnd' & Hdate' & ->).
    rewrite <- (flood_upstream_normalised _ Hnd' Hdate').
    unfold predict_flood_columns.load_upstream_forecast.
    rewrite (decide_True (P := ("date" ∉ columns) ∧ "Date" ∈ columns)) by done.
    by rewrite (decide_False (P := ("date" ∉ rename _ _ _) ∧ "Date" ∈ rename _ _ _))
      by tauto.
  - unfold resolve. rewrite flood_date_choice, !decide_False by done.
    unfold predict_flood_columns.load_upstream_forecast. cbv zeta.
    rewrite (decide_False (P := ("date" ∉ columns) ∧ "Date" ∈ columns)) by tauto.
    by rewrite (getitem_absent _ "date").
Qed.

(** The date column [safe_read_csv_dates] settles on. *)
Lemma safe_read_choice (columns : list string) (c0 : string) (rest : list string) :
  columns = c0 :: rest →
  ∃ d, match first_in predict_river_level_columns.date_col_candidates columns with
       | Some d => Some d
       | None => head columns
       end = Some d ∧
       d ∈ columns ∧
       ("date" ∉ columns ∨ d = "date") ∧
       predict_river_level_columns.safe_read_csv_dates columns
         predict_river_level_columns.date_col_candidates
       = Some (rename d "date" columns).
Proof.
  intros Hcols. unfold predict_river_level_columns.safe_read_csv_dates,
    predict_river_level_columns.date_col_candidates.
  rewrite !first_in_cons, first_in_nil.
  destruct (decide ("date" ∈ columns)) as [Hdate|Hdate];
    [|destruct (decide ("Date" ∈ columns)) as [HDate|HDate];
      [|destruct (decide ("datetime" ∈ columns)) as [Hdt|Hdt]]].
  - exists "date". split; [done|]. split; [done|]. split; [by right | done].
  - exists "Date". split; [done|]. split; [done|]. split; [by left | done].
  - exists "datetime". split; [done|]. split; [done|]. split; [by left | done].
  - exists c0. subst columns. split; [done|]. split; [apply list_elem_of_here|].
    split; [by left | done].
Qed.

Lemma river_upstream_resolve (columns : list string) :
  NoDup columns →
  predict_river_level_columns.upstream_columns columns
  = resolve ["date"; "Date"; "datetime"] true ["upstream_rain"] columns.
Proof.
  intros Hnd. destruct columns as [|c0 rest] eqn:Hcols; [done|]. rewrite <- Hcols in *.
  destruct (safe_read_choice columns c0 rest Hcols) as (d & Hd & Hin & Hdate & Hread).
  destruct (resolve_normalised ["date"; "Date"; "datetime"] ["upstream_rain"] true
              columns d Hnd Hd Hin Hdate) as (Hnd' & Hdate' & ->).
  rewrite <- (river_upstream_normalised _ Hnd' Hdate').
  unfold predict_river_level_columns.upstream_columns.
  by rewrite Hread, (safe_read_normalised _ Hdate').
Qed.

Lemma river_local_resolve (columns : list string) (d : string) :
  NoDup columns →
  match first_in ["date"; "Date"; "datetime"] columns with
  | Some d => Some d
  | None => head columns
  end = Some d →
  let rest := filter (λ c, c ≠ d) columns in
  (¬ ("Rainfall" ∈ rest ∧ "local_rain" ∈ rest) →
   predict_river_level_columns.local_columns columns
   = resolve ["date"; "Date"; "datetime"] true ["Rainfall"; "local_rain"] columns) ∧
  ("Rainfall" ∈ rest → "local_rain" ∈ rest →
   ∃ i places, predict_river_level_columns.local_columns columns
               = Some (Series i, Several places)).
Proof.
  intros Hnd Hchoice rest. destruct columns as [|c0 cs] eqn:Hcols; [done|].
  rewrite <- Hcols in *.
  destruct (safe_read_choice columns c0 cs Hcols) as (d' & Hd & Hin & Hdate & Hread).
  assert (d' = d) as -> by (unfold predict_river_level_columns.date_col_candidates in Hd;
                            congruence).
  destruct (resolve_normalised ["date"; "Date"; "datetime"] ["Rainfall"; "local_rain"]
              true columns d Hnd Hd Hin Hdate) as (Hnd' & Hdate' & ->).
  assert (∀ x, x ≠ "date" → x ∈ rename d "date" columns ↔ x ∈ rest) as Hmem.
  { intros x Hx. unfold rest. rewrite elem_of_rename, list_elem_of_filter.
    cbv beta. intuition congruence. }
  assert (predict_river_level_columns.local_columns columns
          = predict_river_level_columns.local_columns (rename d "date" columns)) as ->.
  { unfold predict_river_level_columns.local_columns.
    by rewrite Hread, (safe_read_normalised _ Hdate'). }
  destruct (river_local_normalised _ Hnd' Hdate') as [Hone Hboth].
  split.
  - intros Hnot. apply Hone. by rewrite !Hmem.
  - intros HR HL. apply Hboth; by apply Hmem.
Qed.

(** X27: on a table with distinct column names the loaders of stage 2 pick
    their columns by priority.  The date column is date, or else Date;
    without either [df["date"]] raises [KeyError].  The local rain is
    local_rain, or else Rainfall, or else gurd_rain, the upstream rain is
    upstream_rain; or else the rain is the first column other than the date
    column, or the constant 0.0 when there is none. *)
Theorem flood_columns_by_priority (columns : list string) :
  NoDup columns →
  predict_flood_columns.load_local_forecast columns
  = resolve ["date"; "Date"] false ["local_rain"; "Rainfall"; "gurd_rain"] columns ∧
  predict_flood_columns.load_upstream_forecast columns
  = resolve ["date"; "Date"] false ["upstream_rain"] columns ∧
  (predict_flood_columns.load_local_forecast columns = None ↔
   ("date" ∉ columns) ∧ ("Date" ∉ columns)) ∧
  (predict_flood_columns.load_upstream_forecast columns = None ↔
   ("date" ∉ columns) ∧ ("Date" ∉ columns)).
Proof.
  intros Hnd.
  assert (∀ names, resolve ["date"; "Date"] false names columns = None ↔
                   ("date" ∉ columns) ∧ ("Date" ∉ columns)) as Hnone.
  { intros names. unfold resolve. rewrite flood_date_choice.
    destruct (decide ("date" ∈ columns)) as [Hdate|Hdate];
      [|destruct (decide ("Date" ∈ columns)) as [HDate|HDate]]; cbn [mbind option_bind].
    - destruct (get_loc_is_Some _ _ Hdate) as [i ->]. cbn. split; [done | tauto].
    - destruct (get_loc_is_Some _ _ HDate) as [i ->]. cbn. split; [done | tauto].
    - done. }
  rewrite flood_local_resolve, flood_upstream_resolve by done.
  split; [done|]. split; [done|]. split; apply Hnone.
Qed.

(** X28: stage 1 is more liberal about the date column: date, or else Date,
    or else datetime, or else the first column, so that it reads every table
    that has a column.  Its upstream rain is upstream_rain, or else the
    first other column.  For the local forecast it takes Rainfall or
    local_rain, or else the first other column, and never gurd_rain by name;
    when both Rainfall and local_rain are columns, its renaming gives two
    columns the name local_rain and the selection is a frame of both. *)
Theorem river_columns_by_priority (columns : list string) (d : string) :
  NoDup columns →
  match first_in ["date"; "Date"; "datetime"] columns with
  | Some d => Some d
  | None => head columns
  end = Some d →
  let rest := filter (λ c, c ≠ d) columns in
  predict_river_level_columns.upstream_columns columns
  = resolve ["date"; "Date"; "datetime"] true ["upstream_rain"] columns ∧
  (∃ i rain, predict_river_level_columns.upstream_columns columns = Some (Series i, rain) ∧
             columns !! i = Some d) ∧
  (¬ ("Rainfall" ∈ rest ∧ "local_rain" ∈ rest) →
   predict_river_level_columns.local_columns columns
   = resolve ["date"; "Date"; "datetime"] true ["Rainfall"; "local_rain"] columns) ∧
  ("Rainfall" ∈ rest → "local_rain" ∈ rest →
   ∃ i places, predict_river_level_columns.local_columns columns
               = Some (Series i, Several places)).
Proof.
  intros Hnd Hchoice rest.
  destruct (river_local_resolve columns d Hnd Hchoice) as [Hone Hboth].
  split; [by apply river_upstream_resolve|]. split; [|done].
  rewrite river_upstream_resolve by done. unfold resolve.
  change (if true then head columns else None) with (head columns).
  rewrite Hchoice. cbn [mbind option_bind].
  assert (d ∈ columns) as Hin.
  { destruct (first_in ["date"; "Date"; "datetime"] columns) as [d'|] eqn:Hfirst.
    - injection Hchoice as ->. unfold first_in in Hfirst.
      apply fmap_Some in Hfirst as ([k r] & Hf & ->).
      by apply list_find_Some in Hf as (_ & ? & _).
    - by apply head_Some_elem_of. }
  destruct (get_loc_is_Some _ _ Hin) as [i Hi]. rewrite Hi. cbn [mbind option_bind].
  eexists i, _. split; [reflexivity|]. by apply get_loc_Some.
Qed.

(** X29: the two stages read the same columns of an upstream forecast table
    that has a column date or Date.  On a local forecast table with such a
    column, and not both columns Rainfall and local_rain, they read the same
    columns exactly when the table has a column local_rain or Rainfall, or
    has no column gurd_rain, or has gurd_rain as its first column other than
    the date column: stage 2 takes gurd_rain by name and stage 1 does not. *)
Theorem forecast_readers_agree (columns : list string) (d : string) :
  NoDup columns →
  first_in ["date"; "Date"] columns = Some d →
  predict_river_level_columns.upstream_columns columns
  = predict_flood_columns.load_upstream_forecast columns ∧
  (¬ ("Rainfall" ∈ columns ∧ "local_rain" ∈ columns) →
   (predict_river_level_columns.local_columns columns
    = predict_flood_columns.load_local_forecast columns ↔
    "local_rain" ∈ columns ∨ "Rainfall" ∈ columns ∨ "gurd_rain" ∉ columns ∨
    head (filter (λ c, c ≠ d) columns) = Some "gurd_rain")).
Proof.
  intros Hnd Hd.
  assert (d = "date" ∨ d = "Date") as Hdd.
  { rewrite flood_date_choice in Hd. repeat case_decide; [left|right|]; congruence. }
  assert (first_in ["date"; "Date"; "datetime"] columns = Some d) as Hd3.
  { rewrite flood_date_choice in Hd. rewrite !first_in_cons.
    repeat case_decide; congruence. }
  assert (∀ x names b, resolve ["date"; "Date"; "datetime"] b names columns
                       = resolve ["date"; "Date"] x names columns) as Hres.
  { intros x names b. unfold resolve. by rewrite Hd, Hd3. }
  split.
  { rewrite river_upstream_resolve, flood_upstream_resolve by done. apply Hres. }
  intros Hnot.
  set (rest := filter (λ c, c ≠ d) columns).
  assert (∀ x, x ≠ "date" → x ≠ "Date" → x ∈ rest ↔ x ∈ columns) as Hmem.
  { intros x H1 H2. unfold rest. rewrite list_elem_of_filter.
    cbv beta. destruct Hdd; subst; intuition congruence. }
  pose proof (river_local_resolve columns d Hnd) as Hrl.
  rewrite Hd3 in Hrl. specialize (Hrl eq_refl). cbv zeta in Hrl. fold rest in Hrl.
  destruct Hrl as [-> _]; [|by rewrite !Hmem].
  rewrite flood_local_resolve by done. unfold resolve. rewrite Hd, Hd3.
  cbn [mbind option_bind].
  assert (d ∈ columns) as Hin.
  { unfold first_in in Hd. apply fmap_Some in Hd as ([k r] & Hf & ->).
    by apply list_find_Some in Hf as (_ & ? & _). }
  destruct (get_loc_is_Some _ _ Hin) as [i ->]. cbn [mbind option_bind]. fold rest.
  rewrite !first_in_cons, first_in_nil.
  assert (∀ x, x ∈ rest → ∃ j, get_loc x columns = Some j ∧ columns !! j = Some x) as Hloc.
  { intros x Hx. apply list_elem_of_filter in Hx as [_ Hx].
    destruct (get_loc_is_Some _ _ Hx) as [j Hj]. exists j. split; [done|].
    by apply (get_loc_Some _ _ _ Hnd). }
  destruct (decide ("local_rain" ∈ rest)) as [HL|HL].
  { assert ("Rainfall" ∉ rest) as HR by (rewrite Hmem in HL |- * by done; tauto).
    rewrite (decide_False (P := "Rainfall" ∈ rest)) by done.
    split; [|done]. intros _. left. by rewrite <- Hmem. }
  destruct (decide ("Rainfall" ∈ rest)) as [HR|HR].
  { split; [|done]. intros _. right. left. by rewrite <- Hmem. }
  destruct (decide ("gurd_rain" ∈ rest)) as [HG|HG].
  - destruct (Hloc _ HG) as (jg & Hjg & Hcg).
    cbn [mbind option_bind]. rewrite Hjg.
    destruct (head rest) as [c|] eqn:Hhead; cbn [mbind option_bind].
    + destruct (Hloc c (head_Some_elem_of _ _ Hhead)) as (jc & -> & Hcc).
      split.
      * intros [= ->]. right. right. right. rewrite <- Hcc. exact Hcg.
      * intros [H|[H|[H|H]]].
        -- by rewrite <- Hmem in H.
        -- by rewrite <- Hmem in H.
        -- by rewrite <- Hmem in H.
        -- injection H as ->.
           by rewrite (NoDup_lookup _ _ _ _ Hnd Hcc Hcg).
    + apply head_None in Hhead. rewrite Hhead in HG. by apply not_elem_of_nil in HG.
  - split; [|done]. intros _. right. right. left. by rewrite <- Hmem.
Qed.

(** The header forecast_rainfall.py writes, and the header of
    forecast_gfs_upstream.py, resolve to the same two columns in both
    stages. *)
Example written_headers_resolve :
  predict_river_level_columns.local_columns ["Date"; "Rainfall"]
    = Some (Series 0, Series 1) ∧
  predict_flood_columns.load_local_forecast ["Date"; "Rainfall"]
    = Some (Series 0, Series 1) ∧
  predict_river_level_columns.upstream_columns ["date"; "upstream_rain"]
    = Some (Series 0, Series 1) ∧
  predict_flood_columns.load_upstream_forecast ["date"; "upstream_rain"]
    = Some (Series 0, Series 1).
Proof. repeat split; by vm_compute. Qed.

(** A local forecast table from which the two stages read different rains,
    and one that stage 2 rejects while stage 1 reads it. *)
Example readers_disagree :
  predict_river_level_columns.local_columns ["date"; "temp"; "gurd_rain"]
    = Some (Series 0, Series 1) ∧
  predict_flood_columns.load_local_forecast ["date"; "temp"; "gurd_rain"]
    = Some (Series 0, Series 2) ∧
  predict_river_level_columns.upstream_columns ["datetime"; "upstream_rain"]
    = Some (Series 0, Series 1) ∧
  predict_flood_columns.load_upstream_forecast ["datetime"; "upstream_rain"] = None.
Proof. repeat split; by vm_compute. Qed.

Lemma flood_columns_by_priority_witness :
  let columns := ["Date"; "Rainfall"] in
  predict_flood_columns.load_local_forecast columns
  = resolve ["date"; "Date"] false ["local_rain"; "Rainfall"; "gurd_rain"] columns ∧
  predict_flood_columns.load_upstream_forecast columns
  = resolve ["date"; "Date"] false ["upstream_rain"] columns ∧
  (predict_flood_columns.load_local_forecast columns = None ↔
   ("date" ∉ columns) ∧ ("Date" ∉ columns)) ∧
  (predict_flood_columns.load_upstream_forecast columns = None ↔
   ("date" ∉ columns) ∧ ("Date" ∉ columns)).
Proof.
  intros columns. apply (flood_columns_by_priority columns).
  apply (bool_decide_unpack _). vm_compute. exact I.
Defined.

Lemma river_columns_by_priority_witness :
  let columns := ["datetime"; "Rainfall"; "local_rain"] in
  let rest := filter (λ c, c ≠ "datetime") columns in
  predict_river_level_columns.upstream_columns columns
  = resolve ["date"; "Date"; "datetime"] true ["upstream_rain"] columns ∧
  (∃ i rain, predict_river_level_columns.upstream_columns columns = Some (Series i, rain) ∧
             columns !! i = Some "datetime") ∧
  (¬ ("Rainfall" ∈ rest ∧ "local_rain" ∈ rest) →
   predict_river_level_columns.local_columns columns
   = resolve ["date"; "Date"; "datetime"] true ["Rainfall"; "local_rain"] columns) ∧
  ("Rainfall" ∈ rest → "local_rain" ∈ rest →
   ∃ i places, predict_river_level_columns.local_columns columns
               = Some (Series i, Several places)).
Proof.
  intros columns.
  apply (river_columns_by_priority columns "datetime").
  - apply (bool_decide_unpack _). vm_compute. exact I.
  - vm_compute. reflexivity.
Defined.

Lemma forecast_readers_agree_witness :
  let columns := ["date"; "temp"; "gurd_rain"] in
  predict_river_level_columns.upstream_columns columns
  = predict_flood_columns.load_upstream_forecast columns ∧
  (¬ ("Rainfall" ∈ columns ∧ "local_rain" ∈ columns) →
   (predict_river_level_columns.local_columns columns
    = predict_flood_columns.load_local_forecast columns ↔
    "local_rain" ∈ columns ∨ "Rainfall" ∈ columns ∨ "gurd_rain" ∉ columns ∨
    head (filter (λ c, c ≠ "date") columns) = Some "gurd_rain")).
Proof.
  intros columns.
  apply (forecast_readers_agree columns "date").
  - apply (bool_decide_unpack _). vm_compute. exact I.
  - vm_compute. reflexivity.
Defined.

(** * The trainers' feature lists and the predictors' feature dicts *)

(** X30: the feature list train_river_model.py persists names exactly the
    keys of the feature dict of stage 1, each once, so no trained river
    feature is ever defaulted.  The list train_flood_model.py persists
    starts with the raw columns gurd_rain, upstream_rain and river_level of
    the training table, which the feature dict of stage 2 never has: under
    these names the classifier is shown 0.0 on every forecast day, whatever
    the rains and the predicted level. *)
Theorem trained_feature_lists {ext : Externals} :
  (NoDup train_river_model.feature_cols ∧
   ∀ lags r3 r5 r7 prev d,
     dom (predict_river_level.features lags r3 r5 r7 prev d)
     = list_to_set train_river_model.feature_cols) ∧
  (∀ columns c,
     c ∈ ["gurd_rain"; "upstream_rain"; "river_level"] → c ∈ columns →
     c ∈ train_flood_model.feature_cols columns ∧
     ∀ (clf : FloodModel) (feat_order : list string) (m : gmap Z Q) (lr : Q)
       (st : LoopState) (row : MergedRow),
       c ∈ feat_order →
       ∃ X : Frame,
         (flood_probability <$> last (out_rows (step (Some (clf, feat_order)) m lr st row)))
           = Some (clf X) ∧
         map fst X = feat_order ∧
         (c, 0%Q) ∈ X ∧
         ∀ v, (c, v) ∈ X → v = 0%Q).
Proof.
  split.
  - split; [apply (bool_decide_unpack _); vm_compute; exact I|].
    intros lags r3 r5 r7 prev d. by rewrite river_features_dom.
  - intros columns c Hraw Hc. split.
    + unfold train_flood_model.feature_cols. apply elem_of_app. left.
      by apply list_elem_of_filter.
    + intros clf feat_order m lr st row Hin.
      set (feat := features (push (m_upstream_rain row) (up_lags st))
                            (push (m_local_rain row) (local_lags st))
                            (river_lag_1 m lr (m_date row)) (m_date row)).
      assert (feat_get feat c = 0%Q) as Hzero.
      { unfold feat_get.
        assert (feat !! c = None) as ->; [|done].
        apply not_elem_of_dom. unfold feat. rewrite flood_features_dom.
        rewrite elem_of_list_to_set.
        repeat (apply elem_of_cons in Hraw as [->|Hraw];
                [apply (bool_decide_unpack _); vm_compute; exact I|]).
        by apply not_elem_of_nil in Hraw. }
      exists (map (λ c, (c, feat_get feat c)) feat_order).
      split; [|split; [|split]].
      * cbn [step out_rows]. by rewrite last_snoc.
      * rewrite map_map. cbn [fst]. apply map_id.
      * rewrite <- Hzero. by apply (list_elem_of_fmap_2 (λ c, (c, feat_get feat c))).
      * intros v Hv. apply list_elem_of_fmap in Hv as (c' & Heq & _).
        injection Heq as <- ->. exact Hzero.
Qed.
